(** * The Leaflet map module of the RPGM example application

    A shallow embedding of [rpgm_modules/leaflet/main.js]: the
    [LeafletMapManager] singleton, which receives the controller's
    messages, and the [LeafletMap] class, one object per rendered map.

    The Leaflet widget ([L.map], [L.marker], [L.geoJson], ...) and the
    host ([RPGM.on], [RPGM.sendMessage], [setTimeout]) are outside the
    file; they are modelled at their documented interface, as state the
    module's calls act upon. *)

From Stdlib Require Import ZArith NArith Lia DecimalString.
From stdpp Require Import base list strings pretty.

Local Open Scope string_scope.
Local Open Scope list_scope.

Set Warnings "-register-all".

(** ** Exceptions and effects *)

(** What can be raised: a [TypeError] or a [RangeError] of the language
    itself, the error handed to [RPGM.newJavascriptError], and an
    [Error] the widget library throws. *)
Inductive JsError :=
| TypeError
| RangeError
| JavascriptError (message : string)
| WidgetError.

Inductive Outcome (A : Type) :=
| Ret (a : A)
| Throw (e : JsError).
Arguments Ret {A} a.
Arguments Throw {A} e.

(** Code with effects on a state [S]; an exception keeps the writes made
    before it was raised. *)
Definition Eff (S A : Type) : Type := S -> Outcome A * S.

Definition ret {S A} (a : A) : Eff S A := fun s => (Ret a, s).
Definition throw {S A} (e : JsError) : Eff S A := fun s => (Throw e, s).
Definition bind {S A B} (c : Eff S A) (k : A -> Eff S B) : Eff S B :=
  fun s => match c s with
           | (Ret a, s') => k a s'
           | (Throw e, s') => (Throw e, s')
           end.
Definition gets {S A} (f : S -> A) : Eff S A := fun s => (Ret (f s), s).
Definition modify {S} (f : S -> S) : Eff S unit := fun s => (Ret tt, f s).
Definition pure_outcome {S A} (o : Outcome A) : Eff S A := fun s => (o, s).

Notation "'let*' x ':=' c 'in' k" := (bind c (fun x => k))
  (at level 10, x name, c at level 100, k at level 200).
Notation "c ';;;' k" := (bind c (fun _ => k))
  (at level 100, k at level 200, right associativity).

(** [arr.map(f)] and [arr.forEach(f)] with a callback that may raise:
    the first exception stops the iteration. *)
Fixpoint mapM {S A B} (f : A -> Eff S B) (l : list A) : Eff S (list B) :=
  match l with
  | [] => ret []
  | x :: l' => let* y := f x in let* ys := mapM f l' in ret (y :: ys)
  end.

Fixpoint forEach {S A} (f : A -> Eff S unit) (l : list A) : Eff S unit :=
  match l with
  | [] => ret tt
  | x :: l' => f x ;;; forEach f l'
  end.

(** ** JavaScript values *)

(** The module never computes with a number: it tests [typeof], compares
    with [===], converts to a string and to a boolean.  The development
    is therefore parametric in the carrier of numbers. *)
Class JsNumber (number : Type) := {
  number_eq_dec :: EqDecision number;
  number_to_string : number -> string;
  number_to_boolean : number -> bool;
}.

(** Integers as numbers, for the examples. *)
#[export] Instance Z_JsNumber : JsNumber Z :=
  {| number_to_string := pretty; number_to_boolean := fun z => negb (Z.eqb z 0) |}.

Section Leaflet.
Context {number : Type} `{JsNumber number}.

(** Payloads exchanged with the controller: JSON values, plus
    [undefined] for what a property read yields when nothing is there. *)
Inductive value :=
| VUndef
| VNull
| VBool (b : bool)
| VNum (n : number)
| VStr (s : string)
| VArr (elems : list value)
| VObj (fields : list (string * value)).

(** *** Primitive operations of the language *)

Fixpoint assoc (k : string) (fs : list (string * value)) : option value :=
  match fs with
  | [] => None
  | (k', v) :: fs' => if String.eqb k k' then Some v else assoc k fs'
  end.

Fixpoint assoc_set (k : string) (v : value) (fs : list (string * value))
  : list (string * value) :=
  match fs with
  | [] => [(k, v)]
  | (k', v') :: fs' =>
      if String.eqb k k' then (k, v) :: fs' else (k', v') :: assoc_set k v fs'
  end.

(** [v.k] for the property names the module reads ([mapId], [lat],
    [points], ...): none of them is an own or inherited property of an
    array, string, number or boolean.  An object lists each of its
    properties once. *)
Definition get_prop (v : value) (k : string) : Outcome value :=
  match v with
  | VUndef | VNull => Throw TypeError
  | VObj fs => Ret (default VUndef (assoc k fs))
  | _ => Ret VUndef
  end.

(** [v[0]]. *)
Definition get_index0 (v : value) : Outcome value :=
  match v with
  | VUndef | VNull => Throw TypeError
  | VArr l => Ret (hd VUndef l)
  | VStr (String c _) => Ret (VStr (String c ""))
  | VObj fs => Ret (default VUndef (assoc "0" fs))
  | _ => Ret VUndef
  end.

(** [k in v], for the same property names. *)
Definition has_prop (k : string) (v : value) : Outcome bool :=
  match v with
  | VObj fs => Ret (bool_decide (is_Some (assoc k fs)))
  | VArr _ => Ret false
  | _ => Throw TypeError
  end.

Definition typeof (v : value) : string :=
  match v with
  | VUndef => "undefined"
  | VNull | VArr _ | VObj _ => "object"
  | VBool _ => "boolean"
  | VNum _ => "number"
  | VStr _ => "string"
  end.

Definition isArray (v : value) : bool :=
  match v with VArr _ => true | _ => false end.

(** [a === b].  Arrays and objects compare by reference; the two sides
    always come from different envelopes, hence are different objects. *)
Definition strict_eq (a b : value) : bool :=
  match a, b with
  | VUndef, VUndef | VNull, VNull => true
  | VBool x, VBool y => bool_decide (x = y)
  | VNum x, VNum y => bool_decide (x = y)
  | VStr x, VStr y => String.eqb x y
  | _, _ => false
  end.

Definition ToBoolean (v : value) : bool :=
  match v with
  | VUndef | VNull => false
  | VBool b => b
  | VNum n => number_to_boolean n
  | VStr s => negb (String.eqb s "")
  | VArr _ | VObj _ => true
  end.

(** String conversion, as a template literal performs it.  Payloads are
    JSON values; an object among them is given the form of a plain
    object, also when it carries a [toString] key of its own. *)
Fixpoint ToString (v : value) : string :=
  match v with
  | VUndef => "undefined"
  | VNull => "null"
  | VBool true => "true"
  | VBool false => "false"
  | VNum n => number_to_string n
  | VStr s => s
  | VArr l =>
      (fix join (l : list value) : string :=
         match l with
         | [] => ""
         | x :: rest =>
             let sx := match x with
                       | VUndef | VNull => ""
                       | _ => ToString x
                       end in
             match rest with
             | [] => sx
             | _ :: _ => sx +:+ "," +:+ join rest
             end
         end) l
  | VObj _ => "[object Object]"
  end.

(** [a || b], where evaluating an operand may raise. *)
Definition or_else (a b : Outcome bool) : Outcome bool :=
  match a with
  | Ret true => Ret true
  | Ret false => b
  | Throw e => Throw e
  end.

Definition outcome_bind {A B} (o : Outcome A) (k : A -> Outcome B) : Outcome B :=
  match o with
  | Ret a => k a
  | Throw e => Throw e
  end.

(** ** Data model *)

(** What [L.latLng(lat, lng)] builds. *)
Record LatLng := { lat : number; lng : number }.

Definition latlng_value (c : LatLng) : value :=
  VObj [("lat", VNum (lat c)); ("lng", VNum (lng c))].

(** The viewport the widget reports: [getBounds()] and [getZoom()]. *)
Record ViewState := {
  northLat : number;
  eastLng : number;
  southLat : number;
  westLng : number;
  zoomLevel : number;
}.

(** A message handed to [RPGM.sendMessage(target, tag, payload)]. *)
Record Message := { target : string; tag : string; payload : value }.

(** An element of [_queueGeoJSON]: [{points, id, tooltip, color}]. *)
Record ZoneEntry := {
  entry_points : value;
  entry_id : value;
  entry_tooltip : value;
  entry_color : value;
}.

Inductive GeometryType := Polygon | MultiPolygon.

(** A GeoJSON feature as [drawGeoJSON] writes it. *)
Record Feature := {
  prop_id : string;
  prop_color : value;
  prop_tooltip : value;
  geometry_type : GeometryType;
  coordinates : value;
}.

(** A [FeatureCollection] is the list of its features. *)
Definition FeatureCollection := list Feature.

(** Path options of a rendered feature, each as the source writes it;
    [weight = None] is the widget's default stroke width. *)
Record PathStyle := {
  fillColor : value;
  opacity : string;
  color : string;
  dashArray : string;
  fillOpacity : string;
  weight : option string;
}.

Record FeatureLayer := { feature : Feature; style : PathStyle }.

(** The object [L.geoJson] returns.  [paint_order] lists the features
    back to front. *)
Record GeoJSONLayer := {
  layer_uid : nat;
  layer_features : list FeatureLayer;
  paint_order : list nat;
}.

(** The object [L.marker] returns. *)
Record Marker := {
  marker_uid : nat;
  marker_lat : value;
  marker_lng : value;
  marker_icon : value;
  popup : value;
  popup_open : bool;
}.

(** The information control: its [div]'s display mode and content. *)
Record InfoControl := { display : string; innerHTML : value }.

(** The map widget [L.map] returns.  The viewport belongs to the widget:
    it is unknown to the module until the widget reports it, and
    [getBounds] raises on a widget without a view.  [shown_layers] holds
    the identities of the markers and GeoJSON layers now on the map. *)
Record Widget := {
  container : string;
  mapOptions : value;
  tiles : option (value * value);
  viewport : option ViewState;
  shown_layers : list nat;
}.

(** One object of class [LeafletMap]. *)
Record LeafletMap := {
  _id : value;
  _queueGeoJSON : list ZoneEntry;
  _lastGeoJSON : option GeoJSONLayer;
  _markers : list Marker;
  _debouncer : option nat;
  _map : Widget;
  _tooltip : InfoControl;
  _legendDiv : value;
}.

(** Sessions are objects: they are referred to by their address in the
    heap of the page. *)
Definition addr := nat.

(** A pending [setTimeout(this.sendChange, delay)]. *)
Record Timer := { timer_id : nat; due : nat; timer_this : addr }.

(** The host side: what was sent to the controller, the console, the
    errors reported to RPGM, the clock and the timer queue, the counter
    that gives widget objects their identity, and the elements of the
    page that already hold a map. *)
Record Env := {
  outbox : list Message;
  console : list string;
  reported : list string;
  now : nat;
  timers : list Timer;
  next_timer : nat;
  next_uid : nat;
  used : list string;
}.

(** *** Field updates *)

Definition set_queueGeoJSON (q : list ZoneEntry) (s : LeafletMap) : LeafletMap :=
  {| _id := _id s; _queueGeoJSON := q; _lastGeoJSON := _lastGeoJSON s;
     _markers := _markers s; _debouncer := _debouncer s; _map := _map s;
     _tooltip := _tooltip s; _legendDiv := _legendDiv s |}.

Definition set_lastGeoJSON (l : option GeoJSONLayer) (s : LeafletMap) : LeafletMap :=
  {| _id := _id s; _queueGeoJSON := _queueGeoJSON s; _lastGeoJSON := l;
     _markers := _markers s; _debouncer := _debouncer s; _map := _map s;
     _tooltip := _tooltip s; _legendDiv := _legendDiv s |}.

Definition set_markers (m : list Marker) (s : LeafletMap) : LeafletMap :=
  {| _id := _id s; _queueGeoJSON := _queueGeoJSON s; _lastGeoJSON := _lastGeoJSON s;
     _markers := m; _debouncer := _debouncer s; _map := _map s;
     _tooltip := _tooltip s; _legendDiv := _legendDiv s |}.

Definition set_debouncer (d : option nat) (s : LeafletMap) : LeafletMap :=
  {| _id := _id s; _queueGeoJSON := _queueGeoJSON s; _lastGeoJSON := _lastGeoJSON s;
     _markers := _markers s; _debouncer := d; _map := _map s;
     _tooltip := _tooltip s; _legendDiv := _legendDiv s |}.

Definition set_map (w : Widget) (s : LeafletMap) : LeafletMap :=
  {| _id := _id s; _queueGeoJSON := _queueGeoJSON s; _lastGeoJSON := _lastGeoJSON s;
     _markers := _markers s; _debouncer := _debouncer s; _map := w;
     _tooltip := _tooltip s; _legendDiv := _legendDiv s |}.

Definition set_legendDiv (c : value) (s : LeafletMap) : LeafletMap :=
  {| _id := _id s; _queueGeoJSON := _queueGeoJSON s; _lastGeoJSON := _lastGeoJSON s;
     _markers := _markers s; _debouncer := _debouncer s; _map := _map s;
     _tooltip := _tooltip s; _legendDiv := c |}.

Definition set_shown_layers (l : list nat) (w : Widget) : Widget :=
  {| container := container w; mapOptions := mapOptions w; tiles := tiles w;
     viewport := viewport w; shown_layers := l |}.

Definition set_viewport (v : option ViewState) (w : Widget) : Widget :=
  {| container := container w; mapOptions := mapOptions w; tiles := tiles w;
     viewport := v; shown_layers := shown_layers w |}.

(** The session with [l] as the layers on its map. *)
Definition set_shown (l : list nat) (s : LeafletMap) : LeafletMap :=
  set_map (set_shown_layers l (_map s)) s.

Definition set_outbox (o : list Message) (e : Env) : Env :=
  {| outbox := o; console := console e; reported := reported e; now := now e;
     timers := timers e; next_timer := next_timer e; next_uid := next_uid e;
     used := used e |}.

Definition set_console (c : list string) (e : Env) : Env :=
  {| outbox := outbox e; console := c; reported := reported e; now := now e;
     timers := timers e; next_timer := next_timer e; next_uid := next_uid e;
     used := used e |}.

Definition set_reported (r : list string) (e : Env) : Env :=
  {| outbox := outbox e; console := console e; reported := r; now := now e;
     timers := timers e; next_timer := next_timer e; next_uid := next_uid e;
     used := used e |}.

Definition set_now (t : nat) (e : Env) : Env :=
  {| outbox := outbox e; console := console e; reported := reported e; now := t;
     timers := timers e; next_timer := next_timer e; next_uid := next_uid e;
     used := used e |}.

Definition set_timers (ts : list Timer) (e : Env) : Env :=
  {| outbox := outbox e; console := console e; reported := reported e; now := now e;
     timers := ts; next_timer := next_timer e; next_uid := next_uid e;
     used := used e |}.

Definition set_next_timer (n : nat) (e : Env) : Env :=
  {| outbox := outbox e; console := console e; reported := reported e; now := now e;
     timers := timers e; next_timer := n; next_uid := next_uid e;
     used := used e |}.

Definition set_next_uid (n : nat) (e : Env) : Env :=
  {| outbox := outbox e; console := console e; reported := reported e; now := now e;
     timers := timers e; next_timer := next_timer e; next_uid := n;
     used := used e |}.

Definition set_used (u : list string) (e : Env) : Env :=
  {| outbox := outbox e; console := console e; reported := reported e; now := now e;
     timers := timers e; next_timer := next_timer e; next_uid := next_uid e;
     used := u |}.

(** ** The host *)

(** [debug(output)]. *)
Definition debug (output : string) : Eff Env unit :=
  modify (fun e => set_console (console e ++ ["[Leaflet] " +:+ output]) e).

(** [RPGM.sendMessage(to, message, data)]: delivery is fire-and-forget. *)
Definition sendMessage (to message : string) (data : value) : Eff Env unit :=
  modify (fun e =>
    set_outbox (outbox e ++ [{| target := to; tag := message; payload := data |}]) e).

(** Modelled from the spec: [RPGM.newJavascriptError] belongs to the host
    and is not in the repository.  The error is "reported as a fatal
    construction error to the host environment, not recoverable
    locally": the host records it and control does not come back to the
    caller. *)
Definition newJavascriptError (message : string) : Eff Env unit :=
  modify (fun e => set_reported (reported e ++ [message]) e) ;;;
  throw (JavascriptError message).

(** The timer queue is kept in firing order: a new timer goes behind the
    pending ones that are due no later. *)
Fixpoint enqueue (t : Timer) (q : list Timer) : list Timer :=
  match q with
  | [] => [t]
  | t' :: q' => if Nat.leb (due t') (due t) then t' :: enqueue t q' else t :: q
  end.

(** [setTimeout(this.sendChange, delay)], with [this] the session at
    [self]; returns the new timer's id. *)
Definition setTimeout (self : addr) (delay : nat) : Eff Env nat :=
  let* e := gets (fun e => e) in
  let t := {| timer_id := next_timer e; due := now e + delay; timer_this := self |} in
  modify (fun e => set_next_timer (S (next_timer e)) (set_timers (enqueue t (timers e)) e)) ;;;
  ret (timer_id t).

(** [clearTimeout(id)]: no effect when no such timer is pending. *)
Definition clearTimeout (id : nat) : Eff Env unit :=
  modify (fun e =>
    set_timers (filter (fun t => timer_id t <> id) (timers e)) e).

(** ** The widget library *)

(** [L.latLng(a, b)] on two numbers.  [jsonToLatLng] reaches the call
    with other arguments only past [newJavascriptError], that is never. *)
Definition L_latLng (a b : value) : Outcome LatLng :=
  match a, b with
  | VNum x, VNum y => Ret {| lat := x; lng := y |}
  | _, _ => Throw WidgetError
  end.

(** Whether the GeoJSON renderer accepts a collection: it may reject
    malformed geometry by raising. *)
Variable L_geoJson_accepts : FeatureCollection -> bool.

(** The page and the rest of the widget library are outside the
    repository as well.  What the module's calls depend on is taken as
    given: the elements the page has, and the arguments the library
    accepts where it checks them and raises. *)
Record Library := {
  (* [document.getElementById(id)] finds an element *)
  in_page : string -> bool;
  (* [L.map(id, options)] gets through the options of a free container *)
  L_map_accepts : string -> value -> bool;
  (* the viewport of a map made with a centre and a zoom *)
  L_map_view : value -> ViewState;
  (* [L.tileLayer(layer, layerOptions).addTo(map)] returns *)
  L_tileLayer_accepts : value -> value -> Widget -> bool;
  (* [L.marker([lat, lng], options)] can place the marker *)
  L_marker_accepts : value -> value -> bool;
}.

(** A page that has every container asked for, and a library that
    takes every map and tile layer, and the markers whose coordinates
    are numbers; a map made with a view is at [v]. *)
Definition plain_library (v : ViewState) : Library :=
  {| in_page := fun _ => true;
     L_map_accepts := fun _ _ => true;
     L_map_view := fun _ => v;
     L_tileLayer_accepts := fun _ _ _ => true;
     L_marker_accepts := fun a b =>
       match a, b with
       | VNum _, VNum _ => true
       | _, _ => false
       end |}.

Variable leaflet : Library.

(** ** Coordinate conversion *)

Definition jsonToLatLng (obj : value) : Eff Env LatLng :=
  let* malformed := pure_outcome
    (or_else (Ret (negb (String.eqb (typeof obj) "object")))
    (or_else (outcome_bind (has_prop "lat" obj) (fun b => Ret (negb b)))
    (or_else (outcome_bind (has_prop "lng" obj) (fun b => Ret (negb b)))
    (or_else (outcome_bind (get_prop obj "lat")
                (fun v => Ret (negb (String.eqb (typeof v) "number"))))
             (outcome_bind (get_prop obj "lng")
                (fun v => Ret (negb (String.eqb (typeof v) "number")))))))) in
  (if malformed : bool
   then newJavascriptError "Could not convert an object to a LatLng object!"
   else ret tt) ;;;
  let* a := pure_outcome (get_prop obj "lat") in
  let* b := pure_outcome (get_prop obj "lng") in
  pure_outcome (L_latLng a b).


(** ** Class [LeafletMap] *)

(** A method runs on its object and on the host. *)
Definition Cell : Type := LeafletMap * Env.

Definition this : Eff Cell LeafletMap := gets fst.
Definition update_this (f : LeafletMap -> LeafletMap) : Eff Cell unit :=
  modify (fun c => (f (fst c), snd c)).
Definition host {A} (c : Eff Env A) : Eff Cell A :=
  fun c0 => let (o, e') := c (snd c0) in (o, (fst c0, e')).

(** A widget in the element [id], with nothing on it yet. *)
Definition widget_on (id : string) (options : value) (view : option ViewState)
  : Widget :=
  {| container := id; mapOptions := options; tiles := None;
     viewport := view; shown_layers := [] |}.

(** The option [k] of a widget, as the library copies it from the
    argument of [L.map]. *)
Definition option_of (options : value) (k : string) : value :=
  match options with
  | VObj fs => default VUndef (assoc k fs)
  | _ => VUndef
  end.

(** [options.center && options.zoom !== undefined]: the library gives
    the new map its view at once. *)
Definition has_view (options : value) : bool :=
  ToBoolean (option_of options "center")
  && negb (strict_eq (option_of options "zoom") VUndef).

(** [L.map(id, options)].  The library raises when the page has no
    element [id] and when that element holds a map already; it then
    takes the element and goes through the options. *)
Definition L_map (id : string) (options : value) : Eff Env Widget :=
  let* e := gets (fun e => e) in
  if negb (in_page leaflet id) || bool_decide (id ∈ used e)
  then throw WidgetError
  else
    modify (set_used (used e ++ [id])) ;;;
    if L_map_accepts leaflet id options
    then ret (widget_on id options
                (if has_view options
                 then Some (L_map_view leaflet options)
                 else None))
    else throw WidgetError.

(** The widget with its tile layer. *)
Definition tileLayer_addTo (layer layerOptions : value) (w : Widget) : Widget :=
  {| container := container w; mapOptions := mapOptions w;
     tiles := Some (layer, layerOptions);
     viewport := viewport w; shown_layers := shown_layers w |}.

(** [L.tileLayer(layer, layerOptions).addTo(map)]. *)
Definition L_tileLayer_addTo (layer layerOptions : value) (w : Widget)
  : Eff Env Widget :=
  if L_tileLayer_accepts leaflet layer layerOptions w
  then ret (tileLayer_addTo layer layerOptions w)
  else throw WidgetError.

(** [options.center = c], reached on objects only. *)
Definition set_center (c : value) (options : value) : value :=
  match options with
  | VObj fs => VObj (assoc_set "center" c fs)
  | _ => options
  end.

(** [new LeafletMap({id, layer, height, options, layerOptions})].
    [whenReady] runs its callback at once on a map that has its view;
    on another map the callback waits for the widget, as do the
    listeners of [zoomend], [moveend] and [click]: [step] below delivers
    these. *)
Definition new_LeafletMap (id layer height options layerOptions : value)
  : Eff Env LeafletMap :=
  let* center := pure_outcome (get_prop options "center") in
  let* options' :=
    (if ToBoolean center
     then let* c := jsonToLatLng center in ret (set_center (latlng_value c) options)
     else ret options) in
  let* map := L_map ("leaflet-" +:+ ToString id) options' in
  match viewport map with
  | Some _ => sendMessage "r" "leaflet/onDidLoad" (VObj [("id", id)])
  | None => ret tt
  end ;;;
  let* map := L_tileLayer_addTo layer layerOptions map in
  ret {| _id := id;
         _queueGeoJSON := [];
         _lastGeoJSON := None;
         _markers := [];
         _debouncer := None;
         _map := map;
         _tooltip := {| display := "none"; innerHTML := VStr "" |};
         _legendDiv := VStr "Légende" |}.

Definition getId (s : LeafletMap) : value := _id s.

(** [layer.addTo(this._map)] and [layer.remove()], by layer identity. *)
Definition addLayer (uid : nat) : Eff Cell unit :=
  update_this (fun s =>
    let shown := shown_layers (_map s) in
    if decide (uid ∈ shown) then s else set_shown (shown ++ [uid]) s).

Definition removeLayer (uid : nat) : Eff Cell unit :=
  update_this (fun s =>
    set_shown (filter (fun u => u <> uid) (shown_layers (_map s))) s).

Definition fresh_uid : Eff Cell nat :=
  host (let* e := gets (fun e => e) in
        modify (set_next_uid (S (next_uid e))) ;;;
        ret (next_uid e)).

(** [onMapViewChange()]: restart the 200 ms wait. *)
Definition onMapViewChange (self : addr) : Eff Cell unit :=
  let* s := this in
  match _debouncer s with
  | Some t => host (clearTimeout t)
  | None => ret tt
  end ;;;
  let* t := host (setTimeout self 200) in
  update_this (set_debouncer (Some t)).

(** [sendChange()]: read the widget's viewport and report it. *)
Definition sendChange : Eff Cell unit :=
  let* s := this in
  match viewport (_map s) with
  | None => throw WidgetError
  | Some v =>
      host (sendMessage "r" "leaflet/onDidChangeView"
              (VObj [("id", _id s);
                     ("northLat", VNum (northLat v));
                     ("eastLng", VNum (eastLng v));
                     ("southLat", VNum (southLat v));
                     ("westLng", VNum (westLng v));
                     ("zoomLevel", VNum (zoomLevel v))]))
  end.

(** [addGeoJSON(id, points, tooltip, color)]. *)
Definition addGeoJSON (id points tooltip color : value) : Eff Cell unit :=
  update_this (fun s =>
    set_queueGeoJSON
      (_queueGeoJSON s ++
         [{| entry_points := points; entry_id := id;
             entry_tooltip := tooltip; entry_color := color |}]) s).

(** [Array.isArray(e.points[0][0])] under [try]/[catch]. *)
Definition isMultiple (points : value) : bool :=
  match outcome_bind (get_index0 points) get_index0 with
  | Ret v => isArray v
  | Throw _ => false
  end.

(** [v.map(f)]: only an array has the method. *)
Definition array_map (f : value -> value) (v : value) : Outcome value :=
  match v with
  | VArr l => Ret (VArr (map f l))
  | _ => Throw TypeError
  end.

(** The callback of [this._queueGeoJSON.map]. *)
Definition feature_of (e : ZoneEntry) : Outcome Feature :=
  let multiple := isMultiple (entry_points e) in
  outcome_bind
    (if multiple
     then array_map (fun p => VArr [p]) (entry_points e)
     else Ret (VArr [entry_points e]))
    (fun coords =>
       Ret {| prop_id := ToString (entry_id e);
              prop_color := entry_color e;
              prop_tooltip := entry_tooltip e;
              geometry_type := if multiple then MultiPolygon else Polygon;
              coordinates := coords |}).

(** The [style] callback given to [L.geoJson]. *)
Definition zone_style (f : Feature) : PathStyle :=
  {| fillColor := prop_color f; opacity := "1"; color := "white";
     dashArray := "3"; fillOpacity := "0.6"; weight := None |}.

(** [layer.setStyle({weight: 5, color: '#666', dashArray: '', fillOpacity: 0.7})]. *)
Definition highlight_style (st : PathStyle) : PathStyle :=
  {| fillColor := fillColor st; opacity := opacity st; color := "#666";
     dashArray := ""; fillOpacity := "0.7"; weight := Some "5" |}.

(** The layer [L.geoJson] builds from a collection: every feature
    becomes a feature layer styled by the [style] callback. *)
Definition rendered_layer (uid : nat) (finalGeo : FeatureCollection) : GeoJSONLayer :=
  {| layer_uid := uid;
     layer_features :=
       map (fun f => {| feature := f; style := zone_style f |}) finalGeo;
     paint_order := seq 0 (length finalGeo) |}.

(** [L.geoJson(finalGeo, {style, onEachFeature})]; [onEachFeature]
    gives every feature layer the three pointer listeners. *)
Definition L_geoJson (finalGeo : FeatureCollection) : Eff Cell GeoJSONLayer :=
  if L_geoJson_accepts finalGeo
  then let* uid := fresh_uid in ret (rendered_layer uid finalGeo)
  else throw WidgetError.

(** [drawGeoJSON(geojson)]; the parameter is not used. *)
Definition drawGeoJSON : Eff Cell unit :=
  let* s := this in
  match _lastGeoJSON s with
  | Some l => removeLayer (layer_uid l)
  | None => ret tt
  end ;;;
  let* q := gets (fun c => _queueGeoJSON (fst c)) in
  let* finalGeo := mapM (fun e => pure_outcome (feature_of e)) q in
  update_this (set_queueGeoJSON []) ;;;
  let* l := L_geoJson finalGeo in
  update_this (set_lastGeoJSON (Some l)) ;;;
  addLayer (layer_uid l).

Definition restyle (f : Feature -> PathStyle -> PathStyle) (i : nat)
  (l : GeoJSONLayer) : GeoJSONLayer :=
  {| layer_uid := layer_uid l;
     layer_features :=
       alter (fun fl => {| feature := feature fl; style := f (feature fl) (style fl) |})
             i (layer_features l);
     paint_order := paint_order l |}.

Definition bringToFront (i : nat) (l : GeoJSONLayer) : GeoJSONLayer :=
  {| layer_uid := layer_uid l;
     layer_features := layer_features l;
     paint_order := filter (fun j => j <> i) (paint_order l) ++ [i] |}.

(** [this._mapInfo.update(...)].  No statement of the class assigns
    [this._mapInfo] (the constructor keeps the information control in
    [this._tooltip]), so the member read on [undefined] raises. *)
Definition mapInfo_update : Eff Cell unit := throw TypeError.

(** [highlightFeature(e)], with [e.target] the [i]-th feature layer. *)
Definition highlightFeature (i : nat) : Eff Cell unit :=
  update_this (fun s =>
    set_lastGeoJSON
      (option_map (fun l => bringToFront i (restyle (fun _ => highlight_style) i l))
                  (_lastGeoJSON s)) s) ;;;
  mapInfo_update.

(** [resetHighlight(e)]: [resetStyle] puts the callback's style back. *)
Definition resetHighlight (i : nat) : Eff Cell unit :=
  let* s := this in
  match _lastGeoJSON s with
  | None => throw TypeError
  | Some l =>
      update_this (set_lastGeoJSON (Some (restyle (fun f _ => zone_style f) i l)))
  end ;;;
  mapInfo_update.

(** [zoomToFeature(e)]. *)
Definition zoomToFeature (i : nat) : Eff Cell unit :=
  let* s := this in
  match _lastGeoJSON s ≫= (fun l => layer_features l !! i) with
  | Some fl =>
      host (sendMessage "r" "onDidClickZone"
              (VObj [("id", _id s); ("zoneId", VStr (prop_id (feature fl)))]))
  | None => ret tt
  end.

(** [updateLegend(content)]. *)
Definition updateLegend (content : value) : Eff Cell unit :=
  update_this (set_legendDiv content).

(** [this._markerIcon]: no statement of the class assigns it. *)
Definition _markerIcon (s : LeafletMap) : value := VUndef.

(** [markers.forEach]: only an array has the method. *)
Definition array_elems (v : value) : Outcome (list value) :=
  match v with
  | VArr l => Ret l
  | _ => Throw TypeError
  end.

(** The callback of [markers.forEach]: build the marker, bind its
    popup, put it on the map, keep it.  [L.marker] raises on a position
    it cannot place.  [addTo] enters the marker in the layer table of
    the map and, on a map that has its view, goes on to draw it: the
    icon given, [undefined], has no [createIcon] to call. *)
Definition createMarker (m : value) : Eff Cell unit :=
  let* mlat := pure_outcome (get_prop m "lat") in
  let* mlng := pure_outcome (get_prop m "lng") in
  let* s := this in
  (if L_marker_accepts leaflet mlat mlng then ret tt else throw WidgetError) ;;;
  let* uid := fresh_uid in
  let* label := pure_outcome (get_prop m "label") in
  let newMarker :=
    {| marker_uid := uid; marker_lat := mlat; marker_lng := mlng;
       marker_icon := _markerIcon s; popup := label; popup_open := false |} in
  addLayer uid ;;;
  match viewport (_map s), marker_icon newMarker with
  | Some _, VUndef => throw TypeError
  | _, _ => ret tt
  end ;;;
  update_this (fun s => set_markers (_markers s ++ [newMarker]) s).

(** [updateMarkers(markers)]. *)
Definition updateMarkers (markers : value) : Eff Cell unit :=
  let* s := this in
  forEach (fun m => removeLayer (marker_uid m)) (_markers s) ;;;
  update_this (set_markers []) ;;;
  let* entries := pure_outcome (array_elems markers) in
  forEach createMarker entries.

Definition loadingShow : Eff Cell unit := ret tt.

Definition loadingHide : Eff Cell unit := ret tt.


(** ** The singleton [LeafletMapManager] *)

(** What [L.icon(options)] builds: an object holding its options. *)
Record Icon := { icon_options : value }.

(** [_maps] lists sessions by address.  [_icons] is an array used as a
    table: the properties set on it, keyed by property name. *)
Record Manager := {
  _currentStepCache : value;
  _maps : list addr;
  _icons : list (string * Icon);
}.

(** The state of the page: the manager, the [LeafletMap] objects alive,
    and the host. *)
Record World := { manager : Manager; heap : list LeafletMap; env : Env }.

Definition set_manager (m : Manager) (w : World) : World :=
  {| manager := m; heap := heap w; env := env w |}.

Definition set_heap (h : list LeafletMap) (w : World) : World :=
  {| manager := manager w; heap := h; env := env w |}.

Definition set_env (e : Env) (w : World) : World :=
  {| manager := manager w; heap := heap w; env := e |}.

Definition on_env {A} (c : Eff Env A) : Eff World A :=
  fun w => let (o, e') := c (env w) in (o, set_env e' w).

(** Run a method on the object at address [a].  Addresses come from the
    heap itself, so the object is there. *)
Definition invoke (a : addr) (m : Eff Cell unit) : Eff World unit :=
  fun w =>
    match heap w !! a with
    | Some s =>
        let '(o, (s', e')) := m (s, env w) in
        (o, {| manager := manager w; heap := <[a := s']> (heap w); env := e' |})
    | None => (Ret tt, w)
    end.

Fixpoint find_map (h : list LeafletMap) (mapId : value) (l : list addr)
  : option addr :=
  match l with
  | [] => None
  | a :: l' =>
      match h !! a with
      | Some s => if strict_eq (getId s) mapId then Some a else find_map h mapId l'
      | None => find_map h mapId l'
      end
  end.

(** [getMap(mapId)]: [this._maps.find(m => m.getId() === mapId)]. *)
Definition getMap (mapId : value) (w : World) : option addr :=
  find_map (heap w) mapId (_maps (manager w)).

(** The table with [i] under [k]. *)
Fixpoint icons_put (k : string) (i : Icon) (t : list (string * Icon))
  : list (string * Icon) :=
  match t with
  | [] => [(k, i)]
  | (k', i') :: t' =>
      if String.eqb k k' then (k, i) :: t' else (k', i') :: icons_put k i t'
  end.

(** [this._icons[iconId] = icon].  [_icons] is an array: its [length]
    takes numbers only, and the assignment of an object to it raises.
    Under [__proto__] the assignment gives the array a new prototype;
    the table holds it under that name, where [getIcon] looks for it. *)
Definition icons_set (k : string) (i : Icon) (t : list (string * Icon))
  : Outcome (list (string * Icon)) :=
  if String.eqb k "length" then Throw RangeError else Ret (icons_put k i t).

Fixpoint icons_get (k : string) (t : list (string * Icon)) : option Icon :=
  match t with
  | [] => None
  | (k', i) :: t' => if String.eqb k k' then Some i else icons_get k t'
  end.

(** A property name that is an array index: the decimal form, without
    leading zeros, of an integer below [2^32 - 1]. *)
Definition array_index (k : string) : option N :=
  match NilEmpty.uint_of_string k with
  | Some u =>
      let n := N.of_uint u in
      if String.eqb (pretty n) k && (n <? 4294967295)%N then Some n else None
  | None => None
  end.

(** The [length] of the array: one more than the largest index set. *)
Fixpoint icons_length (t : list (string * Icon)) : N :=
  match t with
  | [] => 0%N
  | (k, _) :: t' =>
      match array_index k with
      | Some n => N.max (N.succ n) (icons_length t')
      | None => icons_length t'
      end
  end.

(** [arr.find(m => m.id === iconId)] from index [k] on, [left] indices
    to go.  An index never set reads as [undefined], on which the
    member read [m.id] raises; an icon object has no [id], so there
    [m.id] is [undefined]. *)
Fixpoint find_icon (t : list (string * Icon)) (iconId : value) (k : N) (left : nat)
  : Outcome (option Icon) :=
  match left with
  | 0 => Ret None
  | S left' =>
      match icons_get (pretty k) t with
      | None => Throw TypeError
      | Some m =>
          if strict_eq VUndef iconId then Ret (Some m)
          else find_icon t iconId (N.succ k) left'
      end
  end.

(** [getIcon(iconId)].  No code of the module calls it.  An icon
    stored under ["find"] hides the method of that name, and one stored
    under ["__proto__"] becomes the prototype of the array, which has no
    such method: the call raises. *)
Definition getIcon (iconId : value) (m : Manager) : Outcome (option Icon) :=
  if bool_decide (is_Some (icons_get "find" (_icons m)))
     || bool_decide (is_Some (icons_get "__proto__" (_icons m)))
  then Throw TypeError
  else find_icon (_icons m) iconId 0%N (N.to_nat (icons_length (_icons m))).

(** A call of a method the class does not declare: the member reads as
    [undefined] and the call raises.  [LeafletMap] declares none of
    [setView], [setZoom], [fitBounds] and [flushGeoJSON]. *)
Definition not_a_function {S A} : Eff S A := throw TypeError.

(** The listener of ['didEnterStep']. *)
Definition didEnterStep (stepId : value) : Eff World unit :=
  on_env (debug "Sending onDidEnterStep...") ;;;
  modify (fun w =>
    set_manager {| _currentStepCache := stepId;
                   _maps := _maps (manager w);
                   _icons := _icons (manager w) |} w) ;;;
  on_env (sendMessage "r" "leaflet/onDidEnterStep" (VObj [("stepId", stepId)])).

(** The listener of ['didReceiveMessage']. *)
Definition didReceiveMessage (message : string) (data : value) : Eff World unit :=
  let* cache := gets (fun w => _currentStepCache (manager w)) in
  if String.eqb message "leaflet/enterStep" && negb (strict_eq cache VNull) then
    on_env (debug "Force to send onDidEnterStep...") ;;;
    on_env (sendMessage "r" "leaflet/onDidEnterStep" (VObj [("stepId", cache)]))
  else if String.eqb message "leaflet/icon/create" then
    let* iconId := pure_outcome (get_prop data "iconId") in
    let* options := pure_outcome (get_prop data "options") in
    let* icons := gets (fun w => _icons (manager w)) in
    let* icons' := pure_outcome
      (icons_set (ToString iconId) {| icon_options := options |} icons) in
    modify (fun w =>
      set_manager {| _currentStepCache := _currentStepCache (manager w);
                     _maps := _maps (manager w);
                     _icons := icons' |} w)
  else if String.eqb message "leaflet/initialize" then
    on_env (debug "Initializing a new map...") ;;;
    let* mapId := pure_outcome (get_prop data "mapId") in
    let* layer := pure_outcome (get_prop data "layer") in
    let* height := pure_outcome (get_prop data "height") in
    let* options := pure_outcome (get_prop data "options") in
    let* layerOptions := pure_outcome (get_prop data "layerOptions") in
    let* mapInstance := on_env (new_LeafletMap mapId layer height options layerOptions) in
    (* [mapInstance] is a constant of this branch; the object lives on
       through the listeners the constructor gave to its widget *)
    modify (fun w => set_heap (heap w ++ [mapInstance]) w)
  else
    let* mapId := pure_outcome (get_prop data "mapId") in
    let* mapInstance := gets (getMap mapId) in
    match mapInstance with
    | None => ret tt
    | Some a =>
        if String.eqb message "leaflet/map/view" then
          let* center := pure_outcome (get_prop data "center") in
          let* zoom := pure_outcome (get_prop data "zoom") in
          not_a_function
        else if String.eqb message "leaflet/map/zoom" then
          let* zoom := pure_outcome (get_prop data "zoom") in
          not_a_function
        else if String.eqb message "leaflet/map/fit" then
          let* bounds := pure_outcome (get_prop data "bounds") in
          not_a_function
        else if String.eqb message "leaflet/markers/update" then
          let* markers := pure_outcome (get_prop data "markers") in
          invoke a (updateMarkers markers)
        else if String.eqb message "leaflet/legend/update" then
          let* content := pure_outcome (get_prop data "content") in
          invoke a (updateLegend content)
        else if String.eqb message "leaflet/geojson/add" then
          let* zoneId := pure_outcome (get_prop data "zoneId") in
          let* points := pure_outcome (get_prop data "points") in
          let* tooltip := pure_outcome (get_prop data "tooltip") in
          let* color := pure_outcome (get_prop data "color") in
          invoke a (addGeoJSON zoneId points tooltip color)
        else if String.eqb message "leaflet/geojson/flush" then
          not_a_function
        else if String.eqb message "leaflet/loading/show" then
          invoke a loadingShow
        else if String.eqb message "leaflet/loading/false" then
          invoke a loadingHide
        else ret tt
    end.

(** ** The event loop *)

(** What the host and the widgets deliver to the module. *)
Inductive Event :=
| EnterStep (stepId : value)
| Receive (message : string) (data : value)
| WhenReady (a : addr)
| ViewChange (a : addr) (v : ViewState)
| MapClick (a : addr) (c : LatLng)
| FeatureMouseover (a : addr) (i : nat)
| FeatureMouseout (a : addr) (i : nat)
| FeatureClick (a : addr) (i : nat)
| MarkerMouseover (a : addr) (i : nat)
| Elapse (dt : nat).

(** The listener the constructor gives to [whenReady]. *)
Definition onReady : Eff Cell unit :=
  let* s := this in
  host (sendMessage "r" "leaflet/onDidLoad" (VObj [("id", _id s)])).

(** The listener the constructor gives to ['click']. *)
Definition onClick (c : LatLng) : Eff Cell unit :=
  let* s := this in
  host (sendMessage "r" "leaflet/onDidClickMap"
          (VObj [("id", _id s); ("lat", VNum (lat c)); ("lng", VNum (lng c))])).

(** The listener [updateMarkers] gives to a marker's ['mouseover']. *)
Definition openPopup (i : nat) : Eff Cell unit :=
  update_this (fun s =>
    set_markers
      (alter (fun m => {| marker_uid := marker_uid m; marker_lat := marker_lat m;
                          marker_lng := marker_lng m; marker_icon := marker_icon m;
                          popup := popup m; popup_open := true |}) i (_markers s)) s).

(** The widget has moved to viewport [v] and signals ['zoomend'] or
    ['moveend']. *)
Definition onViewChange (self : addr) (v : ViewState) : Eff Cell unit :=
  update_this (fun s => set_map (set_viewport (Some v) (_map s)) s) ;;;
  onMapViewChange self.

Definition errors_of {A} (o : Outcome A) : list JsError :=
  match o with
  | Ret _ => []
  | Throw e => [e]
  end.

(** Fire the timers in the given order; an exception in one callback
    goes to the host and does not stop the next. *)
Fixpoint fire_all (ts : list Timer) (w : World) : list JsError * World :=
  match ts with
  | [] => ([], w)
  | t :: ts' =>
      let (o, w1) := invoke (timer_this t) sendChange
                       (set_env (set_now (due t) (env w)) w) in
      let (errs, w2) := fire_all ts' w1 in
      ((errors_of o ++ errs)%list, w2)
  end.

(** [dt] milliseconds pass: the timers due by then fire, in queue order. *)
Definition elapse (dt : nat) (w : World) : list JsError * World :=
  let deadline := now (env w) + dt in
  let ripe := filter (fun t => due t <= deadline) (timers (env w)) in
  let rest := filter (fun t => ~ due t <= deadline) (timers (env w)) in
  let (errs, w') := fire_all ripe (set_env (set_timers rest (env w)) w) in
  (errs, set_env (set_now deadline (env w')) w').

Definition handled (r : Outcome unit * World) : list JsError * World :=
  (errors_of (fst r), snd r).

(** One turn of the event loop: the uncaught errors and the next state. *)
Definition step (ev : Event) (w : World) : list JsError * World :=
  match ev with
  | EnterStep stepId => handled (didEnterStep stepId w)
  | Receive message data => handled (didReceiveMessage message data w)
  | WhenReady a => handled (invoke a onReady w)
  | ViewChange a v => handled (invoke a (onViewChange a v) w)
  | MapClick a c => handled (invoke a (onClick c) w)
  | FeatureMouseover a i => handled (invoke a (highlightFeature i) w)
  | FeatureMouseout a i => handled (invoke a (resetHighlight i) w)
  | FeatureClick a i => handled (invoke a (zoomToFeature i) w)
  | MarkerMouseover a i => handled (invoke a (openPopup i) w)
  | Elapse dt => elapse dt w
  end.

Fixpoint run (evs : list Event) (w : World) : World :=
  match evs with
  | [] => w
  | ev :: evs' => run evs' (snd (step ev w))
  end.

(** The page when the module has been loaded: the constructor of the
    manager has run and [initialize()] has installed the two listeners. *)
Definition initial_world : World :=
  {| manager := {| _currentStepCache := VNull; _maps := []; _icons := [] |};
     heap := [];
     env := {| outbox := []; console := []; reported := []; now := 0;
               timers := []; next_timer := 0; next_uid := 0; used := [] |} |}.


(** ** Message tags *)

(** The tags the listener dispatches to a session. *)
Definition map_scoped_tags : list string :=
  ["leaflet/map/view"; "leaflet/map/zoom"; "leaflet/map/fit";
   "leaflet/markers/update"; "leaflet/legend/update"; "leaflet/geojson/add";
   "leaflet/geojson/flush"; "leaflet/loading/show"; "leaflet/loading/false"].

(** All the tags the listener compares with. *)
Definition recognized_tags : list string :=
  "leaflet/enterStep" :: "leaflet/icon/create" :: "leaflet/initialize"
  :: map_scoped_tags.

(** The envelope names no registered session: reading [data.mapId]
    raises, or [getMap] finds nothing under it. *)
Definition unregistered (data : value) (w : World) : Prop :=
  forall mapId, get_prop data "mapId" = Ret mapId -> getMap mapId w = None.


(** ** Notions used in the statements *)

(** [l.map(f)] for a callback without effects on the state. *)
Fixpoint collect {A B} (f : A -> Outcome B) (l : list A) : Outcome (list B) :=
  match l with
  | [] => Ret []
  | x :: l' =>
      outcome_bind (f x) (fun y =>
      outcome_bind (collect f l') (fun ys => Ret (y :: ys)))
  end.

(** The session once its current GeoJSON layer is taken off the map. *)
Definition without_last (s : LeafletMap) : LeafletMap :=
  match _lastGeoJSON s with
  | Some l => set_shown (filter (fun u => u <> layer_uid l) (shown_layers (_map s))) s
  | None => s
  end.

(** A coordinate pair [[x, y]]. *)
Definition coordinate_pair (v : value) : bool :=
  match v with
  | VArr [VNum _; VNum _] => true
  | _ => false
  end.

(** A sequence of coordinate pairs, possibly empty. *)
Definition coordinate_sequence (v : value) : bool :=
  match v with
  | VArr ps => forallb coordinate_pair ps
  | _ => false
  end.


(** A sequence of coordinate sequences whose first element is a
    sequence of coordinate pairs. *)
Definition nested_points (v : value) : bool :=
  match v with
  | VArr (r :: rs) => forallb coordinate_sequence (r :: rs)
  | _ => false
  end.

(** The first coordinate sequence has a first pair. *)
Definition first_sequence_nonempty (v : value) : bool :=
  match v with
  | VArr (VArr (_ :: _) :: _) => true
  | _ => false
  end.

(** [v.map(p => [p])] on the elements of an array. *)
Definition wrap_each (v : value) : value :=
  match v with
  | VArr l => VArr (map (fun p => VArr [p]) l)
  | _ => v
  end.

(** The features a layer was rendered from. *)
Definition features_of (l : GeoJSONLayer) : FeatureCollection :=
  map feature (layer_features l).

(** The session a constructor call leaves for [mapId], with no centre
    in its options. *)
Definition fresh_session (mapId : string) : LeafletMap :=
  {| _id := VStr mapId;
     _queueGeoJSON := [];
     _lastGeoJSON := None;
     _markers := [];
     _debouncer := None;
     _map := tileLayer_addTo (VStr "tiles") (VObj [])
               (widget_on ("leaflet-" +:+ mapId) (VObj []) None);
     _tooltip := {| display := "none"; innerHTML := VStr "" |};
     _legendDiv := VStr "Légende" |}.

(** The ring [[[a,a],[a,b],[b,b]]] of the shape examples. *)
Definition triangle (a b : number) : value :=
  VArr [VArr [VNum a; VNum a]; VArr [VNum a; VNum b]; VArr [VNum b; VNum b]].

(** A marker entry: a value whose properties can be read. *)
Definition readable (v : value) : bool :=
  match v with
  | VUndef | VNull => false
  | _ => true
  end.

(** [m.k] for a readable [m]. *)
Definition prop_of (m : value) (k : string) : value :=
  match get_prop m k with
  | Ret v => v
  | Throw _ => VUndef
  end.

(** A marker entry the library can place: its properties can be read
    and [L.marker] takes its position. *)
Definition placeable (m : value) : bool :=
  readable m && L_marker_accepts leaflet (prop_of m "lat") (prop_of m "lng").

(** The markers a replacement builds, identities from [uid] on. *)
Fixpoint new_markers (uid : nat) (entries : list value) : list Marker :=
  match entries with
  | [] => []
  | m :: rest =>
      {| marker_uid := uid; marker_lat := prop_of m "lat";
         marker_lng := prop_of m "lng"; marker_icon := VUndef;
         popup := prop_of m "label"; popup_open := false |}
      :: new_markers (S uid) rest
  end.

(** The markers on the session's map: its layers but the GeoJSON one. *)
Definition marker_layers (s : LeafletMap) : list nat :=
  filter (fun u => Some u <> (layer_uid <$> _lastGeoJSON s)) (shown_layers (_map s)).

(** What holds of a session between two calls: the markers on its map
    are the ones it keeps in [_markers], and the objects it knows were
    made before now. *)
Definition tidy (c : Cell) : Prop :=
  marker_layers (fst c) = map marker_uid (_markers (fst c))
  /\ Forall (fun u => u < next_uid (snd c)) (shown_layers (_map (fst c)))
  /\ forall l, _lastGeoJSON (fst c) = Some l -> layer_uid l < next_uid (snd c).

(** An object with a numeric [lat] and a numeric [lng]. *)
Definition well_formed (obj : value) : bool :=
  match obj with
  | VObj fs =>
      match assoc "lat" fs, assoc "lng" fs with
      | Some (VNum _), Some (VNum _) => true
      | _, _ => false
      end
  | _ => false
  end.

(** The worlds an event sequence goes through, the first one included. *)
Fixpoint trajectory (evs : list Event) (w : World) : list World :=
  w :: match evs with
       | [] => []
       | ev :: evs' => trajectory evs' (snd (step ev w))
       end.

(** View changes that follow a first one on the session at [a]: each
    comes [d] milliseconds after the one before and leaves the widget at
    viewport [v]. *)
Fixpoint burst (a : addr) (changes : list (nat * ViewState)) : list Event :=
  match changes with
  | [] => []
  | (d, v) :: rest => Elapse d :: ViewChange a v :: burst a rest
  end.

Definition spaced_below (delay : nat) (changes : list (nat * ViewState)) : bool :=
  forallb (fun c => Nat.ltb (fst c) delay) changes.

(** The viewport after the last change of a burst that began at [v0]. *)
Definition final_view (v0 : ViewState) (changes : list (nat * ViewState)) : ViewState :=
  List.last (map snd changes) v0.

(** The [onDidChangeView] message for viewport [v] of session [id]. *)
Definition view_message (id : value) (v : ViewState) : Message :=
  {| target := "r"; tag := "leaflet/onDidChangeView";
     payload := VObj [("id", id);
                      ("northLat", VNum (northLat v));
                      ("eastLng", VNum (eastLng v));
                      ("southLat", VNum (southLat v));
                      ("westLng", VNum (westLng v));
                      ("zoomLevel", VNum (zoomLevel v))] |}.

(** The session at [a] waits on one timer, set just now, and nothing
    else is pending; the widget is at [v] and the controller has been
    sent [out]. *)
Definition armed (a : addr) (id : value) (v : ViewState) (out : list Message)
  (w : World) : Prop :=
  exists s tid,
    heap w !! a = Some s
    /\ _id s = id
    /\ viewport (_map s) = Some v
    /\ _debouncer s = Some tid
    /\ timers (env w)
       = [{| timer_id := tid; due := now (env w) + 200; timer_this := a |}]
    /\ outbox (env w) = out.

(** The calls a session receives: its methods, and the listeners it
    gave to its widget. *)
Inductive Call :=
| Call_onViewChange (self : addr) (v : ViewState)
| Call_sendChange
| Call_addGeoJSON (id points tooltip color : value)
| Call_drawGeoJSON
| Call_highlightFeature (i : nat)
| Call_resetHighlight (i : nat)
| Call_zoomToFeature (i : nat)
| Call_updateLegend (content : value)
| Call_updateMarkers (markers : value)
| Call_loadingShow
| Call_loadingHide
| Call_onReady
| Call_onClick (c : LatLng)
| Call_openPopup (i : nat).

Definition perform (call : Call) : Eff Cell unit :=
  match call with
  | Call_onViewChange self v => onViewChange self v
  | Call_sendChange => sendChange
  | Call_addGeoJSON id points tooltip color => addGeoJSON id points tooltip color
  | Call_drawGeoJSON => drawGeoJSON
  | Call_highlightFeature i => highlightFeature i
  | Call_resetHighlight i => resetHighlight i
  | Call_zoomToFeature i => zoomToFeature i
  | Call_updateLegend content => updateLegend content
  | Call_updateMarkers markers => updateMarkers markers
  | Call_loadingShow => loadingShow
  | Call_loadingHide => loadingHide
  | Call_onReady => onReady
  | Call_onClick c => onClick c
  | Call_openPopup i => openPopup i
  end.

(** *** Example data *)

(** A page that holds every container, with a library that takes every
    option and tile layer, places the markers whose [lat] and [lng] are
    numbers, and shows the same view whenever the options give one. *)
Definition page (n : number) : Library :=
  plain_library {| northLat := n; eastLng := n; southLat := n; westLng := n;
                   zoomLevel := n |}.

(** A zone entry with the tooltip and colour of the shape examples. *)
Definition zone (id points : value) : ZoneEntry :=
  {| entry_points := points; entry_id := id;
     entry_tooltip := VStr "t"; entry_color := VStr "red" |}.

(** A page on which the session ["m1"] is registered, with one zone in
    its queue, and the icon ["pin"] installed.  The listener never
    builds such a page: it is written down to exercise the dispatch. *)
Definition registered_world : World :=
  {| manager :=
       {| _currentStepCache := VNull;
          _maps := [0];
          _icons := [("pin", {| icon_options := VObj [("iconUrl", VStr "pin.png")] |})] |};
     heap := [set_queueGeoJSON [zone (VStr "z1") (VArr [])] (fresh_session "m1")];
     env := {| outbox := []; console := []; reported := []; now := 0;
               timers := []; next_timer := 0; next_uid := 0;
               used := ["leaflet-m1"] |} |}.

(** A marker entry [{lat, lng, label, icon}]. *)
Definition marker_entry (mlat mlng : value) (label icon : string) : value :=
  VObj [("lat", mlat); ("lng", mlng); ("label", VStr label); ("icon", VStr icon)].

(** The session ["m1"] after a replacement with two marker entries. *)
Definition session_with_two_markers : LeafletMap :=
  set_markers
    (new_markers 0 [marker_entry (VStr "48.1") (VStr "2.1") "a" "pin";
                    marker_entry (VStr "48.2") (VStr "2.2") "b" "pin"])
    (set_shown [0; 1] (fresh_session "m1")).

Definition empty_env : Env :=
  {| outbox := []; console := []; reported := []; now := 0;
     timers := []; next_timer := 0; next_uid := 0; used := [] |}.

(** ** Notions used in the further properties *)

(** A computation keeps [P]: [P] holds of the state it leaves, however
    it ends, whenever it held of the state it found. *)
Definition preserves {S A} (P : S -> Prop) (m : Eff S A) : Prop :=
  forall c, P c -> P (snd (m c)).

(** No step is entered during [evs]. *)
Definition no_step_entry (evs : list Event) : bool :=
  forallb (fun ev => match ev with EnterStep _ => false | _ => true end) evs.

(** The [onDidEnterStep] message for [stepId]. *)
Definition step_message (stepId : value) : Message :=
  {| target := "r"; tag := "leaflet/onDidEnterStep";
     payload := VObj [("stepId", stepId)] |}.

(** A value that [===] can find equal to another: not an array, not an
    object. *)
Definition primitive (v : value) : bool :=
  match v with
  | VArr _ | VObj _ => false
  | _ => true
  end.

(** The session at [a] carries an id strictly equal to [mapId]. *)
Definition matches (h : list LeafletMap) (mapId : value) (a : addr) : bool :=
  match h !! a with
  | Some s => strict_eq (getId s) mapId
  | None => false
  end.

(** The centre given in the options of [leaflet/initialize] can be
    used: there is none (a falsy value), or it is well formed. *)
Definition centre_usable (options : value) : bool :=
  negb (ToBoolean (prop_of options "center"))
  || well_formed (prop_of options "center").

(** The feature [drawGeoJSON] writes for an entry whose [points] is an
    array. *)
Definition feature_of_sequence (e : ZoneEntry) : Feature :=
  {| prop_id := ToString (entry_id e);
     prop_color := entry_color e;
     prop_tooltip := entry_tooltip e;
     geometry_type := if isMultiple (entry_points e) then MultiPolygon else Polygon;
     coordinates := if isMultiple (entry_points e)
                    then wrap_each (entry_points e)
                    else VArr [entry_points e] |}.

(** One [addGeoJSON] per entry, in order. *)
Definition add_all (zs : list ZoneEntry) : Eff Cell unit :=
  forEach (fun z => addGeoJSON (entry_id z) (entry_points z)
                      (entry_tooltip z) (entry_color z)) zs.

(** Calls received one after the other by one session. *)
Fixpoint perform_all (calls : list Call) (c : Cell) : Cell :=
  match calls with
  | [] => c
  | call :: rest => perform_all rest (snd (perform call c))
  end.

(** Bursts of view changes on the session at [a]: a first change, the
    changes that follow it, and then a quiet time. *)
Definition Burst : Type := ViewState * list (nat * ViewState) * nat.

Definition burst_events (a : addr) (b : Burst) : list Event :=
  match b with
  | (v0, changes, quiet) => ViewChange a v0 :: burst a changes ++ [Elapse quiet]
  end.

Definition burst_ok (b : Burst) : bool :=
  match b with
  | (_, changes, quiet) => spaced_below 200 changes && Nat.leb 200 quiet
  end.

Definition burst_view (b : Burst) : ViewState :=
  match b with
  | (v0, changes, _) => final_view v0 changes
  end.

(** The session the constructor returns when [options] are the options
    it hands to the widget. *)
Definition constructed (id layer layerOptions options : value) : LeafletMap :=
  {| _id := id;
     _queueGeoJSON := [];
     _lastGeoJSON := None;
     _markers := [];
     _debouncer := None;
     _map := tileLayer_addTo layer layerOptions
               (widget_on ("leaflet-" +:+ ToString id) options
                  (if has_view options
                   then Some (L_map_view leaflet options)
                   else None));
     _tooltip := {| display := "none"; innerHTML := VStr "" |};
     _legendDiv := VStr "Légende" |}.

(** The two halves of the constructor: the conversion of the centre,
    and what follows it from [L.map] on. *)
Definition convert_center (options : value) : Eff Env value :=
  let* center := pure_outcome (get_prop options "center") in
  if ToBoolean center
  then let* c := jsonToLatLng center in ret (set_center (latlng_value c) options)
  else ret options.

Definition finish_LeafletMap (id layer layerOptions options' : value)
  : Eff Env LeafletMap :=
  let* map := L_map ("leaflet-" +:+ ToString id) options' in
  match viewport map with
  | Some _ => sendMessage "r" "leaflet/onDidLoad" (VObj [("id", id)])
  | None => ret tt
  end ;;;
  let* map := L_tileLayer_addTo layer layerOptions map in
  ret {| _id := id;
         _queueGeoJSON := [];
         _lastGeoJSON := None;
         _markers := [];
         _debouncer := None;
         _map := map;
         _tooltip := {| display := "none"; innerHTML := VStr "" |};
         _legendDiv := VStr "Légende" |}.

(** The [leaflet/onDidLoad] message of the session [id]. *)
Definition load_message (id : value) : Message :=
  {| target := "r"; tag := "leaflet/onDidLoad"; payload := VObj [("id", id)] |}.





(** The legend after [calls], when it read [legend] before them. *)
Definition legend_after (calls : list Call) (legend : value) : value :=
  fold_left (fun shown call =>
               match call with
               | Call_updateLegend content => content
               | _ => shown
               end) calls legend.

(** The tags of the messages the module sends. *)
Definition outbound_tags : list string :=
  ["leaflet/onDidEnterStep"; "leaflet/onDidLoad"; "leaflet/onDidClickMap";
   "leaflet/onDidChangeView"; "onDidClickZone"].

(** The controller had been sent [o]; since then it has been sent
    messages addressed to ["r"] under the module's tags, and [o] is
    still there before them. *)
Definition sent_since (o : list Message) (e : Env) : Prop :=
  exists new,
    outbox e = o ++ new
    /\ Forall (fun m => target m = "r" /\ tag m ∈ outbound_tags) new.

(** The pending timers are owned: each was set by the session it will
    call, which still waits on it, and no two of them share an id. *)
Definition timers_owned (w : World) : Prop :=
  (forall t, t ∈ timers (env w) ->
     timer_id t < next_timer (env w)
     /\ exists s, heap w !! timer_this t = Some s
                  /\ _debouncer s = Some (timer_id t))
  /\ NoDup (map timer_id (timers (env w))).

(** The timers pending for the session at [a]. *)
Definition pending_for (a : addr) (w : World) : list Timer :=
  filter (fun t => timer_this t = a) (timers (env w)).

(** A page on which two sessions were registered under the same id. *)
Definition duplicate_ids_world : World :=
  {| manager := {| _currentStepCache := VNull; _maps := [0; 1]; _icons := [] |};
     heap := [fresh_session "m1"; set_legendDiv (VStr "second") (fresh_session "m1")];
     env := {| outbox := []; console := []; reported := []; now := 0;
               timers := []; next_timer := 0; next_uid := 0;
               used := ["leaflet-m1"] |} |}.

(** A page with two registered sessions, ["m1"] and ["m2"]. *)
Definition two_sessions_world : World :=
  {| manager := {| _currentStepCache := VNull; _maps := [0; 1]; _icons := [] |};
     heap := [fresh_session "m1"; fresh_session "m2"];
     env := {| outbox := []; console := []; reported := []; now := 0;
               timers := []; next_timer := 0; next_uid := 0;
               used := ["leaflet-m1"; "leaflet-m2"] |} |}.

(** * Properties *)

(** ** Properties of the dispatch *)

Lemma eqb_not_elem (message t : string) (l : list string) :
  message ∉ l -> t ∈ l -> String.eqb message t = false.
Proof.
  intros Hn Ht. apply String.eqb_neq. intros ->. contradiction.
Qed.

Lemma find_map_Some h mapId l a :
  find_map h mapId l = Some a -> exists s, h !! a = Some s /\ strict_eq (getId s) mapId = true.
Proof.
  induction l as [|b l IH]; simpl; [discriminate|].
  destruct (h !! b) as [s|] eqn:Hb; [|exact IH].
  destruct (strict_eq (getId s) mapId) eqn:He; [|exact IH].
  intros [= <-]. eauto.
Qed.

Lemma invoke_noop a (m : Eff Cell unit) w :
  (forall c, m c = (Ret tt, c)) -> invoke a m w = (Ret tt, w).
Proof.
  intros Hm. unfold invoke. destruct (heap w !! a) as [s|] eqn:Ha; [|reflexivity].
  rewrite Hm. f_equal. destruct w as [mg h e]; simpl in *.
  f_equal. apply list_insert_id. exact Ha.
Qed.

(** An envelope with a tag outside the three global ones, naming no
    registered session, changes nothing. *)
Lemma didReceiveMessage_unregistered w message data :
  String.eqb message "leaflet/enterStep" = false ->
  String.eqb message "leaflet/icon/create" = false ->
  String.eqb message "leaflet/initialize" = false ->
  unregistered data w ->
  snd (didReceiveMessage message data w) = w.
Proof.
  intros H1 H2 H3 Hu. unfold didReceiveMessage, bind, gets, pure_outcome, ret.
  rewrite H1, H2, H3. simpl.
  destruct (get_prop data "mapId") as [mapId|e] eqn:Hg; [|reflexivity].
  rewrite (Hu mapId Hg). reflexivity.
Qed.

(** An envelope with an unknown tag changes nothing, registered session
    or not. *)
Lemma didReceiveMessage_unrecognized w message data :
  message ∉ recognized_tags ->
  snd (didReceiveMessage message data w) = w.
Proof.
  intros Hn.
  assert (Hf : forall t, t ∈ recognized_tags -> String.eqb message t = false)
    by (intros t; apply eqb_not_elem; exact Hn).
  unfold didReceiveMessage, bind, gets, pure_outcome, ret.
  rewrite !Hf by (unfold recognized_tags, map_scoped_tags; repeat constructor).
  simpl.
  destruct (get_prop data "mapId") as [mapId|e]; [|reflexivity].
  destruct (getMap mapId w); reflexivity.
Qed.

Lemma map_scoped_not_global message :
  message ∈ map_scoped_tags ->
  String.eqb message "leaflet/enterStep" = false /\
  String.eqb message "leaflet/icon/create" = false /\
  String.eqb message "leaflet/initialize" = false.
Proof.
  unfold map_scoped_tags. intros Hm.
  repeat (apply elem_of_cons in Hm as [->|Hm]; [repeat split; reflexivity|]).
  inversion Hm.
Qed.

(** C9. An envelope whose tag the module does not recognize, and a
    map-scoped envelope whose [mapId] has no registered session, leave
    the whole state as it was: the registry, every session, and the
    messages sent to the controller. *)
Theorem C9_unknown_tag_or_map_is_dropped (w : World) (message : string) (data : value) :
  message ∉ recognized_tags \/ (message ∈ map_scoped_tags /\ unregistered data w) ->
  snd (didReceiveMessage message data w) = w.
Proof.
  intros [Hn|[Hm Hu]].
  - apply didReceiveMessage_unrecognized, Hn.
  - destruct (map_scoped_not_global message Hm) as (H1 & H2 & H3).
    apply didReceiveMessage_unregistered; assumption.
Qed.


(** *** The registry is never written *)

Lemma invoke_manager a (m : Eff Cell unit) w :
  manager (snd (invoke a m w)) = manager w.
Proof.
  unfold invoke. destruct (heap w !! a) as [s|]; [|reflexivity].
  destruct (m (s, env w)) as [o [s' e']]. reflexivity.
Qed.

Lemma didReceiveMessage_maps message data w :
  _maps (manager (snd (didReceiveMessage message data w))) = _maps (manager w).
Proof.
  unfold didReceiveMessage, bind, gets, pure_outcome, ret, modify, not_a_function, throw.
  destruct (String.eqb message "leaflet/enterStep"
            && negb (strict_eq (_currentStepCache (manager w)) VNull)).
  { unfold on_env, debug, sendMessage, modify. reflexivity. }
  destruct (String.eqb message "leaflet/icon/create").
  { destruct (get_prop data "iconId"); [|reflexivity].
    destruct (get_prop data "options"); [|reflexivity].
    destruct (icons_set _ _ _); reflexivity. }
  destruct (String.eqb message "leaflet/initialize").
  { unfold on_env at 1. unfold debug, modify. simpl.
    destruct (get_prop data "mapId"); [|reflexivity].
    destruct (get_prop data "layer"); [|reflexivity].
    destruct (get_prop data "height"); [|reflexivity].
    destruct (get_prop data "options"); [|reflexivity].
    destruct (get_prop data "layerOptions"); [|reflexivity].
    unfold on_env. simpl.
    destruct (new_LeafletMap _ _ _ _ _ _) as [[s|e] e']; reflexivity. }
  destruct (get_prop data "mapId") as [mapId|]; [|reflexivity].
  destruct (getMap mapId w) as [a|]; [|reflexivity].
  repeat match goal with
  | |- context [if String.eqb message ?t then _ else _] =>
      destruct (String.eqb message t)
  | |- context [match get_prop data ?k with _ => _ end] =>
      destruct (get_prop data k)
  | |- context [invoke ?a ?m ?w] => apply (f_equal _maps (invoke_manager a m w))
  | |- _ => reflexivity
  end.
Qed.

Lemma fire_all_manager ts w : manager (snd (fire_all ts w)) = manager w.
Proof.
  revert w. induction ts as [|t ts IH]; intros w; simpl; [reflexivity|].
  destruct (invoke _ _ _) as [o w1] eqn:Hi.
  destruct (fire_all ts w1) as [errs w2] eqn:Hf. simpl.
  change w2 with (snd (errs, w2)). rewrite <- Hf, IH.
  change w1 with (snd (o, w1)). rewrite <- Hi, invoke_manager. reflexivity.
Qed.

Lemma step_maps ev w : _maps (manager (snd (step ev w))) = _maps (manager w).
Proof.
  destruct ev; simpl;
    try (unfold handled; simpl; rewrite invoke_manager; reflexivity).
  - unfold didEnterStep, bind, on_env, debug, sendMessage, modify. reflexivity.
  - apply didReceiveMessage_maps.
  - unfold elapse. destruct (fire_all _ _) as [errs w'] eqn:Hf. simpl.
    change w' with (snd (errs, w')). rewrite <- Hf, fire_all_manager. reflexivity.
Qed.

Lemma run_maps evs w : _maps (manager (run evs w)) = _maps (manager w).
Proof.
  revert w. induction evs as [|ev evs IH]; intros w; simpl; [reflexivity|].
  rewrite IH. apply step_maps.
Qed.

Lemma getMap_empty mapId w : _maps (manager w) = [] -> getMap mapId w = None.
Proof. unfold getMap. intros ->. reflexivity. Qed.

(** What a constructor call that returns has made. *)
Lemma new_LeafletMap_fresh id layer height options layerOptions e s e' :
  new_LeafletMap id layer height options layerOptions e = (Ret s, e') ->
  exists m,
    s = {| _id := id; _queueGeoJSON := []; _lastGeoJSON := None; _markers := [];
           _debouncer := None; _map := m;
           _tooltip := {| display := "none"; innerHTML := VStr "" |};
           _legendDiv := VStr "Légende" |}
    /\ shown_layers m = [].
Proof.
  unfold new_LeafletMap, bind, pure_outcome, ret.
  destruct (get_prop options "center") as [center|]; [|discriminate].
  assert (Hk : forall o e0,
             match L_map ("leaflet-" +:+ ToString id) o e0 with
             | (Ret map, e1) =>
                 match
                   match viewport map with
                   | Some _ => sendMessage "r" "leaflet/onDidLoad" (VObj [("id", id)])
                   | None => fun s0 => (Ret tt, s0)
                   end e1
                 with
                 | (Ret _, e2) =>
                     match L_tileLayer_addTo layer layerOptions map e2 with
                     | (Ret map', e3) =>
                         (Ret {| _id := id; _queueGeoJSON := []; _lastGeoJSON := None;
                                 _markers := []; _debouncer := None; _map := map';
                                 _tooltip := {| display := "none"; innerHTML := VStr "" |};
                                 _legendDiv := VStr "Légende" |}, e3)
                     | (Throw err, e3) => (Throw err, e3)
                     end
                 | (Throw err, e2) => (Throw err, e2)
                 end
             | (Throw err, e1) => (Throw err, e1)
             end = (Ret s, e') ->
             exists m,
               s = {| _id := id; _queueGeoJSON := []; _lastGeoJSON := None;
                      _markers := []; _debouncer := None; _map := m;
                      _tooltip := {| display := "none"; innerHTML := VStr "" |};
                      _legendDiv := VStr "Légende" |}
               /\ shown_layers m = []).
  { intros o e0. unfold L_map, L_tileLayer_addTo, bind, gets, modify, throw, ret,
      sendMessage, modify. simpl.
    destruct (negb (in_page leaflet _) || bool_decide _); [discriminate|].
    destruct (L_map_accepts leaflet _ o); [|discriminate]. simpl.
    destruct (has_view o); simpl;
      (destruct (L_tileLayer_accepts leaflet layer layerOptions _); [|discriminate];
       intros [= <- _]; eexists; split; reflexivity). }
  destruct (ToBoolean center).
  - destruct (jsonToLatLng center e) as [[c|] e1]; [|discriminate]. apply Hk.
  - apply Hk.
Qed.

(** When the constructor returns, [leaflet/initialize] has made one more
    [LeafletMap] object, carrying the envelope's [mapId]; the registry
    is as before. *)
Lemma initialize_creates_session data w w' :
  didReceiveMessage "leaflet/initialize" data w = (Ret tt, w') ->
  exists s, heap w' = heap w ++ [s] /\ get_prop data "mapId" = Ret (_id s)
            /\ manager w' = manager w.
Proof.
  unfold didReceiveMessage, bind, gets, pure_outcome, ret, modify. simpl.
  unfold on_env at 1. unfold debug, modify. simpl.
  destruct (get_prop data "mapId") as [mapId|]; [|discriminate].
  destruct (get_prop data "layer") as [layer|]; [|discriminate].
  destruct (get_prop data "height") as [height|]; [|discriminate].
  destruct (get_prop data "options") as [options|]; [|discriminate].
  destruct (get_prop data "layerOptions") as [layerOptions|]; [|discriminate].
  unfold on_env. simpl.
  destruct (new_LeafletMap _ _ _ _ _ _) as [[s|e] e'] eqn:Hn; [|discriminate].
  intros [= <-]. exists s. simpl. repeat split.
  destruct (new_LeafletMap_fresh _ _ _ _ _ _ _ _ Hn) as (m & -> & _). reflexivity.
Qed.

(** C1. Whatever happened before, once a [leaflet/initialize] envelope
    has been handled the registry is still empty: no [mapId] is found
    by [getMap], and an envelope with any of the nine map-scoped tags is
    dropped, leaving the state as it was.  The session the envelope
    asked for exists, but no later envelope reaches it. *)
Theorem C1_initialize_registers_nothing (evs : list Event) (data : value) :
  let w := run (evs ++ [Receive "leaflet/initialize" data]) initial_world in
  _maps (manager w) = []
  /\ (forall mapId, getMap mapId w = None)
  /\ Forall (fun t => forall payload, snd (step (Receive t payload) w) = w)
            map_scoped_tags.
Proof.
  intros w.
  assert (Hm : _maps (manager w) = []) by (unfold w; rewrite run_maps; reflexivity).
  split; [exact Hm|]. split; [intros; apply getMap_empty, Hm|].
  apply Forall_forall. intros t Ht payload. simpl.
  destruct (map_scoped_not_global t Ht) as (H1 & H2 & H3).
  apply didReceiveMessage_unregistered; try assumption.
  intros mapId _. apply getMap_empty, Hm.
Qed.


(** *** Envelopes for a registered session *)

Lemma getMap_Some mapId w a :
  getMap mapId w = Some a ->
  exists s, heap w !! a = Some s /\ strict_eq (getId s) mapId = true.
Proof. apply find_map_Some. Qed.

(** Were a session registered, three more of the map-scoped envelopes
    would not reach it: the class declares no [setView], [setZoom] or
    [fitBounds]. *)
Lemma viewport_envelopes_raise (w : World) (data mapId : value) (a : addr) :
  get_prop data "mapId" = Ret mapId ->
  getMap mapId w = Some a ->
  Forall (fun message => didReceiveMessage message data w = (Throw TypeError, w))
         ["leaflet/map/view"; "leaflet/map/zoom"; "leaflet/map/fit"].
Proof.
  intros Hd Hg.
  assert (Hp : forall k, exists v, get_prop data k = Ret v)
    by (intros k; destruct data; try discriminate; simpl; eauto).
  constructor; [|constructor; [|constructor; [|constructor]]];
    unfold didReceiveMessage, bind, gets, pure_outcome, ret, not_a_function, throw;
    simpl; rewrite Hd, Hg.
  - destruct (Hp "center") as [c ->]. destruct (Hp "zoom") as [z ->]. reflexivity.
  - destruct (Hp "zoom") as [z ->]. reflexivity.
  - destruct (Hp "bounds") as [b ->]. reflexivity.
Qed.

(** C2. The listener answers [leaflet/geojson/flush] by calling
    [flushGeoJSON], which the class does not declare.  So the envelope
    never changes the state, on any page: no collection is built,
    nothing is rendered, no queue is emptied.  For a registered session
    the call raises [TypeError]. *)
Theorem C2_flush_envelope_raises (w : World) (data : value) :
  snd (didReceiveMessage "leaflet/geojson/flush" data w) = w
  /\ forall mapId a,
       get_prop data "mapId" = Ret mapId ->
       getMap mapId w = Some a ->
       didReceiveMessage "leaflet/geojson/flush" data w = (Throw TypeError, w).
Proof.
  unfold didReceiveMessage, bind, gets, pure_outcome, ret, not_a_function, throw.
  simpl. split.
  - destruct (get_prop data "mapId") as [mapId|]; [|reflexivity].
    destruct (getMap mapId w); reflexivity.
  - intros mapId a Hd Hg. rewrite Hd, Hg. reflexivity.
Qed.

(** C10. [leaflet/loading/show] and [leaflet/loading/false] leave the
    whole state unchanged: every field of every session, the registry,
    the timers and the messages sent to the controller.  For a
    registered session they return normally. *)
Theorem C10_loading_is_a_no_op (w : World) (data : value) :
  Forall (fun message =>
            snd (didReceiveMessage message data w) = w
            /\ forall mapId a,
                 get_prop data "mapId" = Ret mapId ->
                 getMap mapId w = Some a ->
                 didReceiveMessage message data w = (Ret tt, w))
         ["leaflet/loading/show"; "leaflet/loading/false"].
Proof.
  assert (Hn : forall a, invoke a loadingShow w = (Ret tt, w)
                         /\ invoke a loadingHide w = (Ret tt, w))
    by (intros a; split; apply invoke_noop; reflexivity).
  constructor; [|constructor; [|constructor]];
    unfold didReceiveMessage, bind, gets, pure_outcome, ret; simpl;
    (split;
     [destruct (get_prop data "mapId") as [mapId|]; [|reflexivity];
      destruct (getMap mapId w) as [a|]; [|reflexivity];
      destruct (Hn a) as [Hs Hh]; rewrite ?Hs, ?Hh; reflexivity
     |intros mapId a Hd Hg; rewrite Hd, Hg; apply Hn]).
Qed.

(** *** Flushing the geometry queue *)

Lemma mapM_pure {S A B} (f : A -> Outcome B) (l : list A) (c : S) :
  mapM (fun x => pure_outcome (f x)) l c = (collect f l, c).
Proof.
  induction l as [|x l IH]; simpl; [reflexivity|].
  unfold bind, pure_outcome at 1. destruct (f x) as [y|e]; simpl; [|reflexivity].
  rewrite IH. destruct (collect f l); reflexivity.
Qed.



(** What [drawGeoJSON] does once the collection is built: the previous
    layer is off the map and the queue is empty whether or not the
    renderer accepts the collection; when it does, the new layer is the
    current one and is on the map. *)
Lemma drawGeoJSON_built s e0 fc :
  collect feature_of (_queueGeoJSON s) = Ret fc ->
  drawGeoJSON (s, e0) =
    if L_geoJson_accepts fc
    then
      let l := rendered_layer (next_uid e0) fc in
      let s1 := set_lastGeoJSON (Some l) (set_queueGeoJSON [] (without_last s)) in
      let shown := shown_layers (_map s1) in
      (Ret tt,
       (if decide (layer_uid l ∈ shown) then s1
        else set_shown (shown ++ [layer_uid l]) s1,
        set_next_uid (S (next_uid e0)) e0))
    else (Throw WidgetError, (set_queueGeoJSON [] (without_last s), e0)).
Proof.
  intros Hc. unfold drawGeoJSON.
  assert (Hq : forall s0 : LeafletMap,
             mapM (fun e => pure_outcome (feature_of e)) (_queueGeoJSON s) (s0, e0)
             = (Ret fc, (s0, e0))) by (intros; rewrite mapM_pure, Hc; reflexivity).
  unfold bind, this, gets, without_last, removeLayer, update_this, modify, ret.
  simpl. destruct (_lastGeoJSON s) as [l0|]; simpl; rewrite Hq;
  unfold L_geoJson, bind, fresh_uid, host, gets, ret, throw, addLayer, update_this,
    modify; simpl;
  destruct (L_geoJson_accepts fc); reflexivity.
Qed.






(** *** Pointer events on a rendered feature *)

(** Hover does set the emphasis style on the feature and brings it to
    the front, before the call on [this._mapInfo] raises. *)
Lemma highlightFeature_emphasis i s e0 l fl :
  _lastGeoJSON s = Some l ->
  layer_features l !! i = Some fl ->
  exists s' l',
    highlightFeature i (s, e0) = (Throw TypeError, (s', e0))
    /\ _lastGeoJSON s' = Some l'
    /\ layer_features l' !! i
       = Some {| feature := feature fl; style := highlight_style (style fl) |}
    /\ last (paint_order l') = Some i.
Proof.
  intros Hl Hi.
  unfold highlightFeature, bind, update_this, modify, mapInfo_update, throw. simpl.
  rewrite Hl. simpl. eexists _, _. split; [reflexivity|]. simpl.
  split; [reflexivity|]. split.
  - unfold bringToFront, restyle. simpl. rewrite list_lookup_alter_eq, Hi. reflexivity.
  - apply last_snoc.
Qed.


(** C4. Hover and hover-out on a feature never reach the information
    panel: both listeners end in a [TypeError], raised by the call on
    [this._mapInfo], and leave the panel (and the host) as they found
    it: the panel is neither filled with the feature's properties on
    hover nor cleared on hover-out. *)
Theorem C4_hover_leaves_info_panel (i : nat) (c : Cell) :
  (exists c', highlightFeature i c = (Throw TypeError, c')
              /\ _tooltip (fst c') = _tooltip (fst c) /\ snd c' = snd c)
  /\ (exists c', resetHighlight i c = (Throw TypeError, c')
                 /\ _tooltip (fst c') = _tooltip (fst c) /\ snd c' = snd c).
Proof.
  destruct c as [s e0]. split.
  - unfold highlightFeature, bind, update_this, modify, mapInfo_update, throw. simpl.
    eexists. split; [reflexivity|]. split; reflexivity.
  - unfold resetHighlight, bind, this, gets, update_this, modify, mapInfo_update, throw.
    simpl. destruct (_lastGeoJSON s); eexists; (split; [reflexivity|]); split; reflexivity.
Qed.

(** *** Replacing the markers *)

Lemma forEach_invariant {S A} (P : S -> Prop) (f : A -> Eff S unit) (l : list A) :
  (forall x c, P c -> P (snd (f x c))) ->
  forall c, P c -> P (snd (forEach f l c)).
Proof.
  intros Hf. induction l as [|x l IH]; intros c Hc; simpl; [exact Hc|].
  unfold bind. specialize (Hf x c Hc).
  destruct (f x c) as [[[]|e] c1]; simpl in *; [apply IH, Hf|exact Hf].
Qed.

Lemma set_shown_id s : set_shown (shown_layers (_map s)) s = s.
Proof. destruct s as [? ? ? ? ? [] ? ?]. reflexivity. Qed.

Lemma set_shown_twice l1 l2 s : set_shown l2 (set_shown l1 s) = set_shown l2 s.
Proof. destruct s as [? ? ? ? ? [] ? ?]. reflexivity. Qed.

Lemma set_markers_id s : set_markers (_markers s) s = s.
Proof. destruct s. reflexivity. Qed.

Lemma set_next_uid_id e : set_next_uid (next_uid e) e = e.
Proof. destruct e. reflexivity. Qed.

Lemma filter_not_in_cons (u0 : nat) (us l : list nat) :
  filter (fun u => u ∉ us) (filter (fun u => u <> u0) l)
  = filter (fun u => u ∉ u0 :: us) l.
Proof.
  induction l as [|x l IH]; [reflexivity|].
  rewrite (filter_cons (fun u => u <> u0)), (filter_cons (fun u => u ∉ u0 :: us)).
  destruct (decide (x <> u0)) as [Hx|Hx].
  - rewrite filter_cons. destruct (decide (x ∉ us)) as [Hu|Hu];
      destruct (decide (x ∉ u0 :: us)) as [Hv|Hv].
    + rewrite IH. reflexivity.
    + exfalso. apply Hv. intros Hin. apply elem_of_cons in Hin as [->|Hin]; tauto.
    + exfalso. apply Hu. intros Hin. apply Hv. apply elem_of_cons. tauto.
    + exact IH.
  - destruct (decide (x ∉ u0 :: us)) as [Hv|Hv]; [|exact IH].
    exfalso. apply Hx. intros ->. apply Hv. apply elem_of_cons. tauto.
Qed.

Lemma Forall_filter_keep {A} (Q P : A -> Prop) `{forall x, Decision (P x)} (l : list A) :
  Forall Q l -> Forall Q (filter P l).
Proof.
  induction 1 as [|x l Hx _ IH]; [constructor|].
  rewrite filter_cons. destruct (decide (P x)); [constructor|]; assumption.
Qed.

Lemma filter_not_in_nil (l : list nat) : filter (fun u => u ∉ @nil nat) l = l.
Proof.
  induction l as [|x l IH]; [reflexivity|].
  rewrite filter_cons. destruct (decide (x ∉ [])) as [_|Hx]; [rewrite IH; reflexivity|].
  exfalso. apply Hx. apply not_elem_of_nil.
Qed.

(** [this._markers.map(m => m.remove())] takes the session's markers off
    the map and touches nothing else. *)
Lemma forEach_removeLayer (ms : list Marker) s e0 :
  forEach (fun m => removeLayer (marker_uid m)) ms (s, e0)
  = (Ret tt,
     (set_shown (filter (fun u => u ∉ map marker_uid ms) (shown_layers (_map s))) s, e0)).
Proof.
  revert s. induction ms as [|m ms IH]; intros s; simpl.
  - rewrite filter_not_in_nil, set_shown_id. reflexivity.
  - unfold bind, removeLayer at 1, update_this, modify. simpl.
    rewrite IH. rewrite set_shown_twice. do 3 f_equal.
    destruct s as [? ? ? ? ? [] ? ?]. simpl. apply filter_not_in_cons.
Qed.

Lemma get_prop_readable m k : readable m = true -> get_prop m k = Ret (prop_of m k).
Proof. unfold prop_of. destruct m; try discriminate; reflexivity. Qed.

Lemma placeable_readable m : placeable m = true -> readable m = true.
Proof. unfold placeable. intros Hp. apply andb_prop in Hp as [Hr _]. exact Hr. Qed.

(** One turn of the loop on an entry the library can place, on a map
    without a view. *)
Lemma createMarker_placed m s e0 :
  placeable m = true ->
  viewport (_map s) = None ->
  next_uid e0 ∉ shown_layers (_map s) ->
  createMarker m (s, e0)
  = (Ret tt,
     (set_markers (_markers s ++ new_markers (next_uid e0) [m])
        (set_shown (shown_layers (_map s) ++ [next_uid e0]) s),
      set_next_uid (S (next_uid e0)) e0)).
Proof.
  intros Hp Hv Hn. pose proof (placeable_readable m Hp) as Hr.
  unfold placeable in Hp. apply andb_prop in Hp as [_ Ha].
  unfold createMarker, bind, pure_outcome.
  rewrite !(get_prop_readable m _ Hr).
  unfold this, gets. cbn [fst snd]. rewrite Ha, Hv.
  unfold fresh_uid, host, bind, gets, modify, ret, addLayer, update_this,
    modify. simpl.
  destruct (decide (next_uid e0 ∈ shown_layers (_map s))) as [Hin|_]; [contradiction|].
  destruct s as [? ? ? ? ? [] ? ?]. reflexivity.
Qed.

(** The same turn on a map that has its view: the marker enters the
    layer table, [addTo] raises, and the session does not record it. *)
Lemma createMarker_on_view m s e0 v :
  placeable m = true ->
  viewport (_map s) = Some v ->
  next_uid e0 ∉ shown_layers (_map s) ->
  createMarker m (s, e0)
  = (Throw TypeError,
     (set_shown (shown_layers (_map s) ++ [next_uid e0]) s,
      set_next_uid (S (next_uid e0)) e0)).
Proof.
  intros Hp Hv Hn. pose proof (placeable_readable m Hp) as Hr.
  unfold placeable in Hp. apply andb_prop in Hp as [_ Ha].
  unfold createMarker, bind, pure_outcome.
  rewrite !(get_prop_readable m _ Hr).
  unfold this, gets. cbn [fst snd]. rewrite Ha, Hv.
  unfold fresh_uid, host, bind, gets, modify, ret, throw, addLayer, update_this,
    modify. simpl.
  destruct (decide (next_uid e0 ∈ shown_layers (_map s))) as [Hin|_]; [contradiction|].
  reflexivity.
Qed.

(** On a map that has its view no turn of the loop returns, and none
    records a marker. *)
Lemma createMarker_never_on_view m s e0 v :
  viewport (_map s) = Some v ->
  exists err, fst (createMarker m (s, e0)) = Throw err
              /\ _markers (fst (snd (createMarker m (s, e0)))) = _markers s.
Proof.
  intros Hv. unfold createMarker, bind, pure_outcome.
  destruct (get_prop m "lat") as [mlat|]; [|eexists; split; reflexivity].
  destruct (get_prop m "lng") as [mlng|]; [|eexists; split; reflexivity].
  unfold this, gets. cbn [fst snd]. rewrite Hv.
  destruct (L_marker_accepts leaflet mlat mlng); [|eexists; split; reflexivity].
  unfold fresh_uid, host, bind, gets, modify, ret, throw, addLayer, update_this,
    modify. simpl.
  destruct (get_prop m "label"); [|eexists; split; reflexivity]. simpl.
  eexists. split; [reflexivity|].
  destruct (decide _); destruct s as [? ? ? ? ? [] ? ?]; reflexivity.
Qed.

Lemma forEach_createMarker (entries : list value) : forall s e0,
  forallb placeable entries = true ->
  viewport (_map s) = None ->
  Forall (fun u => u < next_uid e0) (shown_layers (_map s)) ->
  forEach createMarker entries (s, e0)
  = (Ret tt,
     (set_markers (_markers s ++ new_markers (next_uid e0) entries)
        (set_shown (shown_layers (_map s) ++ seq (next_uid e0) (length entries)) s),
      set_next_uid (next_uid e0 + length entries) e0)).
Proof.
  induction entries as [|m entries IH]; intros s e0 Hr Hv Hs.
  - simpl. rewrite !app_nil_r, Nat.add_0_r, set_shown_id, set_markers_id,
      set_next_uid_id. reflexivity.
  - simpl in Hr. apply andb_prop in Hr as [Hm Hr].
    cbn [forEach]. unfold bind at 1.
    rewrite createMarker_placed; [|exact Hm|exact Hv|].
    2:{ intros Hin. rewrite Forall_forall in Hs. specialize (Hs _ Hin). lia. }
    rewrite IH; [|exact Hr| |].
    2:{ destruct s as [? ? ? ? ? [] ? ?]. exact Hv. }
    2:{ destruct s as [? ? ? ? ? [] ? ?]. destruct e0. simpl in *.
        apply Forall_app. split.
        - eapply Forall_impl; [exact Hs|]. simpl. intros; lia.
        - repeat constructor. }
    destruct s as [? ? ? ? ? [] ? ?]. destruct e0. simpl.
    rewrite <- !app_assoc. simpl. rewrite Nat.add_succ_r. reflexivity.
Qed.

(** The first steps of a replacement: the markers kept are taken off
    the map and forgotten, then the loop runs. *)
Lemma updateMarkers_array (entries : list value) s e0 :
  updateMarkers (VArr entries) (s, e0)
  = forEach createMarker entries
      (set_markers []
         (set_shown (filter (fun u => u ∉ map marker_uid (_markers s))
                            (shown_layers (_map s))) s), e0).
Proof.
  unfold updateMarkers, bind, this, gets.
  cbn [fst snd]. rewrite forEach_removeLayer. reflexivity.
Qed.

(** What a replacement with entries the library can place does on a
    map without a view. *)
Lemma updateMarkers_placed (entries : list value) s e0 :
  forallb placeable entries = true ->
  viewport (_map s) = None ->
  Forall (fun u => u < next_uid e0) (shown_layers (_map s)) ->
  updateMarkers (VArr entries) (s, e0)
  = (Ret tt,
     (set_markers (new_markers (next_uid e0) entries)
        (set_shown (filter (fun u => u ∉ map marker_uid (_markers s))
                           (shown_layers (_map s))
                    ++ seq (next_uid e0) (length entries)) s),
      set_next_uid (next_uid e0 + length entries) e0)).
Proof.
  intros Hr Hv Hs. rewrite updateMarkers_array.
  rewrite forEach_createMarker; [|exact Hr| |].
  2:{ destruct s as [? ? ? ? ? [] ? ?]. exact Hv. }
  2:{ destruct s as [? ? ? ? ? [] ? ?]. simpl in *.
      apply Forall_filter_keep. exact Hs. }
  destruct s as [? ? ? ? ? [] ? ?]. reflexivity.
Qed.

Lemma new_markers_length uid entries : length (new_markers uid entries) = length entries.
Proof.
  revert uid. induction entries as [|m l IH]; intros uid; simpl; [reflexivity|].
  rewrite IH. reflexivity.
Qed.

Lemma new_markers_uids uid entries :
  map marker_uid (new_markers uid entries) = seq uid (length entries).
Proof.
  revert uid. induction entries as [|m l IH]; intros uid; simpl; [reflexivity|].
  rewrite IH. reflexivity.
Qed.

Lemma filter_none {A} (P : A -> Prop) `{forall x, Decision (P x)} (l : list A) :
  Forall (fun x => ~ P x) l -> filter P l = [].
Proof.
  induction 1 as [|x l Hx _ IH]; [reflexivity|].
  rewrite filter_cons. destruct (decide (P x)); [contradiction|exact IH].
Qed.

Lemma filter_all {A} (P : A -> Prop) `{forall x, Decision (P x)} (l : list A) :
  Forall P l -> filter P l = l.
Proof.
  induction 1 as [|x l Hx _ IH]; [reflexivity|].
  rewrite filter_cons. destruct (decide (P x)); [rewrite IH; reflexivity|contradiction].
Qed.

Lemma filter_swap {A} (P Q : A -> Prop) `{forall x, Decision (P x)}
  `{forall x, Decision (Q x)} (l : list A) :
  filter P (filter Q l) = filter Q (filter P l).
Proof.
  induction l as [|x l IH]; [reflexivity|].
  rewrite (filter_cons Q), (filter_cons P).
  destruct (decide (Q x)), (decide (P x)); rewrite ?filter_cons;
    repeat (destruct (decide _); try contradiction); rewrite ?IH; reflexivity.
Qed.

(** C7. Take a session whose map has its view and which keeps no
    marker, as is every session whose map had its view from the start.
    No replacement by a sequence with an entry in it returns, and the
    session is left with no marker at all.  When the first entry is one
    the library can place, its marker is made with [icon: undefined]
    and enters the layer table of the map; [addTo] then raises a
    [TypeError] before the session records the marker.  Nothing can
    take that marker off the map any more: a replacement by the empty
    sequence returns, and the marker of the earlier replacement is
    still on the map. *)
Theorem C7_replacement_fails_on_a_map_with_a_view (s : LeafletMap) (e0 : Env)
  (v : ViewState) (m : value) (rest : list value) :
  viewport (_map s) = Some v ->
  _markers s = [] ->
  Forall (fun u => u < next_uid e0) (shown_layers (_map s)) ->
  let r1 := updateMarkers (VArr (m :: rest)) (s, e0) in
  let r2 := updateMarkers (VArr []) (snd r1) in
  (exists err, fst r1 = Throw err)
  /\ _markers (fst (snd r1)) = []
  /\ (placeable m = true ->
      fst r1 = Throw TypeError
      /\ shown_layers (_map (fst (snd r1))) = shown_layers (_map s) ++ [next_uid e0]
      /\ fst r2 = Ret tt
      /\ _markers (fst (snd r2)) = []
      /\ shown_layers (_map (fst (snd r2))) = shown_layers (_map s) ++ [next_uid e0]).
Proof.
  intros Hv Hm0 Hold r1 r2. unfold r2, r1. rewrite updateMarkers_array.
  set (s1 := set_markers []
               (set_shown (filter (fun u => u ∉ map marker_uid (_markers s))
                                  (shown_layers (_map s))) s)).
  assert (Hv1 : viewport (_map s1) = Some v)
    by (unfold s1; destruct s as [? ? ? ? ? [] ? ?]; exact Hv).
  assert (Hm1 : _markers s1 = []) by (unfold s1; destruct s; reflexivity).
  assert (Hs1 : shown_layers (_map s1) = shown_layers (_map s)).
  { unfold s1. rewrite Hm0. destruct s as [? ? ? ? ? [] ? ?]. simpl.
    apply filter_not_in_nil. }
  assert (Hnew : next_uid e0 ∉ shown_layers (_map s1)).
  { rewrite Hs1. intros Hin.
    rewrite Forall_forall in Hold. specialize (Hold _ Hin). lia. }
  destruct (createMarker_never_on_view m s1 e0 v Hv1) as (err & Herr & Hkept).
  assert (Hfe : forEach createMarker (m :: rest) (s1, e0)
                = (Throw err, snd (createMarker m (s1, e0)))).
  { cbn [forEach]. unfold bind.
    destruct (createMarker m (s1, e0)) as [[[]|err'] c1]; simpl in *;
      [discriminate|congruence]. }
  rewrite Hfe. cbn [fst snd]. split; [|split].
  - exists err. reflexivity.
  - rewrite Hkept. exact Hm1.
  - intros Hp. rewrite (createMarker_on_view m s1 e0 v Hp Hv1 Hnew) in Herr |- *.
    cbn [fst snd] in Herr |- *. injection Herr as <-.
    rewrite updateMarkers_array. cbn [forEach]. unfold ret. cbn [fst snd].
    assert (Heq : filter (fun u => u ∉ map marker_uid
                                     (_markers (set_shown (shown_layers (_map s1)
                                                           ++ [next_uid e0]) s1)))
                         (shown_layers (_map (set_shown (shown_layers (_map s1)
                                                         ++ [next_uid e0]) s1)))
                  = shown_layers (_map s1) ++ [next_uid e0]).
    { replace (_markers (set_shown (shown_layers (_map s1) ++ [next_uid e0]) s1))
        with (@nil Marker) by (destruct s1 as [? ? ? ? ? [] ? ?]; simpl in *; congruence).
      replace (shown_layers (_map (set_shown (shown_layers (_map s1)
                                              ++ [next_uid e0]) s1)))
        with (shown_layers (_map s1) ++ [next_uid e0])
        by (destruct s1 as [? ? ? ? ? [] ? ?]; reflexivity).
      apply filter_not_in_nil. }
    rewrite <- Hs1.
    split; [reflexivity|]. split.
    { destruct s1 as [? ? ? ? ? [] ? ?]. reflexivity. }
    split; [reflexivity|]. split.
    { destruct s1 as [? ? ? ? ? [] ? ?]. reflexivity. }
    rewrite Heq. destruct s1 as [? ? ? ? ? [] ? ?]. reflexivity.
Qed.

Lemma createMarker_icon m c :
  Forall (fun x => marker_icon x = VUndef) (_markers (fst c)) ->
  Forall (fun x => marker_icon x = VUndef) (_markers (fst (snd (createMarker m c)))).
Proof.
  destruct c as [s e0]. intros Hc.
  unfold createMarker, bind, pure_outcome.
  destruct (get_prop m "lat"); [|exact Hc].
  destruct (get_prop m "lng"); [|exact Hc].
  unfold this, gets. cbn [fst snd].
  destruct (L_marker_accepts leaflet _ _); [|exact Hc].
  unfold fresh_uid, host, bind, gets, modify, ret, throw, addLayer, update_this,
    modify. simpl.
  destruct (get_prop m "label"); [|destruct e0; exact Hc]. simpl.
  destruct (decide _); destruct s as [? ? ? ? ? [ct mo tl [v|] sh] ? ?]; simpl in *;
    try exact Hc;
    (apply Forall_app; split; [exact Hc|repeat constructor]).
Qed.

(** Whatever is asked, a replacement leaves the session with markers
    that carry no icon. *)
Lemma updateMarkers_icon markers c :
  Forall (fun x => marker_icon x = VUndef) (_markers (fst (snd (updateMarkers markers c)))).
Proof.
  destruct c as [s e0]. unfold updateMarkers.
  unfold bind at 1. unfold this, gets. simpl fst.
  unfold bind at 1. rewrite forEach_removeLayer.
  unfold bind at 1. unfold update_this at 1, modify. simpl snd. simpl fst.
  unfold bind at 1. unfold pure_outcome.
  destruct (array_elems markers) as [entries|e]; cbv iota beta.
  - apply (forEach_invariant
             (fun c => Forall (fun x => marker_icon x = VUndef) (_markers (fst c)))).
    + intros x c Hc. apply createMarker_icon, Hc.
    + destruct s as [? ? ? ? ? [] ? ?]. constructor.
  - destruct s as [? ? ? ? ? [] ? ?]. constructor.
Qed.

(** The lookup of the manager would not help either: under an id that
    is not [undefined], [getIcon] never returns an icon. *)
Lemma getIcon_finds_nothing iconId m i :
  iconId <> VUndef -> getIcon iconId m <> Ret (Some i).
Proof.
  intros Hid. unfold getIcon.
  destruct (_ || _); [discriminate|].
  generalize (N.to_nat (icons_length (_icons m))) as left.
  generalize 0%N as k. intros k left. revert k.
  induction left as [|left IH]; intros k; simpl; [discriminate|].
  destruct (icons_get (pretty k) (_icons m)); [|discriminate].
  destruct iconId; try contradiction; simpl; apply IH.
Qed.

(** C5. Whatever markers are asked for, [updateMarkers] leaves the
    session with markers that all carry [icon: undefined]; the method
    has no access to the icon table.  So a [leaflet/markers/update] for
    a registered session never gives an installed icon definition to a
    marker, whatever the table holds and whatever icon id the entries
    name. *)
Theorem C5_markers_never_get_an_icon :
  (forall (markers : value) (c : Cell),
     Forall (fun m => marker_icon m = VUndef)
            (_markers (fst (snd (updateMarkers markers c)))))
  /\ forall (w : World) (data mapId : value) (a : addr),
       get_prop data "mapId" = Ret mapId ->
       getMap mapId w = Some a ->
       exists s',
         heap (snd (didReceiveMessage "leaflet/markers/update" data w)) !! a = Some s'
         /\ Forall (fun m => marker_icon m = VUndef) (_markers s').
Proof.
  split; [apply updateMarkers_icon|].
  intros w data mapId a Hd Hg.
  destruct (getMap_Some _ _ _ Hg) as (s & Ha & _).
  unfold didReceiveMessage, bind, gets, pure_outcome, ret. simpl.
  rewrite Hd, Hg.
  assert (Hm : exists markers, get_prop data "markers" = Ret markers).
  { destruct data; try discriminate; simpl; eauto. }
  destruct Hm as [markers ->].
  unfold invoke. rewrite Ha.
  pose proof (updateMarkers_icon markers (s, env w)) as Hi.
  destruct (updateMarkers markers (s, env w)) as [o [s' e']]. simpl in *.
  exists s'. split; [|exact Hi].
  apply list_lookup_insert_eq. eapply lookup_lt_Some, Ha.
Qed.

(** *** Coordinate conversion *)

(** C8. For an object with numeric [lat] and [lng], the conversion
    returns the coordinate object built from them and reports nothing.
    For any other input it raises and returns no coordinate object: the
    construction error goes to the host through
    [RPGM.newJavascriptError], which does not return; on [null] the
    [in] test itself raises a [TypeError] before that. *)
Theorem C8_coordinate_conversion (obj : value) (e : Env) :
  if well_formed obj
  then exists a b,
         get_prop obj "lat" = Ret (VNum a) /\ get_prop obj "lng" = Ret (VNum b)
         /\ jsonToLatLng obj e = (Ret {| lat := a; lng := b |}, e)
  else exists err e',
         jsonToLatLng obj e = (Throw err, e')
         /\ match obj with
            | VNull => err = TypeError /\ e' = e
            | _ =>
                err = JavascriptError "Could not convert an object to a LatLng object!"
                /\ e' = set_reported
                          (reported e ++ ["Could not convert an object to a LatLng object!"]) e
            end.
Proof.
  unfold jsonToLatLng, bind, pure_outcome, newJavascriptError, bind, modify, throw, ret.
  destruct obj as [| | b | n | str | l | fs]; simpl;
    try (eexists _, _; split; [reflexivity|split; reflexivity]).
  destruct (assoc "lat" fs) as [vlat|] eqn:Hlat; simpl;
    [|eexists _, _; split; [reflexivity|split; reflexivity]].
  destruct (assoc "lng" fs) as [vlng|] eqn:Hlng; simpl.
  - destruct vlat; simpl;
      try (eexists _, _; split; [reflexivity|split; reflexivity]).
    destruct vlng; simpl; eexists _, _; (split; [reflexivity|split; reflexivity]).
  - destruct vlat; simpl; eexists _, _; (split; [reflexivity|split; reflexivity]).
Qed.

(** The constructor's use of the conversion: a malformed centre stops
    the construction, and [leaflet/initialize] then makes no session. *)
Lemma new_LeafletMap_malformed_center id layer height options layerOptions center e :
  get_prop options "center" = Ret center ->
  ToBoolean center = true ->
  well_formed center = false ->
  exists e',
    new_LeafletMap id layer height options layerOptions e
    = (Throw (JavascriptError "Could not convert an object to a LatLng object!"), e').
Proof.
  intros Hc Ht Hw. unfold new_LeafletMap, bind, pure_outcome. rewrite Hc, Ht.
  assert (Hj : exists e', jsonToLatLng center e
             = (Throw (JavascriptError "Could not convert an object to a LatLng object!"), e')).
  { unfold jsonToLatLng, bind, pure_outcome, newJavascriptError, bind, modify, throw, ret.
    destruct center as [| | b | n | str | l | fs]; simpl in *; try discriminate;
      try (eexists; reflexivity).
    destruct (assoc "lat" fs) as [vlat|]; simpl; [|eexists; reflexivity].
    destruct (assoc "lng" fs) as [vlng|]; simpl.
    - destruct vlat; simpl; try (eexists; reflexivity).
      destruct vlng; simpl; try (eexists; reflexivity). discriminate.
    - destruct vlat; simpl; eexists; reflexivity. }
  destruct Hj as [e' ->]. eauto.
Qed.

(** *** Debouncing the view changes *)

Lemma armed_one_timer a id v out w : armed a id v out w -> length (timers (env w)) <= 1.
Proof. intros (s & tid & _ & _ & _ & _ & Ht & _). rewrite Ht. simpl. lia. Qed.

(** A view change on a quiet page arms the session. *)
Lemma quiet_change_arms a s v w :
  heap w !! a = Some s ->
  timers (env w) = [] ->
  armed a (_id s) v (outbox (env w)) (snd (step (ViewChange a v) w)).
Proof.
  intros Ha Ht. simpl. unfold handled, invoke. rewrite Ha. simpl.
  unfold onViewChange, onMapViewChange, bind, update_this, modify, this, gets, host,
    clearTimeout, setTimeout, bind, gets, modify, ret. simpl.
  destruct w as [mg h [out cons rep nw tms nt nu us]]. simpl in *. subst tms.
  destruct s as [sid q lg ms [deb|] [ct mo tl vp sh] tt ld]; simpl;
    (eexists _, _; split;
     [apply list_lookup_insert_eq; eapply lookup_lt_Some, Ha|];
     simpl; repeat split; reflexivity).
Qed.

(** Less than the delay later the timer is still pending, and a new
    view change replaces it by a fresh one. *)
Lemma armed_elapse_change a id v v' out w d :
  armed a id v out w ->
  d < 200 ->
  length (timers (env (snd (step (Elapse d) w)))) <= 1
  /\ armed a id v' out (snd (step (ViewChange a v') (snd (step (Elapse d) w)))).
Proof.
  intros (s & tid & Ha & Hid & Hv & Hd & Ht & Ho) Hlt.
  destruct w as [mg h [out0 cons rep nw tms nt nu us]]. simpl in *. subst tms out0.
  unfold elapse. simpl.
  rewrite !filter_cons, !filter_nil. simpl.
  destruct (decide (nw + 200 <= nw + d)) as [Hle|Hgt]; [lia|].
  destruct (decide (~ nw + 200 <= nw + d)) as [_|Hn]; [|contradiction].
  simpl. split; [lia|].
  unfold handled, invoke. simpl. rewrite Ha. simpl.
  unfold onViewChange, onMapViewChange, bind, update_this, modify, this, gets, host,
    clearTimeout, setTimeout, bind, gets, modify, ret. simpl.
  destruct s as [sid q lg ms deb [ct mo tl vp sh] tt ld]. simpl in *. subst deb. simpl.
  rewrite filter_cons, filter_nil. simpl.
  destruct (decide (tid <> tid)) as [Hne|_]; [contradiction|]. simpl.
  eexists _, _. split; [apply list_lookup_insert_eq; eapply lookup_lt_Some, Ha|].
  simpl. repeat split; assumption || reflexivity.
Qed.

(** Once the delay has passed the timer fires: the viewport of that
    moment is sent, and nothing is pending. *)
Lemma armed_fires a id v out w quiet :
  armed a id v out w ->
  200 <= quiet ->
  outbox (env (snd (step (Elapse quiet) w))) = out ++ [view_message id v]
  /\ timers (env (snd (step (Elapse quiet) w))) = [].
Proof.
  intros (s & tid & Ha & Hid & Hv & Hd & Ht & Ho) Hge.
  destruct w as [mg h [out0 cons rep nw tms nt nu us]]. simpl in *. subst tms out0.
  unfold elapse. simpl.
  rewrite !filter_cons, !filter_nil. simpl.
  destruct (decide (nw + 200 <= nw + quiet)) as [Hle|Hgt]; [|lia].
  destruct (decide (~ nw + 200 <= nw + quiet)) as [Hn|_]; [contradiction|].
  simpl. unfold invoke. simpl. rewrite Ha.
  unfold sendChange, bind, this, gets, host, sendMessage, modify. simpl.
  rewrite Hv. simpl. subst id. split; reflexivity.
Qed.

Lemma last_cons_default {A} (l : list A) : forall x d, List.last (x :: l) d = List.last l x.
Proof.
  induction l as [|y l IH]; intros x d; [reflexivity|].
  change (List.last (x :: y :: l) d) with (List.last (y :: l) d).
  rewrite (IH y d), (IH y x). reflexivity.
Qed.

Lemma final_view_cons v0 d v rest : final_view v0 ((d, v) :: rest) = final_view v rest.
Proof. unfold final_view. simpl map. apply last_cons_default. Qed.

Lemma burst_then_quiet a id out quiet (changes : list (nat * ViewState)) :
  200 <= quiet ->
  forall v w,
    armed a id v out w ->
    spaced_below 200 changes = true ->
    let evs := burst a changes ++ [Elapse quiet] in
    outbox (env (run evs w)) = out ++ [view_message id (final_view v changes)]
    /\ timers (env (run evs w)) = []
    /\ Forall (fun w' => length (timers (env w')) <= 1) (trajectory evs w).
Proof.
  intros Hq. induction changes as [|[d v'] rest IH]; intros v w Harm Hsp.
  - destruct (armed_fires a id v out w quiet Harm Hq) as [Ho Ht].
    cbn [burst app run trajectory]. split; [exact Ho|]. split; [exact Ht|].
    constructor; [eapply armed_one_timer, Harm|].
    constructor; [rewrite Ht; simpl; lia|constructor].
  - cbn [spaced_below forallb fst] in Hsp. apply andb_prop in Hsp as [Hd Hsp].
    apply Nat.ltb_lt in Hd.
    destruct (armed_elapse_change a id v v' out w d Harm Hd) as [H1 Harm'].
    destruct (IH v' _ Harm' Hsp) as (Ho & Ht & Htr).
    cbn [burst app run trajectory]. rewrite final_view_cons.
    split; [exact Ho|]. split; [exact Ht|].
    constructor; [eapply armed_one_timer, Harm|].
    constructor; [exact H1|]. exact Htr.
Qed.

(** C3. On a quiet page, let the widget of a session signal a view
    change, then further ones, each less than 200 ms after the one
    before, and then stay still for 200 ms or more.  Exactly one message
    has been sent by then: an [onDidChangeView] carrying the viewport
    left by the last change.  No timer is pending at the end, and at no
    point of the sequence was more than one pending. *)
Theorem C3_view_changes_are_debounced (w : World) (a : addr) (s : LeafletMap)
  (v0 : ViewState) (changes : list (nat * ViewState)) (quiet : nat) :
  heap w !! a = Some s ->
  timers (env w) = [] ->
  spaced_below 200 changes = true ->
  200 <= quiet ->
  let evs := ViewChange a v0 :: burst a changes ++ [Elapse quiet] in
  outbox (env (run evs w))
  = outbox (env w) ++ [view_message (_id s) (final_view v0 changes)]
  /\ timers (env (run evs w)) = []
  /\ Forall (fun w' => length (timers (env w')) <= 1) (trajectory evs w).
Proof.
  intros Ha Ht Hsp Hq.
  pose proof (quiet_change_arms a s v0 w Ha Ht) as Harm.
  destruct (burst_then_quiet a (_id s) (outbox (env w)) quiet changes Hq v0 _ Harm Hsp)
    as (Ho & Htm & Htr).
  cbn [run trajectory]. split; [exact Ho|]. split; [exact Htm|].
  constructor; [rewrite Ht; simpl; lia|exact Htr].
Qed.

(** *** The invariant of a session *)

(** [tidy] only looks at the layers on the map, the identities of the
    markers and of the current GeoJSON layer, and the counter. *)
Lemma tidy_frame s e s' e' :
  shown_layers (_map s') = shown_layers (_map s) ->
  map marker_uid (_markers s') = map marker_uid (_markers s) ->
  layer_uid <$> _lastGeoJSON s' = layer_uid <$> _lastGeoJSON s ->
  next_uid e <= next_uid e' ->
  tidy (s, e) -> tidy (s', e').
Proof.
  intros Hs Hm Hl Hn (H1 & H2 & H3). unfold tidy, marker_layers in *. simpl in *.
  rewrite Hs, Hm, Hl. split; [exact H1|]. split.
  - eapply Forall_impl; [exact H2|]. simpl. intros; lia.
  - intros l Hl'. rewrite Hl' in Hl. simpl in Hl.
    destruct (_lastGeoJSON s) as [l0|]; [|discriminate].
    injection Hl as Hl. specialize (H3 l0 eq_refl). lia.
Qed.

(** A session just built is tidy, whatever the counter. *)
Lemma new_LeafletMap_tidy id layer height options layerOptions e s e' (e1 : Env) :
  new_LeafletMap id layer height options layerOptions e = (Ret s, e') ->
  tidy (s, e1).
Proof.
  intros Hn. destruct (new_LeafletMap_fresh _ _ _ _ _ _ _ _ Hn) as (m & -> & Hm).
  unfold tidy, marker_layers. simpl. rewrite Hm.
  split; [reflexivity|]. split; [constructor|discriminate].
Qed.

Lemma without_last_tidy s e : tidy (s, e) -> tidy (without_last s, e).
Proof.
  intros (H1 & H2 & H3). unfold without_last.
  destruct (_lastGeoJSON s) as [l|] eqn:Hl; [|repeat split; assumption].
  unfold tidy, marker_layers in *. cbn [fst snd] in *.
  assert (Hg : _lastGeoJSON (set_shown (filter (fun u => u <> layer_uid l)
                 (shown_layers (_map s))) s) = Some l)
    by (destruct s as [? ? ? ? ? [] ? ?]; exact Hl).
  assert (Hm : _markers (set_shown (filter (fun u => u <> layer_uid l)
                 (shown_layers (_map s))) s) = _markers s)
    by (destruct s as [? ? ? ? ? [] ? ?]; reflexivity).
  assert (Hs : shown_layers (_map (set_shown (filter (fun u => u <> layer_uid l)
                 (shown_layers (_map s))) s))
               = filter (fun u => u <> layer_uid l) (shown_layers (_map s)))
    by (destruct s as [? ? ? ? ? [] ? ?]; reflexivity).
  rewrite Hg, Hm, Hs. rewrite Hl in H1. split.
  - rewrite <- H1. clear.
    induction (shown_layers (_map s)) as [|u us IH]; [reflexivity|].
    rewrite (filter_cons (fun u => u <> layer_uid l)).
    destruct (decide (u <> layer_uid l)) as [Hne|Heq].
    + rewrite !filter_cons.
      destruct (decide (Some u <> (layer_uid <$> Some l))); rewrite IH; reflexivity.
    + rewrite filter_cons.
      destruct (decide (Some u <> (layer_uid <$> Some l))) as [Hne|_]; [|exact IH].
      exfalso. apply Hne. simpl. f_equal. destruct (decide (u = layer_uid l)); tauto.
  - split; [apply Forall_filter_keep, H2|].
    intros l' [= Heq]. subst l'. apply H3, Hl.
Qed.

Lemma queue_cleared_tidy s e : tidy (s, e) -> tidy (set_queueGeoJSON [] s, e).
Proof. apply tidy_frame; destruct s; reflexivity || lia. Qed.

(** [drawGeoJSON] keeps a session tidy, whether the collection cannot be
    built, is refused by the renderer, or is rendered. *)
Lemma drawGeoJSON_tidy c : tidy c -> tidy (snd (drawGeoJSON c)).
Proof.
  destruct c as [s e0]. intros Ht.
  destruct (collect feature_of (_queueGeoJSON s)) as [fc|err] eqn:Hc.
  - rewrite (drawGeoJSON_built s e0 fc Hc).
    pose proof (queue_cleared_tidy _ _ (without_last_tidy _ _ Ht)) as Ht1.
    destruct (L_geoJson_accepts fc); [|exact Ht1].
    cbn [snd]. set (s0 := set_queueGeoJSON [] (without_last s)) in *.
    destruct Ht1 as (H1 & H2 & H3). simpl in H1, H2, H3.
    assert (Hsh : shown_layers (_map (set_lastGeoJSON
                    (Some (rendered_layer (next_uid e0) fc)) s0))
                  = shown_layers (_map s0)) by (destruct s0; reflexivity).
    assert (Hnew : next_uid e0 ∉ shown_layers (_map s0)).
    { intros Hin. rewrite Forall_forall in H2. specialize (H2 _ Hin). lia. }
    cbv zeta. rewrite Hsh. simpl layer_uid.
    destruct (decide (next_uid e0 ∈ shown_layers (_map s0))) as [Hin|_];
      [contradiction|].
    unfold tidy, marker_layers. simpl fst. simpl snd.
    assert (Hs' : forall L, shown_layers (_map (set_shown L
                    (set_lastGeoJSON (Some (rendered_layer (next_uid e0) fc)) s0))) = L)
      by (intros; destruct s0 as [? ? ? ? ? [] ? ?]; reflexivity).
    assert (Hl' : forall L, _lastGeoJSON (set_shown L
                    (set_lastGeoJSON (Some (rendered_layer (next_uid e0) fc)) s0))
                  = Some (rendered_layer (next_uid e0) fc))
      by (intros; destruct s0 as [? ? ? ? ? [] ? ?]; reflexivity).
    assert (Hm' : forall L, _markers (set_shown L
                    (set_lastGeoJSON (Some (rendered_layer (next_uid e0) fc)) s0))
                  = _markers s0)
      by (intros; destruct s0 as [? ? ? ? ? [] ? ?]; reflexivity).
    assert (Hn' : next_uid (set_next_uid (S (next_uid e0)) e0) = S (next_uid e0))
      by (destruct e0; reflexivity).
    change (shown_layers (_map (without_last s))) with (shown_layers (_map s0)).
    rewrite Hs', Hl', Hm', Hn'. simpl. split.
    + rewrite <- H1. unfold marker_layers. rewrite filter_app.
      rewrite (filter_none _ [next_uid e0]).
      2:{ constructor; [|constructor]. intros Hne. apply Hne. reflexivity. }
      rewrite app_nil_r.
      rewrite (filter_all (fun u => Some u <> Some (next_uid e0))).
      2:{ apply Forall_forall. intros u Hu [= ->]. contradiction. }
      symmetry. apply filter_all. apply Forall_forall. intros u Hu Heq.
      destruct (_lastGeoJSON s0) as [l0|] eqn:Hl0; [|discriminate].
      simpl in Heq. injection Heq as ->. unfold s0 in Hl0.
      assert (Hout : layer_uid l0 ∉ shown_layers (_map s0)).
      { unfold s0. clear - Hl0. unfold without_last in *.
        destruct (_lastGeoJSON s) as [l|] eqn:Hl.
        - assert (l0 = l) by (destruct s as [? ? ? ? ? [] ? ?]; simpl in *; congruence).
          subst l0. destruct s as [? ? ? ? ? [] ? ?]. simpl.
          intros Hin. apply list_elem_of_filter in Hin as [Hne _]. apply Hne. reflexivity.
        - destruct s; simpl in *; congruence. }
      contradiction.
    + split.
      * apply Forall_app. split.
        -- eapply Forall_impl; [exact H2|]. simpl. intros; lia.
        -- constructor; [lia|constructor].
      * intros l [= <-]. simpl. lia.
  - assert (Hd : snd (drawGeoJSON (s, e0)) = (without_last s, e0)).
    { unfold drawGeoJSON.
      assert (Hq : forall s0 : LeafletMap,
                 mapM (fun e => pure_outcome (feature_of e)) (_queueGeoJSON s) (s0, e0)
                 = (Throw err, (s0, e0))) by (intros; rewrite mapM_pure, Hc; reflexivity).
      unfold bind, this, gets, without_last, removeLayer, update_this, modify, ret.
      simpl. destruct (_lastGeoJSON s) as [l0|]; simpl; rewrite Hq; reflexivity. }
    rewrite Hd. apply without_last_tidy, Ht.
Qed.

(** An entry the library cannot place leaves no trace. *)
Lemma createMarker_unplaceable m c : placeable m = false -> snd (createMarker m c) = c.
Proof.
  destruct c as [s e0]. unfold placeable. intros Hp.
  unfold createMarker, bind, pure_outcome.
  destruct (readable m) eqn:Hr.
  - rewrite !(get_prop_readable m _ Hr). unfold this, gets. cbn [fst snd].
    simpl in Hp. rewrite Hp. reflexivity.
  - destruct m; try discriminate; reflexivity.
Qed.

Lemma createMarker_viewport m c :
  viewport (_map (fst (snd (createMarker m c)))) = viewport (_map (fst c)).
Proof.
  destruct c as [s e0]. unfold createMarker, bind, pure_outcome.
  destruct (get_prop m "lat"); [|reflexivity].
  destruct (get_prop m "lng"); [|reflexivity].
  unfold this, gets. cbn [fst snd].
  destruct (L_marker_accepts leaflet _ _); [|reflexivity].
  unfold fresh_uid, host, bind, gets, modify, ret, throw, addLayer, update_this,
    modify. simpl.
  destruct (get_prop m "label"); [|reflexivity]. simpl.
  destruct (decide _); destruct s as [? ? ? ? ? [ct mo tl [v|] sh] ? ?]; reflexivity.
Qed.

(** On a map without a view a turn of the loop keeps the session tidy. *)
Lemma createMarker_tidy m c :
  viewport (_map (fst c)) = None -> tidy c -> tidy (snd (createMarker m c)).
Proof.
  destruct c as [s e0]. intros Hv Ht.
  destruct (placeable m) eqn:Hr.
  - destruct Ht as (H1 & H2 & H3). simpl in H1, H2, H3.
    assert (Hnew : next_uid e0 ∉ shown_layers (_map s)).
    { intros Hin. rewrite Forall_forall in H2. specialize (H2 _ Hin). lia. }
    rewrite (createMarker_placed m s e0 Hr Hv Hnew). cbn [snd].
    unfold tidy, marker_layers. cbn [fst snd].
    destruct s as [sid q lg ms deb [ct mo tl vp sh] tt ld]. destruct e0 as [? ? ? ? ? ? nu ?].
    unfold marker_layers in H1. simpl in *. split.
    + rewrite filter_app, map_app, H1. f_equal. simpl.
      apply (filter_all _ [nu]). constructor; [|constructor].
      intros Heq. destruct lg as [l|]; [|discriminate]. simpl in Heq.
      injection Heq as ->. specialize (H3 l eq_refl). lia.
    + split.
      * apply Forall_app. split.
        -- eapply Forall_impl; [exact H2|]. simpl. intros; lia.
        -- constructor; [lia|constructor].
      * intros l Hl. specialize (H3 l Hl). lia.
  - rewrite (createMarker_unplaceable m (s, e0) Hr). exact Ht.
Qed.

(** On a map without a view [updateMarkers] keeps a session tidy on
    every input. *)
Lemma updateMarkers_tidy markers c :
  viewport (_map (fst c)) = None -> tidy c -> tidy (snd (updateMarkers markers c)).
Proof.
  destruct c as [s e0]. intros Hv Ht. unfold updateMarkers.
  unfold bind at 1. unfold this, gets. simpl fst.
  unfold bind at 1. rewrite forEach_removeLayer.
  unfold bind at 1. unfold update_this at 1, modify. simpl snd. simpl fst.
  assert (Ht1 : tidy (set_markers []
                        (set_shown (filter (fun u => u ∉ map marker_uid (_markers s))
                                      (shown_layers (_map s))) s), e0)).
  { destruct Ht as (H1 & H2 & H3). unfold tidy, marker_layers in *.
    destruct s as [sid q lg ms deb [ct mo tl vp sh] tt ld]. simpl in *. split.
    - rewrite filter_swap, H1. apply filter_none.
      apply Forall_forall. intros u Hu Hn. contradiction.
    - split; [apply Forall_filter_keep, H2|exact H3]. }
  assert (Hv1 : viewport (_map (set_markers []
                        (set_shown (filter (fun u => u ∉ map marker_uid (_markers s))
                                      (shown_layers (_map s))) s))) = None)
    by (destruct s as [? ? ? ? ? [] ? ?]; exact Hv).
  unfold bind at 1. unfold pure_outcome.
  destruct (array_elems markers) as [entries|e]; cbv iota beta; [|exact Ht1].
  apply (forEach_invariant
           (fun c => viewport (_map (fst c)) = None /\ tidy c) createMarker entries);
    [|split; assumption].
  intros x c [Hc1 Hc2]. split.
  - rewrite createMarker_viewport. exact Hc1.
  - apply createMarker_tidy; assumption.
Qed.

(** On a map without a view every call keeps a session tidy. *)
Lemma perform_tidy call c :
  viewport (_map (fst c)) = None -> tidy c -> tidy (snd (perform call c)).
Proof.
  intros Hv. destruct call; simpl; try (intros Ht; exact Ht).
  (* the calls left are those that touch layers, markers or the host *)
  - destruct c as [s e0].
    unfold onViewChange, onMapViewChange, bind, update_this, modify, this, gets, host,
      clearTimeout, setTimeout, bind, gets, modify, ret. simpl.
    destruct (_debouncer s); simpl; apply tidy_frame;
      destruct s as [? ? ? ? ? [] ? ?]; destruct e0; reflexivity || (simpl; lia).
  - destruct c as [s e0]. unfold sendChange, bind, this, gets, host, sendMessage, modify,
      throw. simpl.
    destruct (viewport (_map s)); simpl; [|intros Ht; exact Ht].
    apply tidy_frame; destruct e0; reflexivity || (simpl; lia).
  - apply drawGeoJSON_tidy.
  - destruct c as [s e0].
    unfold highlightFeature, bind, update_this, modify, mapInfo_update, throw. simpl.
    apply tidy_frame;
      [destruct s; reflexivity | destruct s; reflexivity
      |destruct s as [? ? [l|] ? ? ? ? ?]; reflexivity | lia].
  - destruct c as [s e0].
    unfold resetHighlight, bind, this, gets, update_this, modify, mapInfo_update, throw.
    simpl. destruct (_lastGeoJSON s) as [l|] eqn:Hl; simpl; [|intros Ht; exact Ht].
    apply tidy_frame;
      [destruct s; reflexivity | destruct s; reflexivity
      |destruct s; simpl in *; rewrite Hl; reflexivity | lia].
  - destruct c as [s e0]. unfold zoomToFeature, bind, this, gets, host, sendMessage, modify,
      ret. simpl.
    destruct (_lastGeoJSON s ≫= _); simpl; [|intros Ht; exact Ht].
    apply tidy_frame; destruct e0; reflexivity || (simpl; lia).
  - apply updateMarkers_tidy, Hv.
  - destruct c as [s e0]. unfold openPopup, update_this, modify. simpl.
    apply tidy_frame; [destruct s; reflexivity | | destruct s; reflexivity | lia].
    clear Hv. destruct s as [? ? ? ms ? ? ? ?]. simpl. revert i.
    induction ms as [|m ms IH]; intros [|i]; simpl; try reflexivity.
    f_equal. apply IH.
Qed.

(** * Further properties *)

(** ** What a computation keeps *)

Lemma preserves_ret {S A} (P : S -> Prop) (a : A) : preserves P (ret a).
Proof. intros c Hc. exact Hc. Qed.

Lemma preserves_throw {S A} (P : S -> Prop) (e : JsError) :
  preserves P (throw e : Eff S A).
Proof. intros c Hc. exact Hc. Qed.

Lemma preserves_gets {S A} (P : S -> Prop) (f : S -> A) : preserves P (gets f).
Proof. intros c Hc. exact Hc. Qed.

Lemma preserves_pure {S A} (P : S -> Prop) (o : Outcome A) :
  preserves P (pure_outcome o : Eff S A).
Proof. intros c Hc. exact Hc. Qed.

Lemma preserves_modify {S} (P : S -> Prop) (f : S -> S) :
  (forall c, P c -> P (f c)) -> preserves P (modify f).
Proof. intros Hf c Hc. apply Hf, Hc. Qed.

Lemma preserves_bind {S A B} (P : S -> Prop) (m : Eff S A) (k : A -> Eff S B) :
  preserves P m -> (forall x, preserves P (k x)) -> preserves P (bind m k).
Proof.
  intros Hm Hk c Hc. unfold bind. specialize (Hm c Hc).
  destruct (m c) as [[x|e] c1]; simpl in *; [apply Hk, Hm|exact Hm].
Qed.

Lemma preserves_forEach {S A} (P : S -> Prop) (f : A -> Eff S unit) (l : list A) :
  (forall x, preserves P (f x)) -> preserves P (forEach f l).
Proof.
  intros Hf. induction l as [|x l IH]; simpl.
  - apply preserves_ret.
  - apply preserves_bind; [apply Hf|intros _; exact IH].
Qed.

Lemma preserves_mapM {S A B} (P : S -> Prop) (f : A -> Eff S B) (l : list A) :
  (forall x, preserves P (f x)) -> preserves P (mapM f l).
Proof.
  intros Hf. induction l as [|x l IH]; simpl.
  - apply preserves_ret.
  - apply preserves_bind; [apply Hf|intros y].
    apply preserves_bind; [exact IH|intros ys; apply preserves_ret].
Qed.

Lemma preserves_host {A} (P : Env -> Prop) (c : Eff Env A) :
  preserves P c -> preserves (fun x : Cell => P (snd x)) (host c).
Proof.
  intros Hc [s e] He. unfold host. simpl in *. specialize (Hc e He).
  destruct (c e) as [o e']. exact Hc.
Qed.

Lemma preserves_host_this {A} (P : LeafletMap -> Prop) (c : Eff Env A) :
  preserves (fun x : Cell => P (fst x)) (host c).
Proof. intros [s e] Hs. unfold host. simpl in *. destruct (c e). exact Hs. Qed.

Lemma preserves_update_this (P : Cell -> Prop) (f : LeafletMap -> LeafletMap) :
  (forall s e, P (s, e) -> P (f s, e)) -> preserves P (update_this f).
Proof. intros Hf [s e] Hc. apply Hf, Hc. Qed.

Lemma preserves_on_env {A} (P : Env -> Prop) (c : Eff Env A) :
  preserves P c -> preserves (fun w : World => P (env w)) (on_env c).
Proof.
  intros Hc w Hw. unfold on_env. specialize (Hc (env w) Hw).
  destruct (c (env w)) as [o e']. exact Hc.
Qed.

Lemma preserves_invoke (P : Env -> Prop) (a : addr) (m : Eff Cell unit) :
  preserves (fun x : Cell => P (snd x)) m ->
  preserves (fun w : World => P (env w)) (invoke a m).
Proof.
  intros Hm w Hw. unfold invoke. destruct (heap w !! a) as [s|]; [|exact Hw].
  specialize (Hm (s, env w) Hw). destruct (m (s, env w)) as [o [s' e']]. exact Hm.
Qed.

(** Taking the computation apart, down to the writes. *)
Ltac keeps :=
  repeat first
    [ apply preserves_ret | apply preserves_throw | apply preserves_gets
    | apply preserves_pure
    | apply preserves_bind; [|intros ?]
    | apply preserves_forEach; intros ?
    | apply preserves_mapM; intros ?
    | match goal with
      | |- preserves _ (match ?x with _ => _ end) => destruct x
      end ].

(** A computation on the host, or a method of the class, keeps what
    [P] says of the host when none of its writes touches it. *)
Ltac env_kept P :=
  unfold onViewChange, onMapViewChange, sendChange, addGeoJSON, drawGeoJSON,
    highlightFeature, resetHighlight, zoomToFeature, updateLegend, updateMarkers,
    createMarker, loadingShow, loadingHide, onReady, onClick, openPopup,
    mapInfo_update, L_geoJson, addLayer, removeLayer, fresh_uid, this,
    new_LeafletMap, L_map, L_tileLayer_addTo, jsonToLatLng, newJavascriptError,
    debug, sendMessage, setTimeout, clearTimeout;
  repeat first
    [ progress keeps
    | apply (preserves_host P)
    | apply (preserves_update_this (fun c : Cell => P (snd c)));
      let s := fresh "s" in
      let e := fresh "e" in
      let Hs := fresh "Hs" in
      intros s e Hs; exact Hs
    | apply preserves_modify;
      let e := fresh "e" in
      let He := fresh "He" in
      intros e He; destruct e; exact He ].

(** ** The constructor, in two halves *)

Lemma new_LeafletMap_parts id layer height options layerOptions e :
  new_LeafletMap id layer height options layerOptions e
  = (let* options' := convert_center options in
     finish_LeafletMap id layer layerOptions options') e.
Proof.
  unfold new_LeafletMap, convert_center, finish_LeafletMap, bind, pure_outcome.
  destruct (get_prop options "center") as [center|]; [|reflexivity].
  destruct (ToBoolean center); [|reflexivity].
  destruct (jsonToLatLng center e) as [[c|] e1]; reflexivity.
Qed.

Lemma convert_center_quiet options e :
  outbox (snd (convert_center options e)) = outbox e
  /\ used (snd (convert_center options e)) = used e.
Proof.
  assert (Hk : preserves (fun e0 => outbox e0 = outbox e /\ used e0 = used e)
                         (convert_center options)).
  { unfold convert_center.
    env_kept (fun e0 : Env => outbox e0 = outbox e /\ used e0 = used e). }
  apply Hk. split; reflexivity.
Qed.

(** What the second half sends: nothing, or the [leaflet/onDidLoad]
    of the new session. *)
Lemma finish_LeafletMap_outbox id layer layerOptions options' e :
  outbox (snd (finish_LeafletMap id layer layerOptions options' e)) = outbox e
  \/ outbox (snd (finish_LeafletMap id layer layerOptions options' e))
     = outbox e ++ [load_message id].
Proof.
  unfold finish_LeafletMap, L_map, L_tileLayer_addTo, bind, gets, modify, throw, ret,
    sendMessage, modify. simpl.
  destruct (negb (in_page leaflet _) || bool_decide _); [left; reflexivity|].
  destruct (L_map_accepts leaflet _ options'); [|left; destruct e; reflexivity]. simpl.
  destruct (has_view options'); simpl;
    destruct (L_tileLayer_accepts leaflet layer layerOptions _);
    first [left; destruct e; reflexivity | right; destruct e; reflexivity].
Qed.

Lemma new_LeafletMap_outbox id layer height options layerOptions e :
  outbox (snd (new_LeafletMap id layer height options layerOptions e)) = outbox e
  \/ outbox (snd (new_LeafletMap id layer height options layerOptions e))
     = outbox e ++ [load_message id].
Proof.
  rewrite new_LeafletMap_parts. unfold bind.
  pose proof (convert_center_quiet options e) as [Ho _].
  destruct (convert_center options e) as [[options'|err] e1]; simpl in Ho.
  - rewrite <- Ho. apply finish_LeafletMap_outbox.
  - left. exact Ho.
Qed.

(** ** The listener and the traffic with the controller *)

(** X10. An inbound envelope other than [leaflet/enterStep] sets or
    cancels no timer, whatever its tag and payload and whether it
    returns or raises.  It sends nothing to the controller either,
    unless it is [leaflet/initialize]: that one sends nothing, or the
    [leaflet/onDidLoad] of the session it makes and nothing else. *)
Theorem X10_envelopes_send_nothing (w : World) (message : string) (data : value) :
  message <> "leaflet/enterStep" ->
  let r := didReceiveMessage message data w in
  timers (env (snd r)) = timers (env w)
  /\ (message <> "leaflet/initialize" -> outbox (env (snd r)) = outbox (env w))
  /\ (outbox (env (snd r)) = outbox (env w)
      \/ outbox (env (snd r)) = outbox (env w) ++ [load_message (prop_of data "mapId")]).
Proof.
  intros Hne r. apply String.eqb_neq in Hne.
  assert (Ht : preserves (fun w0 : World => timers (env w0) = timers (env w))
                         (didReceiveMessage message data)).
  { unfold didReceiveMessage, not_a_function. keeps;
      try (apply preserves_modify; intros w0 Hw0; exact Hw0);
      try (apply (preserves_on_env (fun e => timers e = timers (env w)));
           env_kept (fun e : Env => timers e = timers (env w)));
      try (apply (preserves_invoke (fun e => timers e = timers (env w)));
           env_kept (fun e : Env => timers e = timers (env w))). }
  assert (Ho : message <> "leaflet/initialize" ->
               outbox (env (snd r)) = outbox (env w)).
  { intros Hi. apply String.eqb_neq in Hi.
    assert (Hk : preserves (fun w0 : World => outbox (env w0) = outbox (env w))
                           (didReceiveMessage message data)).
    { unfold didReceiveMessage, not_a_function. rewrite Hne, Hi. cbn [andb].
      keeps;
        try (apply preserves_modify; intros w0 Hw0; exact Hw0);
        try (apply (preserves_invoke (fun e => outbox e = outbox (env w)));
             env_kept (fun e : Env => outbox e = outbox (env w))). }
    apply Hk. reflexivity. }
  split; [apply Ht; reflexivity|]. split; [exact Ho|].
  destruct (String.eqb message "leaflet/initialize") eqn:Hi.
  - apply String.eqb_eq in Hi. subst message.
    unfold r, didReceiveMessage, bind, gets, pure_outcome, ret, modify. simpl.
    unfold on_env at 1. unfold debug, modify. simpl.
    assert (Hc : forall x, outbox (set_console x (env w)) = outbox (env w))
      by (intros x; destruct (env w); reflexivity).
    destruct (readable data) eqn:Hd.
    + rewrite !(get_prop_readable data _ Hd). unfold on_env. simpl.
      match goal with
      | |- context [new_LeafletMap ?a ?b ?c ?d ?e ?f] =>
          pose proof (new_LeafletMap_outbox a b c d e f) as Hn;
          destruct (new_LeafletMap a b c d e f) as [[s|err] e']
      end; rewrite Hc in Hn; exact Hn.
    + left. destruct data; try discriminate; apply Hc.
  - left. apply Ho. intros ->. discriminate.
Qed.

(** ** Sessions live on *)

(** A method of the class keeps a field of the session it does not
    assign: [P] speaks of that field. *)
Ltac session_keeps P :=
  unfold onViewChange, onMapViewChange, sendChange, addGeoJSON, drawGeoJSON,
    highlightFeature, resetHighlight, zoomToFeature, updateLegend, updateMarkers,
    createMarker, loadingShow, loadingHide, onReady, onClick, openPopup,
    mapInfo_update, L_geoJson, addLayer, removeLayer, fresh_uid, this;
  keeps;
  try (apply (preserves_host_this P));
  try (let s := fresh "s" in
       let e := fresh "e" in
       let Hs := fresh "Hs" in
       apply preserves_update_this; intros s e Hs; cbn [fst snd] in *;
       repeat match goal with
              | |- context [decide ?p] => destruct (decide p)
              end;
       destruct s as [? ? ? ? ? [] ? ?]; exact Hs).

Lemma invoke_keeps_session (a b : addr) (id : value) (m : Eff Cell unit) :
  (forall id', preserves (fun c : Cell => _id (fst c) = id') m) ->
  preserves (fun w : World => exists s, heap w !! a = Some s /\ _id s = id)
            (invoke b m).
Proof.
  intros Hm w (s & Ha & Hid). unfold invoke.
  destruct (heap w !! b) as [sb|] eqn:Hb; [|eauto].
  specialize (Hm (_id sb) (sb, env w) eq_refl).
  destruct (m (sb, env w)) as [o [s' e']]. simpl in *.
  destruct (decide (a = b)) as [->|Hne].
  - exists s'. split.
    + apply list_lookup_insert_eq. eapply lookup_lt_Some, Hb.
    + congruence.
  - exists s. split; [|exact Hid]. rewrite list_lookup_insert_ne by congruence. exact Ha.
Qed.

Lemma didReceiveMessage_keeps_session (a : addr) (id : value) message data :
  preserves (fun w : World => exists s, heap w !! a = Some s /\ _id s = id)
            (didReceiveMessage message data).
Proof.
  unfold didReceiveMessage, not_a_function. keeps;
    try (apply preserves_modify; intros w0 (s & Ha & Hid); exists s; split;
         [simpl; try apply lookup_app_l_Some; exact Ha|exact Hid]);
    try (intros w0 Hw0; unfold on_env;
         match goal with |- context [?c (env w0)] => destruct (c (env w0)) end;
         exact Hw0).
  all: apply invoke_keeps_session; intros id';
    session_keeps (fun s : LeafletMap => _id s = id').
Qed.

Lemma fire_all_keeps_session (a : addr) (id : value) (ts : list Timer) (w : World) :
  (exists s, heap w !! a = Some s /\ _id s = id) ->
  exists s, heap (snd (fire_all ts w)) !! a = Some s /\ _id s = id.
Proof.
  revert w. induction ts as [|t ts IH]; intros w Hw; simpl; [exact Hw|].
  assert (Hs : forall id', preserves (fun c : Cell => _id (fst c) = id') sendChange)
    by (intros id'; session_keeps (fun s : LeafletMap => _id s = id')).
  pose proof (invoke_keeps_session a (timer_this t) id sendChange Hs
                (set_env (set_now (due t) (env w)) w) Hw) as H1.
  destruct (invoke _ _ _) as [o w1]. simpl in H1.
  specialize (IH w1 H1). destruct (fire_all ts w1) as [errs w2]. exact IH.
Qed.

Lemma step_keeps_session (a : addr) (id : value) (ev : Event) (w : World) :
  (exists s, heap w !! a = Some s /\ _id s = id) ->
  exists s, heap (snd (step ev w)) !! a = Some s /\ _id s = id.
Proof.
  intros Hw. destruct ev; simpl;
    try (apply invoke_keeps_session; [|exact Hw]; intros id';
         session_keeps (fun s : LeafletMap => _id s = id')).
  - exact Hw.
  - apply didReceiveMessage_keeps_session, Hw.
  - unfold elapse.
    pose proof (fire_all_keeps_session a id
                  (filter (fun t => due t <= now (env w) + dt) (timers (env w)))
                  (set_env (set_timers
                     (filter (fun t => ~ due t <= now (env w) + dt) (timers (env w)))
                     (env w)) w) Hw) as H1.
    destruct (fire_all _ _) as [errs w']. exact H1.
Qed.

Lemma run_keeps_session (a : addr) (id : value) (evs : list Event) (w : World) :
  (exists s, heap w !! a = Some s /\ _id s = id) ->
  exists s, heap (run evs w) !! a = Some s /\ _id s = id.
Proof.
  revert w. induction evs as [|ev evs IH]; intros w Hw; simpl; [exact Hw|].
  apply IH, step_keeps_session, Hw.
Qed.

(** X18. A session, once made, is there for good and keeps its id:
    whatever events follow, its address still holds a session with the
    same id.  No code removes a session or writes [_id]. *)
Theorem X18_sessions_are_never_destroyed (evs : list Event) (w : World) (a : addr)
  (s : LeafletMap) :
  heap w !! a = Some s ->
  exists s', heap (run evs w) !! a = Some s' /\ _id s' = _id s.
Proof. intros Ha. apply run_keeps_session. eauto. Qed.

(** ** The step cache *)

Lemma strict_eq_null (v : value) : strict_eq v VNull = true <-> v = VNull.
Proof. destruct v; simpl; split; congruence. Qed.

Lemma didReceiveMessage_cache message data w :
  _currentStepCache (manager (snd (didReceiveMessage message data w)))
  = _currentStepCache (manager w).
Proof.
  assert (Hk : preserves (fun w0 : World => _currentStepCache (manager w0)
                                            = _currentStepCache (manager w))
                         (didReceiveMessage message data)).
  { unfold didReceiveMessage, not_a_function. keeps;
      try (apply preserves_modify; intros w0 Hw0; exact Hw0);
      try (intros w0 Hw0; unfold on_env;
           match goal with |- context [?c (env w0)] => destruct (c (env w0)) end;
           exact Hw0);
      intros w0 Hw0; rewrite invoke_manager; exact Hw0. }
  apply Hk. reflexivity.
Qed.

Lemma step_cache ev w :
  match ev with EnterStep _ => false | _ => true end = true ->
  _currentStepCache (manager (snd (step ev w))) = _currentStepCache (manager w).
Proof.
  destruct ev; simpl; try discriminate; intros _;
    try (unfold handled; simpl; rewrite invoke_manager; reflexivity).
  - apply didReceiveMessage_cache.
  - unfold elapse. destruct (fire_all _ _) as [errs w'] eqn:Hf. simpl.
    change w' with (snd (errs, w')). rewrite <- Hf, fire_all_manager. reflexivity.
Qed.

Lemma run_cache evs w :
  no_step_entry evs = true ->
  _currentStepCache (manager (run evs w)) = _currentStepCache (manager w).
Proof.
  revert w. induction evs as [|ev evs IH]; intros w Hn; simpl; [reflexivity|].
  simpl in Hn. apply andb_prop in Hn as [Hev Hn].
  rewrite (IH _ Hn). apply step_cache, Hev.
Qed.

(** X1. Once a step has been entered with an id other than [null], and
    as long as no other step is entered, a [leaflet/enterStep] envelope
    is answered with one [onDidEnterStep] carrying that same id,
    whatever happened in between and whatever the payload; the registry,
    the sessions and the timers are left alone. *)
Theorem X1_enterStep_resends_the_step (w : World) (stepId : value) (evs : list Event)
  (data : value) :
  stepId <> VNull ->
  no_step_entry evs = true ->
  let w1 := run (EnterStep stepId :: evs) w in
  let r := didReceiveMessage "leaflet/enterStep" data w1 in
  fst r = Ret tt
  /\ outbox (env (snd r)) = outbox (env w1) ++ [step_message stepId]
  /\ manager (snd r) = manager w1
  /\ heap (snd r) = heap w1
  /\ timers (env (snd r)) = timers (env w1).
Proof.
  intros Hid Hn w1 r.
  assert (Hc : _currentStepCache (manager w1) = stepId).
  { unfold w1. cbn [run]. rewrite (run_cache _ _ Hn). reflexivity. }
  assert (Hs : strict_eq stepId VNull = false).
  { destruct (strict_eq stepId VNull) eqn:He; [|reflexivity].
    apply strict_eq_null in He. contradiction. }
  unfold r, didReceiveMessage, bind, gets. cbn [fst snd]. rewrite Hc, Hs. simpl.
  unfold on_env, debug, sendMessage, modify, step_message. simpl.
  destruct w1 as [mg h [? ? ? ? ? ? ? ?]]. simpl. repeat split.
Qed.

(** X2. With no step cached, [leaflet/enterStep] is not answered: the
    envelope goes on to the map lookup like an unknown tag, sends
    nothing and changes no state; without a payload to read [mapId]
    from, it raises. *)
Theorem X2_enterStep_without_a_step (w : World) (data : value) :
  _currentStepCache (manager w) = VNull ->
  snd (didReceiveMessage "leaflet/enterStep" data w) = w
  /\ (readable data = false ->
      fst (didReceiveMessage "leaflet/enterStep" data w) = Throw TypeError).
Proof.
  intros Hc. unfold didReceiveMessage, bind, gets, pure_outcome, ret. cbn [fst snd].
  rewrite Hc. simpl. split.
  - destruct (get_prop data "mapId") as [mapId|]; [|reflexivity].
    destruct (getMap mapId w); reflexivity.
  - intros Hr. destruct data; try discriminate; reflexivity.
Qed.

(** ** The icon table *)

Lemma icons_get_put_eq k i t : icons_get k (icons_put k i t) = Some i.
Proof.
  induction t as [|[k' i'] t IH]; simpl.
  - rewrite String.eqb_refl. reflexivity.
  - destruct (String.eqb k k') eqn:He; simpl; rewrite ?String.eqb_refl, ?He;
      [reflexivity|exact IH].
Qed.

Lemma icons_get_put_ne k k0 i t : k <> k0 -> icons_get k (icons_put k0 i t) = icons_get k t.
Proof.
  intros Hne. induction t as [|[k' i'] t IH]; simpl.
  - apply String.eqb_neq in Hne. rewrite Hne. reflexivity.
  - destruct (String.eqb k0 k') eqn:He; simpl.
    + apply String.eqb_eq in He. subst k'.
      apply String.eqb_neq in Hne. rewrite Hne. reflexivity.
    + destruct (String.eqb k k'); [reflexivity|exact IH].
Qed.


Lemma icons_set_keeps k k0 i t t' :
  icons_set k0 i t = Ret t' -> is_Some (icons_get k t) -> is_Some (icons_get k t').
Proof.
  unfold icons_set. destruct (String.eqb k0 "length"); [discriminate|].
  intros [= <-] Hs. destruct (decide (k = k0)) as [->|Hne].
  - rewrite icons_get_put_eq. eauto.
  - rewrite icons_get_put_ne by exact Hne. exact Hs.
Qed.

Lemma didReceiveMessage_keeps_icon k message data :
  preserves (fun w : World => is_Some (icons_get k (_icons (manager w))))
            (didReceiveMessage message data).
Proof.
  unfold didReceiveMessage, not_a_function.
  apply preserves_bind; [apply preserves_gets|]. intros cache.
  destruct (String.eqb message "leaflet/enterStep" && negb (strict_eq cache VNull)).
  { keeps; intros w0 Hw0; unfold on_env;
      match goal with |- context [?c (env w0)] => destruct (c (env w0)) end;
      exact Hw0. }
  destruct (String.eqb message "leaflet/icon/create").
  { intros w0 Hw0. unfold bind, pure_outcome, gets, modify.
    destruct (get_prop data "iconId") as [iconId|]; [|exact Hw0].
    destruct (get_prop data "options") as [options|]; [|exact Hw0]. cbn [fst snd].
    destruct (icons_set _ _ _) as [t'|] eqn:Hset; [|exact Hw0].
    simpl. exact (icons_set_keeps _ _ _ _ _ Hset Hw0). }
  keeps;
    try (apply preserves_modify; intros w0 Hw0; simpl; exact Hw0);
    try (intros w0 Hw0; unfold on_env;
         match goal with |- context [?c (env w0)] => destruct (c (env w0)) end;
         exact Hw0);
    intros w0 Hw0; rewrite invoke_manager; exact Hw0.
Qed.

Lemma step_keeps_icon k ev w :
  is_Some (icons_get k (_icons (manager w))) ->
  is_Some (icons_get k (_icons (manager (snd (step ev w))))).
Proof.
  intros Hw. destruct ev; simpl;
    try (unfold handled; simpl; rewrite invoke_manager; exact Hw).
  - exact Hw.
  - apply didReceiveMessage_keeps_icon, Hw.
  - unfold elapse. destruct (fire_all _ _) as [errs w'] eqn:Hf. simpl.
    change w' with (snd (errs, w')). rewrite <- Hf, fire_all_manager. exact Hw.
Qed.

(** X4. An icon id, once installed, stays in the table through every
    later event: entries are replaced by [leaflet/icon/create] under
    the same key, and never removed. *)
Theorem X4_icons_are_never_removed (evs : list Event) (w : World) (k : string) :
  is_Some (icons_get k (_icons (manager w))) ->
  is_Some (icons_get k (_icons (manager (run evs w)))).
Proof.
  revert w. induction evs as [|ev evs IH]; intros w Hw; simpl; [exact Hw|].
  apply IH, step_keeps_icon, Hw.
Qed.

(** X5. [getIcon] never hands out an icon for an id other than
    [undefined]: it returns [undefined], or raises on the first index of
    the array that was never set.  The icons are stored as properties of
    the array under their id, and hold no [id] of their own to compare
    with. *)
Theorem X5_getIcon_finds_no_icon (iconId : value) (m : Manager) :
  iconId <> VUndef ->
  getIcon iconId m = Ret None \/ getIcon iconId m = Throw TypeError.
Proof.
  intros Hid. unfold getIcon.
  destruct (_ || _); [right; reflexivity|].
  generalize (N.to_nat (icons_length (_icons m))) as left.
  generalize 0%N as k. intros k left. revert k.
  induction left as [|left IH]; intros k; simpl; [left; reflexivity|].
  destruct (icons_get (pretty k) (_icons m)); [|right; reflexivity].
  destruct iconId; try contradiction; simpl; apply IH.
Qed.

(** ** Looking a session up *)

Lemma strict_eq_true (a b : value) :
  strict_eq a b = true -> a = b /\ primitive a = true.
Proof.
  destruct a, b; simpl; try discriminate; intros He; split; try reflexivity.
  - apply bool_decide_eq_true in He. congruence.
  - apply bool_decide_eq_true in He. congruence.
  - apply String.eqb_eq in He. congruence.
Qed.

Lemma find_map_first h mapId l a :
  find_map h mapId l = Some a <->
  exists l1 l2, l = l1 ++ a :: l2
                /\ matches h mapId a = true
                /\ forallb (fun b => negb (matches h mapId b)) l1 = true.
Proof.
  induction l as [|b l IH]; simpl.
  - split; [discriminate|]. intros (l1 & l2 & Hl & _). destruct l1; discriminate.
  - assert (Hm : matches h mapId b
                 = match h !! b with
                   | Some s => strict_eq (getId s) mapId
                   | None => false
                   end) by reflexivity.
    destruct (matches h mapId b) eqn:Hb.
    + assert (Hf : match h !! b with
                   | Some s => if strict_eq (getId s) mapId then Some b
                               else find_map h mapId l
                   | None => find_map h mapId l
                   end = Some b).
      { destruct (h !! b) as [s|]; [|discriminate]. rewrite <- Hm. reflexivity. }
      rewrite Hf. split.
      * intros [= <-]. exists [], l. repeat split. exact Hb.
      * intros (l1 & l2 & Hl & Ha & Hn). destruct l1 as [|b' l1]; simpl in *.
        -- congruence.
        -- injection Hl as <- _. rewrite Hb in Hn. discriminate.
    + assert (Hf : match h !! b with
                   | Some s => if strict_eq (getId s) mapId then Some b
                               else find_map h mapId l
                   | None => find_map h mapId l
                   end = find_map h mapId l).
      { destruct (h !! b) as [s|]; [|reflexivity]. rewrite <- Hm. reflexivity. }
      rewrite Hf, IH. split.
      * intros (l1 & l2 & Hl & Ha & Hn). exists (b :: l1), l2. simpl.
        rewrite Hl, Hb. repeat split; assumption.
      * intros (l1 & l2 & Hl & Ha & Hn). destruct l1 as [|b' l1]; simpl in *.
        -- injection Hl as <- _. congruence.
        -- injection Hl as <- ->. apply andb_prop in Hn as [_ Hn].
           exists l1, l2. repeat split; assumption.
Qed.

(** X20. [getMap] returns the first registered session whose id is
    strictly equal to the id asked for: sessions registered earlier do
    not match, and when two sessions carry the id the later one is never
    found.  A match has the very same id, of the same type, and an id
    that is an array or an object matches nothing. *)
Theorem X20_getMap_finds_the_first_match (w : World) (mapId : value) (a : addr) :
  (getMap mapId w = Some a <->
   exists l1 l2,
     _maps (manager w) = l1 ++ a :: l2
     /\ matches (heap w) mapId a = true
     /\ forallb (fun b => negb (matches (heap w) mapId b)) l1 = true)
  /\ (getMap mapId w = Some a ->
      exists s, heap w !! a = Some s /\ _id s = mapId /\ primitive mapId = true).
Proof.
  split; [apply find_map_first|].
  intros Hg. destruct (getMap_Some _ _ _ Hg) as (s & Ha & He).
  apply strict_eq_true in He as [<- Hp]. eauto.
Qed.

(** ** One session at a time *)

Lemma invoke_heap_other (a b : addr) (m : Eff Cell unit) (w : World) :
  a <> b -> heap (snd (invoke a m w)) !! b = heap w !! b.
Proof.
  intros Hne. unfold invoke. destruct (heap w !! a) as [s|]; [|reflexivity].
  destruct (m (s, env w)) as [o [s' e']]. simpl.
  apply list_lookup_insert_ne. exact Hne.
Qed.

(** X9. An envelope changes the state of no session but the one its
    [mapId] is registered for: every other session is found afterwards
    exactly as it was, whatever the tag. *)
Theorem X9_other_sessions_are_untouched (w : World) (message : string) (data : value)
  (b : addr) (s : LeafletMap) :
  heap w !! b = Some s ->
  (forall mapId, get_prop data "mapId" = Ret mapId -> getMap mapId w <> Some b) ->
  heap (snd (didReceiveMessage message data w)) !! b = Some s.
Proof.
  intros Hb Hother.
  unfold didReceiveMessage, bind, gets, pure_outcome, ret, modify, not_a_function, throw.
  cbn [fst snd].
  destruct (String.eqb message "leaflet/enterStep"
            && negb (strict_eq (_currentStepCache (manager w)) VNull)).
  { unfold on_env, debug, sendMessage, modify. exact Hb. }
  destruct (String.eqb message "leaflet/icon/create").
  { destruct (get_prop data "iconId"); [|exact Hb].
    destruct (get_prop data "options"); [|exact Hb].
    destruct (icons_set _ _ _); exact Hb. }
  destruct (String.eqb message "leaflet/initialize").
  { unfold on_env at 1. unfold debug, modify. simpl.
    destruct (get_prop data "mapId"); [|exact Hb].
    destruct (get_prop data "layer"); [|exact Hb].
    destruct (get_prop data "height"); [|exact Hb].
    destruct (get_prop data "options"); [|exact Hb].
    destruct (get_prop data "layerOptions"); [|exact Hb].
    unfold on_env. simpl.
    destruct (new_LeafletMap _ _ _ _ _ _) as [[s0|e] e']; simpl; [|exact Hb].
    apply lookup_app_l_Some, Hb. }
  destruct (get_prop data "mapId") as [mapId|] eqn:Hd; [|exact Hb].
  specialize (Hother mapId eq_refl).
  destruct (getMap mapId w) as [a|]; [|exact Hb].
  assert (Hne : a <> b) by congruence.
  repeat match goal with
  | |- context [if String.eqb message ?t then _ else _] =>
      destruct (String.eqb message t)
  | |- context [match get_prop data ?k with _ => _ end] =>
      destruct (get_prop data k)
  | |- context [invoke ?a ?m ?w] => rewrite (invoke_heap_other a b m w Hne)
  | |- _ => exact Hb
  end.
Qed.

(** ** Making a session *)




Lemma jsonToLatLng_malformed obj e :
  ToBoolean obj = true ->
  well_formed obj = false ->
  jsonToLatLng obj e
  = (Throw (JavascriptError "Could not convert an object to a LatLng object!"),
     set_reported (reported e ++ ["Could not convert an object to a LatLng object!"]) e).
Proof.
  unfold jsonToLatLng, bind, pure_outcome, newJavascriptError, bind, modify, throw, ret.
  destruct obj as [| | b | n | str | l | fs]; simpl; try discriminate; try reflexivity.
  destruct (assoc "lat" fs) as [vlat|]; simpl; [|reflexivity].
  destruct (assoc "lng" fs) as [vlng|]; simpl.
  - destruct vlat; simpl; try reflexivity. destruct vlng; simpl; try reflexivity.
    discriminate.
  - destruct vlat; reflexivity.
Qed.








(** X7. [leaflet/initialize] makes no session when it cannot: without
    a payload, or without options in it, reading them raises a
    [TypeError]; with a centre that is given but malformed, the
    construction error is reported.  The sessions, the registry and the
    messages sent are then as before. *)
Theorem X7_initialize_fails_without_a_session (w : World) (data : value) :
  readable data && readable (prop_of data "options")
  && centre_usable (prop_of data "options") = false ->
  let r := didReceiveMessage "leaflet/initialize" data w in
  fst r = Throw (if readable data && readable (prop_of data "options")
                 then JavascriptError "Could not convert an object to a LatLng object!"
                 else TypeError)
  /\ heap (snd r) = heap w
  /\ manager (snd r) = manager w
  /\ outbox (env (snd r)) = outbox (env w)
  /\ (readable data && readable (prop_of data "options") = true ->
      reported (env (snd r))
      = reported (env w) ++ ["Could not convert an object to a LatLng object!"]).
Proof.
  intros Hbad r.
  unfold r, didReceiveMessage, bind, gets, pure_outcome, ret, modify. cbn [fst snd].
  simpl. unfold on_env at 1. unfold debug, modify. simpl.
  destruct (readable data) eqn:Hd.
  - rewrite !(get_prop_readable data _ Hd). unfold on_env. simpl.
    unfold new_LeafletMap, bind, pure_outcome, ret.
    destruct (readable (prop_of data "options")) eqn:Ho; simpl in Hbad |- *.
    + rewrite (get_prop_readable _ "center" Ho).
      unfold centre_usable in Hbad. apply orb_false_iff in Hbad as [Ht Hw].
      apply negb_false_iff in Ht. rewrite Ht.
      rewrite (jsonToLatLng_malformed _ _ Ht Hw). simpl.
      destruct w as [mg h [? ? ? ? ? ? ? ?]]. simpl. repeat split.
    + destruct (prop_of data "options"); try discriminate; simpl;
        destruct w as [mg h [? ? ? ? ? ? ? ?]]; simpl; repeat split; discriminate.
  - destruct data; try discriminate; simpl;
      destruct w as [mg h [? ? ? ? ? ? ? ?]]; simpl; repeat split; discriminate.
Qed.



(** ** Zones: from the queue to the map *)

Lemma without_last_queue s : _queueGeoJSON (without_last s) = _queueGeoJSON s.
Proof. unfold without_last. destruct (_lastGeoJSON s); reflexivity. Qed.


Lemma feature_of_outcome z :
  feature_of z = if isMultiple (entry_points z) && negb (isArray (entry_points z))
                 then Throw TypeError else Ret (feature_of_sequence z).
Proof.
  unfold feature_of, feature_of_sequence. destruct z as [pts zid ztip zcol]. simpl.
  destruct (isMultiple pts); destruct pts; reflexivity.
Qed.


Lemma collect_blocked (q : list ZoneEntry) (z : ZoneEntry) :
  z ∈ q ->
  isMultiple (entry_points z) = true ->
  isArray (entry_points z) = false ->
  collect feature_of q = Throw TypeError.
Proof.
  intros Hin Hm Ha. induction q as [|x q IH]; [inversion Hin|].
  simpl. rewrite (feature_of_outcome x).
  destruct (isMultiple (entry_points x) && negb (isArray (entry_points x))) eqn:Hx;
    simpl; [reflexivity|].
  rewrite IH; [reflexivity|].
  apply elem_of_cons in Hin as [->|Hin]; [|exact Hin].
  rewrite Hm, Ha in Hx. discriminate.
Qed.

Lemma drawGeoJSON_unbuilt s e0 err :
  collect feature_of (_queueGeoJSON s) = Throw err ->
  drawGeoJSON (s, e0) = (Throw err, (without_last s, e0)).
Proof.
  intros Hc. unfold drawGeoJSON.
  assert (Hq : forall s0 : LeafletMap,
             mapM (fun e => pure_outcome (feature_of e)) (_queueGeoJSON s) (s0, e0)
             = (Throw err, (s0, e0))) by (intros; rewrite mapM_pure, Hc; reflexivity).
  unfold bind, this, gets, without_last, removeLayer, update_this, modify, ret.
  simpl. destruct (_lastGeoJSON s) as [l0|]; simpl; rewrite Hq; reflexivity.
Qed.

Lemma add_all_queue (zs : list ZoneEntry) : forall s e0,
  add_all zs (s, e0) = (Ret tt, (set_queueGeoJSON (_queueGeoJSON s ++ zs) s, e0)).
Proof.
  unfold add_all. induction zs as [|z zs IH]; intros s e0; simpl.
  - unfold ret. rewrite app_nil_r. destruct s; reflexivity.
  - unfold bind, addGeoJSON, update_this, modify. simpl. rewrite IH.
    destruct s, z; simpl. rewrite <- app_assoc. reflexivity.
Qed.


(** X12. An entry whose [points] passes the [isMultiple] test without
    being an array (an object with a property ["0"] holding an array of
    arrays) cannot be written as a feature: [drawGeoJSON] raises
    [TypeError] before it empties the queue.  The entry stays, so every
    later [drawGeoJSON] raises too, whatever zones are added in
    between, and the queue only grows. *)
Theorem X12_unbuildable_entry_blocks_the_queue (s : LeafletMap) (e0 : Env)
  (z : ZoneEntry) :
  z ∈ _queueGeoJSON s ->
  isMultiple (entry_points z) = true ->
  isArray (entry_points z) = false ->
  drawGeoJSON (s, e0) = (Throw TypeError, (without_last s, e0))
  /\ _queueGeoJSON (without_last s) = _queueGeoJSON s
  /\ forall zs : list ZoneEntry,
       let c1 := snd (add_all zs (without_last s, e0)) in
       fst (drawGeoJSON c1) = Throw TypeError
       /\ _queueGeoJSON (fst (snd (drawGeoJSON c1))) = _queueGeoJSON s ++ zs.
Proof.
  intros Hin Hm Ha. split; [|split].
  - apply drawGeoJSON_unbuilt. eapply collect_blocked; eassumption.
  - apply without_last_queue.
  - intros zs c1. unfold c1. rewrite add_all_queue. cbn [snd].
    rewrite without_last_queue.
    rewrite (drawGeoJSON_unbuilt _ e0 TypeError).
    + cbn [fst snd]. split; [reflexivity|]. rewrite without_last_queue.
      destruct (without_last s); reflexivity.
    + apply (collect_blocked _ z); try assumption.
      replace (_queueGeoJSON (set_queueGeoJSON (_queueGeoJSON s ++ zs) (without_last s)))
        with (_queueGeoJSON s ++ zs) by (destruct (without_last s); reflexivity).
      apply elem_of_app. left. exact Hin.
Qed.


(** ** Zones under the pointer *)

Lemma alter_restore (i : nat) (fls : list FeatureLayer) :
  Forall (fun fl => style fl = zone_style (feature fl)) fls ->
  alter (fun fl => {| feature := feature fl; style := zone_style (feature fl) |}) i
    (alter (fun fl => {| feature := feature fl; style := highlight_style (style fl) |})
           i fls)
  = fls.
Proof.
  intros Hall. revert i. induction Hall as [|fl fls Hfl _ IH]; intros [|i]; simpl;
    try reflexivity.
  - destruct fl as [f st]. simpl in *. rewrite Hfl. reflexivity.
  - f_equal. apply IH.
Qed.

(** X17. Moving the pointer onto a feature of a freshly drawn layer and
    off again gives every feature the style it was drawn with; what
    stays of the visit is the paint order, in which the feature is now
    the front one. *)
Theorem X17_hover_out_restores_the_style (i : nat) (s : LeafletMap) (e0 : Env)
  (l : GeoJSONLayer) :
  _lastGeoJSON s = Some l ->
  Forall (fun fl => style fl = zone_style (feature fl)) (layer_features l) ->
  let c1 := snd (highlightFeature i (s, e0)) in
  let c2 := snd (resetHighlight i c1) in
  exists l2,
    _lastGeoJSON (fst c2) = Some l2
    /\ layer_features l2 = layer_features l
    /\ layer_uid l2 = layer_uid l
    /\ paint_order l2 = filter (fun j => j <> i) (paint_order l) ++ [i]
    /\ snd c2 = e0.
Proof.
  intros Hl Hall c1 c2. unfold c2, c1.
  unfold highlightFeature, resetHighlight, bind, this, gets, update_this, modify,
    mapInfo_update, throw. simpl. rewrite Hl. simpl.
  eexists. split; [reflexivity|]. simpl. split; [apply alter_restore, Hall|].
  repeat split.
Qed.

(** ** Markers *)

Lemma forEach_app {S A} (f : A -> Eff S unit) (l1 l2 : list A) (c : S) :
  forEach f (l1 ++ l2) c
  = match forEach f l1 c with
    | (Ret _, c') => forEach f l2 c'
    | (Throw e, c') => (Throw e, c')
    end.
Proof.
  revert c. induction l1 as [|x l1 IH]; intros c; simpl; [reflexivity|].
  unfold bind. destruct (f x c) as [[[]|e] c']; [apply IH|reflexivity].
Qed.

(** X14. [updateMarkers] with something else than an array where the
    markers should be (the payload had no [markers], or an object):
    the markers there are removed from the map and forgotten, and only
    then does the call raise [TypeError]. *)
Theorem X14_updateMarkers_without_an_array (markers : value) (s : LeafletMap) (e0 : Env) :
  isArray markers = false ->
  updateMarkers markers (s, e0)
  = (Throw TypeError,
     (set_markers []
        (set_shown (filter (fun u => u ∉ map marker_uid (_markers s))
                           (shown_layers (_map s))) s), e0)).
Proof.
  intros Ha. unfold updateMarkers, bind, this, gets.
  cbn [fst snd]. rewrite forEach_removeLayer.
  destruct markers; try discriminate; reflexivity.
Qed.

Lemma createMarker_bad m c :
  placeable m = false ->
  createMarker m c = (Throw (if readable m then WidgetError else TypeError), c).
Proof.
  destruct c as [s e0]. unfold placeable. intros Hp.
  unfold createMarker, bind, pure_outcome.
  destruct (readable m) eqn:Hr.
  - rewrite !(get_prop_readable m _ Hr). unfold this, gets. cbn [fst snd].
    simpl in Hp. rewrite Hp. reflexivity.
  - destruct m; try discriminate; reflexivity.
Qed.

(** X15. On a map without a view, [updateMarkers] stops at the first
    entry it cannot place: one it cannot read ([null] or [undefined]),
    which raises [TypeError], or one whose position the library refuses.
    The entries before it have their markers, made and kept as in a
    replacement by those entries alone, and the entries after it are
    never looked at. *)
Theorem X15_updateMarkers_stops_at_the_first_bad_entry (pre post : list value)
  (bad : value) (s : LeafletMap) (e0 : Env) :
  tidy (s, e0) ->
  viewport (_map s) = None ->
  forallb placeable pre = true ->
  placeable bad = false ->
  let r := updateMarkers (VArr (pre ++ bad :: post)) (s, e0) in
  fst r = Throw (if readable bad then WidgetError else TypeError)
  /\ snd r = snd (updateMarkers (VArr pre) (s, e0))
  /\ _markers (fst (snd r)) = new_markers (next_uid e0) pre
  /\ length (_markers (fst (snd r))) = length pre.
Proof.
  intros (_ & Hlt & _) Hv Hpre Hbad r. unfold r.
  rewrite !updateMarkers_array, forEach_app.
  simpl in Hlt.
  rewrite forEach_createMarker;
    [|exact Hpre|destruct s as [? ? ? ? ? [] ? ?]; exact Hv
     |simpl; apply Forall_filter_keep; exact Hlt].
  assert (Hthrow : forall c, forEach createMarker (bad :: post) c
                             = (Throw (if readable bad then WidgetError else TypeError), c)).
  { intros c. cbn [forEach]. unfold bind. rewrite (createMarker_bad bad c Hbad).
    reflexivity. }
  rewrite Hthrow. cbn [fst snd]. repeat split. apply new_markers_length.
Qed.

(** X27. On a session whose map shows the markers it keeps and has no
    view yet, a replacement with entries the library can place returns
    normally; afterwards the session keeps one marker per entry, in the
    order of the entries and built from them, these are the markers on
    the map, and no marker it kept before is on the map.  With no entry
    at all, no marker is left. *)
Theorem X27_replacement_on_a_map_without_a_view (s : LeafletMap) (e0 : Env)
  (entries : list value) :
  tidy (s, e0) ->
  viewport (_map s) = None ->
  forallb placeable entries = true ->
  exists s' e',
    updateMarkers (VArr entries) (s, e0) = (Ret tt, (s', e'))
    /\ _markers s' = new_markers (next_uid e0) entries
    /\ length (_markers s') = length entries
    /\ marker_layers s' = map marker_uid (_markers s')
    /\ (forall m, m ∈ _markers s -> marker_uid m ∉ shown_layers (_map s'))
    /\ (entries = [] -> _markers s' = [] /\ marker_layers s' = [])
    /\ tidy (s', e').
Proof.
  intros (Hvis & Hold & Hgeo) Hv Hr. simpl in Hvis, Hold, Hgeo.
  rewrite (updateMarkers_placed entries s e0 Hr Hv Hold).
  eexists _, _. split; [reflexivity|].
  set (n := next_uid e0). set (k := length entries).
  set (kept := filter (fun u => u ∉ map marker_uid (_markers s)) (shown_layers (_map s))).
  assert (Hm : _markers (set_markers (new_markers n entries)
                           (set_shown (kept ++ seq n k) s)) = new_markers n entries)
    by (destruct s as [? ? ? ? ? [] ? ?]; reflexivity).
  assert (Hsh : shown_layers (_map (set_markers (new_markers n entries)
                                      (set_shown (kept ++ seq n k) s))) = kept ++ seq n k)
    by (destruct s as [? ? ? ? ? [] ? ?]; reflexivity).
  assert (Hlg : _lastGeoJSON (set_markers (new_markers n entries)
                                (set_shown (kept ++ seq n k) s)) = _lastGeoJSON s)
    by (destruct s as [? ? ? ? ? [] ? ?]; reflexivity).
  assert (Hlayers : marker_layers (set_markers (new_markers n entries)
                                     (set_shown (kept ++ seq n k) s)) = seq n k).
  { unfold marker_layers. rewrite Hsh, Hlg, filter_app. unfold kept.
    rewrite filter_swap. fold (marker_layers s). rewrite Hvis.
    rewrite filter_none.
    2:{ apply Forall_forall. intros u Hu Hn. contradiction. }
    simpl. apply filter_all. apply Forall_forall. intros u Hu Heq.
    apply elem_of_seq in Hu.
    destruct (_lastGeoJSON s) as [l|]; [|discriminate].
    simpl in Heq. injection Heq as ->. specialize (Hgeo l eq_refl). unfold n in Hu. lia. }
  split; [exact Hm|]. split; [rewrite Hm; apply new_markers_length|].
  split; [rewrite Hlayers, Hm, new_markers_uids; reflexivity|].
  split.
  { intros m Hin. rewrite Hsh. intros Hu. apply elem_of_app in Hu as [Hu|Hu].
    - unfold kept in Hu. apply list_elem_of_filter in Hu as [Hu _]. apply Hu.
      apply list_elem_of_fmap. exists m. split; [reflexivity|exact Hin].
    - apply elem_of_seq in Hu.
      assert (Hlt : marker_uid m < n).
      { rewrite Forall_forall in Hold. apply Hold.
        assert (Hml : marker_uid m ∈ marker_layers s).
        { rewrite Hvis. apply list_elem_of_fmap. exists m. split; [reflexivity|exact Hin]. }
        unfold marker_layers in Hml. apply list_elem_of_filter in Hml as [_ Hml].
        exact Hml. }
      lia. }
  split.
  { intros ->. rewrite Hlayers, Hm. split; reflexivity. }
  unfold tidy. cbn [fst snd]. split; [rewrite Hlayers, Hm, new_markers_uids; reflexivity|].
  split.
  - rewrite Hsh. assert (Hnu : next_uid (set_next_uid (n + k) e0) = n + k)
      by (destruct e0; reflexivity).
    rewrite Hnu. apply Forall_app. split.
    + unfold kept. apply Forall_filter_keep. eapply Forall_impl; [exact Hold|].
      simpl. intros u Hu. unfold n. lia.
    + apply Forall_forall. intros u Hu. apply elem_of_seq in Hu. lia.
  - rewrite Hlg. intros l Hl. specialize (Hgeo l Hl).
    destruct e0; simpl in *. unfold n. simpl. lia.
Qed.

(** ** What holds of a session through all its calls *)

(** No call takes the view of a map away. *)
Lemma perform_viewport call c :
  viewport (_map (fst (snd (perform call c)))) = None -> viewport (_map (fst c)) = None.
Proof.
  assert (Hk : forall x call',
             (forall a v, call' <> Call_onViewChange a v) ->
             preserves (fun c : Cell => viewport (_map (fst c)) = x) (perform call')).
  { intros x call' Hne. destruct call'; simpl; try (exfalso; eapply Hne; reflexivity);
      session_keeps (fun s : LeafletMap => viewport (_map s) = x). }
  destruct call;
    try (intros Hn; rewrite <- Hn; symmetry; apply Hk; [intros; discriminate|reflexivity]).
  simpl. unfold onViewChange, bind, update_this, modify. cbn [fst snd].
  assert (Hm : preserves (fun c : Cell => viewport (_map (fst c)) = Some v)
                         (onMapViewChange self))
    by session_keeps (fun s : LeafletMap => viewport (_map s) = Some v).
  intros Hn.
  rewrite (Hm (set_map (set_viewport (Some v) (_map (fst c))) (fst c), snd c)) in Hn;
    [discriminate|].
  destruct c as [[? ? ? ? ? [] ? ?] ?]. reflexivity.
Qed.

Lemma perform_all_viewport calls c :
  viewport (_map (fst (perform_all calls c))) = None -> viewport (_map (fst c)) = None.
Proof.
  revert c. induction calls as [|call calls IH]; intros c Hn; simpl in Hn; [exact Hn|].
  apply (perform_viewport call), IH, Hn.
Qed.

Lemma perform_all_tidy calls c :
  viewport (_map (fst (perform_all calls c))) = None ->
  tidy c -> tidy (perform_all calls c).
Proof.
  revert c. induction calls as [|call calls IH]; intros c Hn Hc; simpl; [exact Hc|].
  simpl in Hn. apply IH; [exact Hn|].
  apply perform_tidy; [|exact Hc].
  apply (perform_viewport call), (perform_all_viewport calls), Hn.
Qed.

(** X13. Whatever calls a session receives after its construction,
    and however they end, as long as its map has no view the layers on
    the map are accounted for: each is one of the markers the session
    keeps or its current GeoJSON layer, and each marker it keeps is on
    the map and is not that layer. *)
Theorem X13_layers_on_the_map_are_owned (id layer height options layerOptions : value)
  (e e' e1 : Env) (s : LeafletMap) (calls : list Call) :
  new_LeafletMap id layer height options layerOptions e = (Ret s, e') ->
  let s' := fst (perform_all calls (s, e1)) in
  viewport (_map s') = None ->
  (forall u, u ∈ shown_layers (_map s') ->
     u ∈ map marker_uid (_markers s')
     \/ exists l, _lastGeoJSON s' = Some l /\ layer_uid l = u)
  /\ (forall m, m ∈ _markers s' ->
        marker_uid m ∈ shown_layers (_map s')
        /\ forall l, _lastGeoJSON s' = Some l -> layer_uid l <> marker_uid m).
Proof.
  intros Hn s' Hv.
  pose proof (perform_all_tidy calls (s, e1) Hv
                (new_LeafletMap_tidy _ _ _ _ _ _ _ _ e1 Hn)) as (Hm & _ & _).
  fold s' in Hm. unfold marker_layers in Hm. split.
  - intros u Hu.
    destruct (decide (Some u = layer_uid <$> _lastGeoJSON s')) as [Heq|Hne].
    + right. destruct (_lastGeoJSON s') as [l|]; [|discriminate].
      exists l. split; [reflexivity|]. simpl in Heq. congruence.
    + left. rewrite <- Hm. apply list_elem_of_filter. split; assumption.
  - intros m Hin.
    assert (Hu : marker_uid m ∈ map marker_uid (_markers s'))
      by (apply list_elem_of_fmap; exists m; split; [reflexivity|exact Hin]).
    rewrite <- Hm in Hu. apply list_elem_of_filter in Hu as [Hne Hu].
    split; [exact Hu|]. intros l Hl Heq. apply Hne. rewrite Hl. simpl. congruence.
Qed.

Lemma perform_legend (call : Call) (c : Cell) :
  _legendDiv (fst (snd (perform call c)))
  = match call with
    | Call_updateLegend content => content
    | _ => _legendDiv (fst c)
    end.
Proof.
  assert (Hk : forall v call',
             (forall content, call' <> Call_updateLegend content) ->
             preserves (fun c : Cell => _legendDiv (fst c) = v) (perform call')).
  { intros v call' Hne. destruct call'; simpl; try (exfalso; eapply Hne; reflexivity);
      unfold onViewChange, onMapViewChange, sendChange, addGeoJSON, drawGeoJSON,
        highlightFeature, resetHighlight, zoomToFeature, updateMarkers,
        createMarker, loadingShow, loadingHide, onReady, onClick, openPopup,
        mapInfo_update, L_geoJson, addLayer, removeLayer, fresh_uid, this;
      keeps;
      try (apply (preserves_host_this (fun s => _legendDiv s = v)));
      try (apply preserves_update_this; intros s0 e0 Hs; cbn [fst snd] in *;
           repeat match goal with
                  | |- context [decide ?p] => destruct (decide p)
                  end;
           destruct s0 as [? ? ? ? ? [] ? ?]; exact Hs). }
  destruct call; try (apply Hk; [intros content; discriminate|reflexivity]).
  destruct c as [s0 e0]. destruct s0. reflexivity.
Qed.

(** X24. Of all the calls a session receives only [updateLegend]
    writes the legend: after any sequence of calls the legend shows the
    content of the last [updateLegend] among them, and what it showed
    before when there is none. *)
Theorem X24_only_updateLegend_writes_the_legend (calls : list Call) (c : Cell) :
  _legendDiv (fst (perform_all calls c)) = legend_after calls (_legendDiv (fst c)).
Proof.
  unfold legend_after. revert c. induction calls as [|call calls IH]; intros c; simpl;
    [reflexivity|].
  rewrite IH, perform_legend. destruct call; reflexivity.
Qed.

(** ** The page over time *)

Lemma run_app (evs1 evs2 : list Event) (w : World) :
  run (evs1 ++ evs2) w = run evs2 (run evs1 w).
Proof. revert w. induction evs1 as [|ev evs1 IH]; intros w; simpl; [reflexivity|apply IH]. Qed.

Lemma one_burst (a : addr) (s : LeafletMap) (b : Burst) (w : World) :
  heap w !! a = Some s ->
  timers (env w) = [] ->
  burst_ok b = true ->
  outbox (env (run (burst_events a b) w))
  = outbox (env w) ++ [view_message (_id s) (burst_view b)]
  /\ timers (env (run (burst_events a b) w)) = [].
Proof.
  destruct b as [[v0 changes] quiet]. intros Ha Ht Hok. unfold burst_ok in Hok.
  apply andb_true_iff in Hok as [Hsp Hq]. apply Nat.leb_le in Hq.
  pose proof (quiet_change_arms a s v0 w Ha Ht) as Harm.
  destruct (burst_then_quiet a (_id s) (outbox (env w)) quiet changes Hq v0 _ Harm Hsp)
    as (Ho & Htm & _).
  cbn [burst_events run burst_view]. split; assumption.
Qed.

(** X19. The debouncer serves again after it has fired: over any
    number of bursts of view changes on a session, each made of changes
    less than 200 ms apart and followed by 200 ms of quiet or more, the
    controller is sent one [onDidChangeView] per burst, in order, each
    with the viewport the burst ended on; no timer is left pending. *)
Theorem X19_one_notification_per_burst (a : addr) (s : LeafletMap) (bs : list Burst)
  (w : World) :
  heap w !! a = Some s ->
  timers (env w) = [] ->
  forallb burst_ok bs = true ->
  let evs := concat (map (burst_events a) bs) in
  outbox (env (run evs w))
  = outbox (env w) ++ map (fun b => view_message (_id s) (burst_view b)) bs
  /\ timers (env (run evs w)) = [].
Proof.
  intros Ha Ht Hok. cbv zeta. revert s w Ha Ht.
  induction bs as [|b bs IH]; intros s w Ha Ht; simpl.
  - rewrite app_nil_r. split; [reflexivity|exact Ht].
  - simpl in Hok. apply andb_true_iff in Hok as [Hb Hok].
    rewrite run_app.
    destruct (one_burst a s b w Ha Ht Hb) as [Ho Htm].
    destruct (run_keeps_session a (_id s) (burst_events a b) w
                (ex_intro _ s (conj Ha eq_refl))) as (s1 & Ha1 & Hid).
    destruct (IH Hok s1 _ Ha1 Htm) as [Ho' Htm'].
    split; [|exact Htm'].
    rewrite Ho', Ho, Hid, <- app_assoc. reflexivity.
Qed.


(** X23. The envelopes [leaflet/map/view], [leaflet/map/zoom] and
    [leaflet/map/fit] never change the state, on any page: the class
    declares no [setView], [setZoom] or [fitBounds], so for a
    registered session the call raises [TypeError], and otherwise the
    envelope is dropped or its payload cannot be read. *)
Theorem X23_view_envelopes_change_nothing (w : World) (data : value) :
  Forall (fun message =>
            snd (didReceiveMessage message data w) = w
            /\ forall mapId a,
                 get_prop data "mapId" = Ret mapId ->
                 getMap mapId w = Some a ->
                 didReceiveMessage message data w = (Throw TypeError, w))
         ["leaflet/map/view"; "leaflet/map/zoom"; "leaflet/map/fit"].
Proof.
  assert (Hp : forall k0 v0, get_prop data k0 = Ret v0 ->
                             forall k, exists v, get_prop data k = Ret v)
    by (intros k0 v0 Hd k; destruct data; try discriminate; simpl; eauto).
  constructor; [|constructor; [|constructor; [|constructor]]];
    unfold didReceiveMessage, bind, gets, pure_outcome, ret, not_a_function, throw;
    simpl.
  - split.
    + destruct (get_prop data "mapId") as [mapId|] eqn:Hd; [|reflexivity].
      destruct (getMap mapId w); [|reflexivity].
      destruct (Hp "mapId" mapId Hd "center") as [c ->]. destruct (Hp "mapId" mapId Hd "zoom") as [z ->].
      reflexivity.
    + intros mapId a Hd Hg. rewrite Hd, Hg.
      destruct (Hp "mapId" mapId Hd "center") as [c ->]. destruct (Hp "mapId" mapId Hd "zoom") as [z ->].
      reflexivity.
  - split.
    + destruct (get_prop data "mapId") as [mapId|] eqn:Hd; [|reflexivity].
      destruct (getMap mapId w); [|reflexivity].
      destruct (Hp "mapId" mapId Hd "zoom") as [z ->]. reflexivity.
    + intros mapId a Hd Hg. rewrite Hd, Hg.
      destruct (Hp "mapId" mapId Hd "zoom") as [z ->]. reflexivity.
  - split.
    + destruct (get_prop data "mapId") as [mapId|] eqn:Hd; [|reflexivity].
      destruct (getMap mapId w); [|reflexivity].
      destruct (Hp "mapId" mapId Hd "bounds") as [b ->]. reflexivity.
    + intros mapId a Hd Hg. rewrite Hd, Hg.
      destruct (Hp "mapId" mapId Hd "bounds") as [b ->]. reflexivity.
Qed.

(** ** What no event does to a session *)

Lemma invoke_sessions (Q : LeafletMap -> Prop) (b : addr) (m : Eff Cell unit) :
  preserves (fun c : Cell => Q (fst c)) m ->
  preserves (fun w : World => Forall Q (heap w)) (invoke b m).
Proof.
  intros Hm w Hw. unfold invoke.
  destruct (heap w !! b) as [sb|] eqn:Hb; [|exact Hw].
  assert (Hsb : Q sb) by (rewrite Forall_lookup in Hw; exact (Hw b sb Hb)).
  pose proof (Hm (sb, env w) Hsb) as Hq.
  destruct (m (sb, env w)) as [o [s' e']]. simpl in *.
  apply Forall_insert; assumption.
Qed.

Lemma new_LeafletMap_panel id layer height options layerOptions e s e' :
  new_LeafletMap id layer height options layerOptions e = (Ret s, e') ->
  _tooltip s = {| display := "none"; innerHTML := VStr "" |}.
Proof.
  intros Hn. destruct (new_LeafletMap_fresh _ _ _ _ _ _ _ _ Hn) as (m & -> & _).
  reflexivity.
Qed.

Lemma didReceiveMessage_panels (message : string) (data : value) :
  preserves (fun w : World =>
               Forall (fun s => _tooltip s = {| display := "none"; innerHTML := VStr "" |})
                      (heap w))
            (didReceiveMessage message data).
Proof.
  destruct (String.eqb message "leaflet/initialize") eqn:Hi.
  - apply String.eqb_eq in Hi. subst message. intros w Hw.
    unfold didReceiveMessage, bind, gets, pure_outcome, ret, modify.
    simpl. unfold on_env at 1. unfold debug, modify. simpl.
    destruct (get_prop data "mapId") as [mapId|]; [|exact Hw].
    destruct (get_prop data "layer") as [layer|]; [|exact Hw].
    destruct (get_prop data "height") as [height|]; [|exact Hw].
    destruct (get_prop data "options") as [options|]; [|exact Hw].
    destruct (get_prop data "layerOptions") as [layerOptions|]; [|exact Hw].
    unfold on_env. simpl.
    destruct (new_LeafletMap _ _ _ _ _ _) as [[s|err] e'] eqn:Hn; simpl; [|exact Hw].
    apply Forall_app. split; [exact Hw|]. constructor; [|constructor].
    eapply new_LeafletMap_panel, Hn.
  - unfold didReceiveMessage, not_a_function. rewrite Hi. cbv iota. keeps;
      try (apply preserves_modify; intros w0 Hw0; exact Hw0);
      try (intros w0 Hw0; unfold on_env;
           match goal with |- context [?c (env w0)] => destruct (c (env w0)) end;
           exact Hw0).
    all: apply invoke_sessions;
      session_keeps (fun s : LeafletMap =>
                       _tooltip s = {| display := "none"; innerHTML := VStr "" |}).
Qed.

Lemma fire_all_panels (ts : list Timer) (w : World) :
  Forall (fun s => _tooltip s = {| display := "none"; innerHTML := VStr "" |}) (heap w) ->
  Forall (fun s => _tooltip s = {| display := "none"; innerHTML := VStr "" |})
         (heap (snd (fire_all ts w))).
Proof.
  revert w. induction ts as [|t ts IH]; intros w Hw; simpl; [exact Hw|].
  assert (Hs : preserves (fun c : Cell =>
                            _tooltip (fst c) = {| display := "none"; innerHTML := VStr "" |})
                         sendChange)
    by (session_keeps (fun s : LeafletMap =>
                         _tooltip s = {| display := "none"; innerHTML := VStr "" |})).
  pose proof (invoke_sessions _ (timer_this t) sendChange Hs
                (set_env (set_now (due t) (env w)) w) Hw) as H1.
  simpl in H1. destruct (invoke _ _ _) as [o w1]. simpl in H1.
  specialize (IH w1 H1). destruct (fire_all ts w1) as [errs w2]. exact IH.
Qed.

Lemma step_panels (ev : Event) (w : World) :
  Forall (fun s => _tooltip s = {| display := "none"; innerHTML := VStr "" |}) (heap w) ->
  Forall (fun s => _tooltip s = {| display := "none"; innerHTML := VStr "" |})
         (heap (snd (step ev w))).
Proof.
  intros Hw. destruct ev; simpl;
    try (apply invoke_sessions; [|exact Hw];
         session_keeps (fun s : LeafletMap =>
                          _tooltip s = {| display := "none"; innerHTML := VStr "" |})).
  - exact Hw.
  - apply didReceiveMessage_panels, Hw.
  - unfold elapse.
    pose proof (fire_all_panels
                  (filter (fun t => due t <= now (env w) + dt) (timers (env w)))
                  (set_env (set_timers
                     (filter (fun t => ~ due t <= now (env w) + dt) (timers (env w)))
                     (env w)) w) Hw) as H1.
    destruct (fire_all _ _) as [errs w']. exact H1.
Qed.

(** X25. The information panel is never shown.  On every page the
    module can reach, whatever was received and whatever the user did,
    the panel of every session is hidden and empty, as the constructor
    left it: the hover listeners look for the panel in a member that
    does not exist, and nothing else writes it. *)
Theorem X25_the_information_panel_is_never_shown (evs : list Event) (a : addr)
  (s : LeafletMap) :
  heap (run evs initial_world) !! a = Some s ->
  _tooltip s = {| display := "none"; innerHTML := VStr "" |}.
Proof.
  intros Ha.
  assert (Hall : forall w,
             Forall (fun s0 => _tooltip s0 = {| display := "none"; innerHTML := VStr "" |})
                    (heap w) ->
             Forall (fun s0 => _tooltip s0 = {| display := "none"; innerHTML := VStr "" |})
                    (heap (run evs w))).
  { clear Ha. induction evs as [|ev evs IH]; intros w Hw; simpl; [exact Hw|].
    apply IH, step_panels, Hw. }
  specialize (Hall initial_world (Forall_nil_2 _)).
  rewrite Forall_lookup in Hall. exact (Hall a s Ha).
Qed.

(** ** What the controller is sent *)

Lemma sent_since_refl (e : Env) : sent_since (outbox e) e.
Proof. exists []. split; [symmetry; apply app_nil_r|constructor]. Qed.

Lemma sendMessage_sent (o : list Message) (t : string) (data : value) :
  t ∈ outbound_tags ->
  preserves (sent_since o) (sendMessage "r" t data).
Proof.
  intros Ht. apply preserves_modify. intros e (new & Ho & Hall).
  exists (new ++ [{| target := "r"; tag := t; payload := data |}]). split.
  - destruct e. simpl in *. rewrite Ho, app_assoc. reflexivity.
  - apply Forall_app. split; [exact Hall|]. constructor; [|constructor].
    split; [reflexivity|exact Ht].
Qed.

Lemma quiet_sent (o : list Message) (f : Env -> Env) :
  (forall e, outbox (f e) = outbox e) ->
  preserves (sent_since o) (modify f).
Proof.
  intros Hf. apply preserves_modify. intros e (new & Ho & Hall).
  exists new. rewrite Hf. split; assumption.
Qed.

(** A method of the class sends the module's messages only. *)
Ltac sends o :=
  unfold onViewChange, onMapViewChange, sendChange, addGeoJSON, drawGeoJSON,
    highlightFeature, resetHighlight, zoomToFeature, updateLegend, updateMarkers,
    createMarker, loadingShow, loadingHide, onReady, onClick, openPopup,
    mapInfo_update, L_geoJson, addLayer, removeLayer, fresh_uid, this,
    new_LeafletMap, L_map, L_tileLayer_addTo, jsonToLatLng, newJavascriptError, debug,
    setTimeout, clearTimeout;
  repeat first
    [ progress keeps
    | apply (preserves_host (sent_since o))
    | apply (preserves_update_this (fun c : Cell => sent_since o (snd c)));
      let s := fresh "s" in
      let e := fresh "e" in
      let Hs := fresh "Hs" in
      intros s e Hs; exact Hs
    | apply sendMessage_sent; repeat constructor
    | apply quiet_sent;
      let e := fresh "e" in intros e; destruct e; reflexivity ].

Lemma didEnterStep_sent (o : list Message) (stepId : value) :
  preserves (fun w : World => sent_since o (env w)) (didEnterStep stepId).
Proof.
  unfold didEnterStep. keeps.
  - apply (preserves_on_env (sent_since o)). sends o.
  - apply preserves_modify. intros w Hw. exact Hw.
  - apply (preserves_on_env (sent_since o)). sends o.
Qed.

Lemma didReceiveMessage_sent (o : list Message) (message : string) (data : value) :
  preserves (fun w : World => sent_since o (env w)) (didReceiveMessage message data).
Proof.
  unfold didReceiveMessage, not_a_function. keeps;
    try (apply preserves_modify; intros w0 Hw0; exact Hw0);
    try (apply (preserves_on_env (sent_since o)); sends o);
    try (apply (preserves_invoke (sent_since o)); sends o).
Qed.

Lemma fire_all_sent (o : list Message) (ts : list Timer) (w : World) :
  sent_since o (env w) -> sent_since o (env (snd (fire_all ts w))).
Proof.
  revert w. induction ts as [|t ts IH]; intros w Hw; simpl; [exact Hw|].
  assert (Hs : preserves (fun c : Cell => sent_since o (snd c)) sendChange)
    by (sends o).
  assert (Hw1 : sent_since o (env (set_env (set_now (due t) (env w)) w)))
    by (destruct w as [mg h []]; exact Hw).
  pose proof (preserves_invoke (sent_since o) (timer_this t) sendChange Hs _ Hw1) as H1.
  simpl in H1. destruct (invoke _ _ _) as [o1 w1]. simpl in H1.
  specialize (IH w1 H1). destruct (fire_all ts w1) as [errs w2]. exact IH.
Qed.

Lemma step_sent (o : list Message) (ev : Event) (w : World) :
  sent_since o (env w) -> sent_since o (env (snd (step ev w))).
Proof.
  intros Hw. destruct ev; simpl;
    try (apply (preserves_invoke (sent_since o)); [|exact Hw]; sends o).
  - apply didEnterStep_sent, Hw.
  - apply didReceiveMessage_sent, Hw.
  - unfold elapse.
    assert (Hw1 : sent_since o
                    (env (set_env
                            (set_timers
                               (filter (fun t => ~ due t <= now (env w) + dt)
                                       (timers (env w))) (env w)) w)))
      by (destruct w as [mg h []]; exact Hw).
    pose proof (fire_all_sent o
                  (filter (fun t => due t <= now (env w) + dt) (timers (env w))) _ Hw1)
      as H1.
    destruct (fire_all _ _) as [errs w']. simpl in *.
    destruct w' as [mg' h' []]. exact H1.
Qed.

(** X22. What the controller has been sent is never taken back, and
    everything the module sends, whatever happens on the page, is
    addressed to ["r"] under one of five tags: [leaflet/onDidEnterStep],
    [leaflet/onDidLoad], [leaflet/onDidClickMap],
    [leaflet/onDidChangeView] and [onDidClickZone], the last one
    without the [leaflet/] prefix of the others. *)
Theorem X22_only_the_five_tags_are_sent (evs : list Event) (w : World) :
  exists new,
    outbox (env (run evs w)) = outbox (env w) ++ new
    /\ Forall (fun m => target m = "r" /\ tag m ∈ outbound_tags) new.
Proof.
  change (sent_since (outbox (env w)) (env (run evs w))).
  generalize (sent_since_refl (env w)). generalize (outbox (env w)) as o.
  intros o. revert w. induction evs as [|ev evs IH]; intros w Hw; simpl; [exact Hw|].
  apply IH, step_sent, Hw.
Qed.

(** ** The pending timers *)

Lemma enqueue_elem (t t' : Timer) (q : list Timer) :
  t' ∈ enqueue t q <-> t' = t \/ t' ∈ q.
Proof.
  induction q as [|x q IH]; simpl.
  - rewrite list_elem_of_singleton, elem_of_nil. tauto.
  - destruct (Nat.leb (due x) (due t)).
    + rewrite !elem_of_cons, IH. tauto.
    + rewrite !elem_of_cons. tauto.
Qed.

Lemma enqueue_ids (t : Timer) (q : list Timer) :
  timer_id t ∉ map timer_id q ->
  NoDup (map timer_id q) ->
  NoDup (map timer_id (enqueue t q)).
Proof.
  induction q as [|x q IH]; simpl; intros Hnew Hq.
  - apply NoDup_singleton.
  - apply NoDup_cons in Hq as [Hx Hq]. rewrite elem_of_cons in Hnew.
    destruct (Nat.leb (due x) (due t)); simpl.
    + apply NoDup_cons. split; [|apply IH; tauto].
      intros Hin. apply list_elem_of_fmap in Hin as (y & Hy & Hin).
      apply enqueue_elem in Hin as [->|Hin]; [apply Hnew; left; congruence|].
      apply Hx. apply list_elem_of_fmap. exists y. split; assumption.
    + apply NoDup_cons. split; [rewrite elem_of_cons; tauto|].
      apply NoDup_cons. split; assumption.
Qed.

Lemma filter_ids (P : Timer -> Prop) `{forall t, Decision (P t)} (q : list Timer) :
  NoDup (map timer_id q) -> NoDup (map timer_id (filter P q)).
Proof.
  induction q as [|x q IH]; simpl; intros Hq; [constructor|].
  apply NoDup_cons in Hq as [Hx Hq]. rewrite filter_cons.
  destruct (decide (P x)); [|apply IH, Hq].
  simpl. apply NoDup_cons. split; [|apply IH, Hq].
  intros Hin. apply Hx. apply list_elem_of_fmap in Hin as (y & Hy & Hin).
  apply list_elem_of_filter in Hin as [_ Hin].
  apply list_elem_of_fmap. exists y. split; assumption.
Qed.

(** The state after an event that sets no timer. *)
Lemma owned_frame (w w' : World) :
  (forall t, t ∈ timers (env w') -> t ∈ timers (env w)) ->
  (NoDup (map timer_id (timers (env w))) -> NoDup (map timer_id (timers (env w')))) ->
  next_timer (env w') = next_timer (env w) ->
  (forall a d, (exists s, heap w !! a = Some s /\ _debouncer s = d) ->
               exists s', heap w' !! a = Some s' /\ _debouncer s' = d) ->
  timers_owned w -> timers_owned w'.
Proof.
  intros Hsub Hnd Hnext Hkeep [Hown Hids]. split; [|apply Hnd, Hids].
  intros t Ht. destruct (Hown t (Hsub t Ht)) as (Hlt & Hs).
  split; [rewrite Hnext; exact Hlt|]. apply Hkeep, Hs.
Qed.

(** A method other than the view-change listener leaves the timers
    and the counter of their ids alone. *)
Ltac clock_kept t n :=
  unfold sendChange, addGeoJSON, drawGeoJSON,
    highlightFeature, resetHighlight, zoomToFeature, updateLegend, updateMarkers,
    createMarker, loadingShow, loadingHide, onReady, onClick, openPopup,
    mapInfo_update, L_geoJson, addLayer, removeLayer, fresh_uid, this,
    new_LeafletMap, L_map, L_tileLayer_addTo, jsonToLatLng, newJavascriptError, debug,
    sendMessage;
  repeat first
    [ progress keeps
    | apply (preserves_host (fun e : Env => timers e = t /\ next_timer e = n))
    | apply (preserves_update_this
               (fun c : Cell => timers (snd c) = t /\ next_timer (snd c) = n));
      let s := fresh "s" in
      let e := fresh "e" in
      let Hs := fresh "Hs" in
      intros s e Hs; exact Hs
    | apply preserves_modify;
      let e := fresh "e" in
      let He := fresh "He" in
      intros e He; destruct e; exact He ].

Lemma invoke_keeps_debouncer (a b : addr) (d : option nat) (m : Eff Cell unit) :
  (forall d', preserves (fun c : Cell => _debouncer (fst c) = d') m) ->
  preserves (fun w : World => exists s, heap w !! a = Some s /\ _debouncer s = d)
            (invoke b m).
Proof.
  intros Hm w (s & Ha & Hd). unfold invoke.
  destruct (heap w !! b) as [sb|] eqn:Hb; [|eauto].
  specialize (Hm (_debouncer sb) (sb, env w) eq_refl).
  destruct (m (sb, env w)) as [o [s' e']]. simpl in *.
  destruct (decide (a = b)) as [->|Hne].
  - exists s'. split.
    + apply list_lookup_insert_eq. eapply lookup_lt_Some, Hb.
    + congruence.
  - exists s. split; [|exact Hd]. rewrite list_lookup_insert_ne by congruence. exact Ha.
Qed.

Lemma didEnterStep_owned (stepId : value) (w : World) :
  timers_owned w -> timers_owned (snd (didEnterStep stepId w)).
Proof.
  apply owned_frame; destruct w as [mg h []]; simpl; auto.
Qed.

Lemma didReceiveMessage_owned (message : string) (data : value) (w : World) :
  timers_owned w -> timers_owned (snd (didReceiveMessage message data w)).
Proof.
  assert (Hclock : preserves (fun w0 : World => timers (env w0) = timers (env w)
                                                /\ next_timer (env w0) = next_timer (env w))
                             (didReceiveMessage message data)).
  { unfold didReceiveMessage, not_a_function. keeps;
      try (apply preserves_modify; intros w0 Hw0; exact Hw0);
      try (apply (preserves_on_env (fun e : Env => timers e = timers (env w)
                                                   /\ next_timer e = next_timer (env w)));
           clock_kept (timers (env w)) (next_timer (env w)));
      try (apply (preserves_invoke (fun e : Env => timers e = timers (env w)
                                                   /\ next_timer e = next_timer (env w)));
           clock_kept (timers (env w)) (next_timer (env w))). }
  destruct (Hclock w (conj eq_refl eq_refl)) as [Ht Hn].
  apply owned_frame; [rewrite Ht; auto|rewrite Ht; auto|exact Hn|].
  intros a d. revert w Hclock Ht Hn.
  assert (Hkeep : preserves (fun w0 : World =>
                               exists s, heap w0 !! a = Some s /\ _debouncer s = d)
                            (didReceiveMessage message data)).
  { unfold didReceiveMessage, not_a_function. keeps;
      try (apply preserves_modify; intros w0 (s & Ha & Hd); exists s; split;
           [simpl; try apply lookup_app_l_Some; exact Ha|exact Hd]);
      try (intros w0 Hw0; unfold on_env;
           match goal with |- context [?c (env w0)] => destruct (c (env w0)) end;
           exact Hw0).
    all: apply invoke_keeps_debouncer; intros d';
      session_keeps (fun s : LeafletMap => _debouncer s = d'). }
  intros w _ _ _. apply Hkeep.
Qed.

Lemma listener_owned (b : addr) (m : Eff Cell unit) (w : World) :
  preserves (fun c : Cell => timers (snd c) = timers (env w)
                             /\ next_timer (snd c) = next_timer (env w)) m ->
  (forall d, preserves (fun c : Cell => _debouncer (fst c) = d) m) ->
  timers_owned w -> timers_owned (snd (invoke b m w)).
Proof.
  intros Hclock Hdeb.
  destruct (preserves_invoke (fun e : Env => timers e = timers (env w)
                                             /\ next_timer e = next_timer (env w))
              b m Hclock w (conj eq_refl eq_refl)) as [Ht Hn].
  apply owned_frame; [rewrite Ht; auto|rewrite Ht; auto|exact Hn|].
  intros a d. apply invoke_keeps_debouncer, Hdeb.
Qed.

Lemma fire_all_owned (ts : list Timer) (w : World) :
  timers_owned w -> timers_owned (snd (fire_all ts w)).
Proof.
  revert w. induction ts as [|t ts IH]; intros w Hw; simpl; [exact Hw|].
  assert (Hw1 : timers_owned (set_env (set_now (due t) (env w)) w))
    by (revert Hw; apply owned_frame; destruct w as [mg h []]; simpl; auto).
  pose proof (listener_owned (timer_this t) sendChange _
                ltac:(clock_kept (timers (env (set_env (set_now (due t) (env w)) w)))
                                 (next_timer (env (set_env (set_now (due t) (env w)) w))))
                ltac:(intros d; session_keeps (fun s : LeafletMap => _debouncer s = d))
                Hw1) as H1.
  destruct (invoke _ _ _) as [o w1]. simpl in H1.
  specialize (IH w1 H1). destruct (fire_all ts w1) as [errs w2]. exact IH.
Qed.

Lemma elapse_owned (dt : nat) (w : World) :
  timers_owned w -> timers_owned (snd (elapse dt w)).
Proof.
  intros Hw. unfold elapse.
  assert (Hw1 : timers_owned
                  (set_env (set_timers
                              (filter (fun t => ~ due t <= now (env w) + dt)
                                      (timers (env w))) (env w)) w)).
  { revert Hw. apply owned_frame; destruct w as [mg h []]; simpl; auto.
    - intros t Ht. apply list_elem_of_filter in Ht as [_ Ht]. exact Ht.
    - apply filter_ids. }
  pose proof (fire_all_owned
                (filter (fun t => due t <= now (env w) + dt) (timers (env w))) _ Hw1)
    as H1.
  destruct (fire_all _ _) as [errs w']. simpl in *.
  revert H1. apply owned_frame; destruct w' as [mg' h' []]; simpl; auto.
Qed.

(** The view-change listener: the timer the session waited on is
    cancelled and a new one, with a new id, is set in its place. *)
Lemma viewChange_owned (a : addr) (v : ViewState) (w : World) :
  timers_owned w -> timers_owned (snd (invoke a (onViewChange a v) w)).
Proof.
  intros [Hown Hids]. unfold invoke.
  destruct (heap w !! a) as [s|] eqn:Ha; [|split; assumption].
  unfold onViewChange, onMapViewChange, bind, update_this, modify, this, gets, host,
    clearTimeout, setTimeout, bind, gets, modify, ret. simpl.
  destruct w as [mg h [out cons rep nw tms nt nu us]]. simpl in *.
  assert (Hlen : a < length h) by (eapply lookup_lt_Some, Ha).
  assert (Hnew : forall q : list Timer,
             (forall t, t ∈ q -> t ∈ tms) -> nt ∉ map timer_id q).
  { intros q Hq Hin. apply list_elem_of_fmap in Hin as (t & Hid & Hin).
    destruct (Hown t (Hq t Hin)) as [Hlt _]. lia. }
  destruct s as [sid q lg ms [old|] [ct mo tl vp sh] tt ld]; simpl; split; simpl.
  - intros t Ht. apply enqueue_elem in Ht as [->|Ht]; simpl.
    + split; [lia|]. eexists. split; [apply list_lookup_insert_eq, Hlen|reflexivity].
    + apply list_elem_of_filter in Ht as [Hne Ht].
      destruct (Hown t Ht) as (Hlt & s0 & Hs0 & Hd0). split; [lia|].
      destruct (decide (timer_this t = a)) as [Heq|Hna].
      * rewrite Heq, Ha in Hs0. injection Hs0 as <-. simpl in Hd0. congruence.
      * exists s0. split; [|exact Hd0]. rewrite list_lookup_insert_ne by congruence.
        exact Hs0.
  - apply enqueue_ids; [|apply filter_ids, Hids].
    apply Hnew. intros t Ht. apply list_elem_of_filter in Ht as [_ Ht]. exact Ht.
  - intros t Ht. apply enqueue_elem in Ht as [->|Ht]; simpl.
    + split; [lia|]. eexists. split; [apply list_lookup_insert_eq, Hlen|reflexivity].
    + destruct (Hown t Ht) as (Hlt & s0 & Hs0 & Hd0). split; [lia|].
      destruct (decide (timer_this t = a)) as [Heq|Hna].
      * rewrite Heq, Ha in Hs0. injection Hs0 as <-. discriminate.
      * exists s0. split; [|exact Hd0]. rewrite list_lookup_insert_ne by congruence.
        exact Hs0.
  - apply enqueue_ids; [|exact Hids]. apply Hnew. auto.
Qed.

Lemma step_owned (ev : Event) (w : World) :
  timers_owned w -> timers_owned (snd (step ev w)).
Proof.
  intros Hw. destruct ev; simpl;
    try solve [apply listener_owned;
               [clock_kept (timers (env w)) (next_timer (env w))
               |intros d; session_keeps (fun s : LeafletMap => _debouncer s = d)
               |exact Hw]].
  - apply didEnterStep_owned, Hw.
  - apply didReceiveMessage_owned, Hw.
  - apply viewChange_owned, Hw.
  - apply elapse_owned, Hw.
Qed.

Lemma one_of_a_kind (l : list Timer) :
  NoDup (map timer_id l) ->
  (forall t1 t2, t1 ∈ l -> t2 ∈ l -> timer_id t1 = timer_id t2) ->
  length l <= 1.
Proof.
  intros Hnd Hsame. destruct l as [|x [|y l]]; simpl; try lia.
  exfalso. simpl in Hnd. apply NoDup_cons in Hnd as [Hx _]. apply Hx.
  rewrite (Hsame x y); [left| left | right; left].
Qed.

(** X26. On every page the module can reach, a session has at most
    one timer pending, and a pending timer is the one its session
    last set: several sessions may wait at once, each on its own
    timer, and a view change never leaves an older timer of its session
    behind. *)
Theorem X26_one_pending_timer_per_session (evs : list Event) (a : addr) :
  let w := run evs initial_world in
  length (pending_for a w) <= 1
  /\ forall t, t ∈ timers (env w) ->
       exists s, heap w !! timer_this t = Some s /\ _debouncer s = Some (timer_id t).
Proof.
  intros w.
  assert (Hw : timers_owned w).
  { unfold w.
    assert (H0 : timers_owned initial_world).
    { split; [intros t Ht; inversion Ht|constructor]. }
    revert H0. generalize initial_world as w0.
    induction evs as [|ev evs IH]; intros w0 H0; simpl; [exact H0|].
    apply IH, step_owned, H0. }
  destruct Hw as [Hown Hids]. split; [|intros t Ht; apply (Hown t Ht)].
  apply one_of_a_kind; [apply filter_ids, Hids|].
  intros t1 t2 H1 H2.
  apply list_elem_of_filter in H1 as [Ha1 H1]. apply list_elem_of_filter in H2 as [Ha2 H2].
  destruct (Hown t1 H1) as (_ & s1 & Hs1 & Hd1).
  destruct (Hown t2 H2) as (_ & s2 & Hs2 & Hd2).
  rewrite Ha1 in Hs1. rewrite Ha2 in Hs2. congruence.
Qed.

End Leaflet.

(** * Instances of the theorems *)

Lemma C2_flush_envelope_raises_witness :
  let data : value := VObj [("mapId", VStr "m1")] in
  (get_prop data "mapId" = Ret (VStr "m1")
   /\ getMap (number := Z) (VStr "m1") registered_world = Some 0)
  /\ didReceiveMessage (page 0%Z) "leaflet/geojson/flush" data registered_world
     = (Throw TypeError, registered_world).
Proof.
  intros data. split; [split; reflexivity|].
  apply (proj2 (C2_flush_envelope_raises (page 0%Z) registered_world data) (VStr "m1") 0);
    reflexivity.
Defined.

Lemma C10_loading_is_a_no_op_witness :
  let data : value := VObj [("mapId", VStr "m1")] in
  (get_prop data "mapId" = Ret (VStr "m1")
   /\ getMap (number := Z) (VStr "m1") registered_world = Some 0)
  /\ didReceiveMessage (page 0%Z) "leaflet/loading/show" data registered_world
     = (Ret tt, registered_world)
  /\ didReceiveMessage (page 0%Z) "leaflet/loading/false" data registered_world
     = (Ret tt, registered_world).
Proof.
  intros data. split; [split; reflexivity|].
  pose proof (C10_loading_is_a_no_op (page 0%Z) registered_world data) as Hall.
  apply Forall_cons in Hall as [[_ Hshow] Hall].
  apply Forall_cons in Hall as [[_ Hhide] _].
  split; [apply (Hshow (VStr "m1") 0)|apply (Hhide (VStr "m1") 0)]; reflexivity.
Defined.

Lemma C9_unknown_tag_or_map_is_dropped_witness :
  let stray : value := VObj [("mapId", VStr "m2"); ("markers", VArr [])] in
  let known : value := VObj [("mapId", VStr "m1")] in
  ("leaflet/markers/update" ∈ map_scoped_tags
   /\ unregistered (number := Z) stray registered_world
   /\ "leaflet/map/rotate" ∉ recognized_tags)
  /\ snd (didReceiveMessage (page 0%Z) "leaflet/markers/update" stray registered_world)
     = registered_world
  /\ snd (didReceiveMessage (page 0%Z) "leaflet/map/rotate" known registered_world)
     = registered_world.
Proof.
  intros stray known.
  assert (Hs : "leaflet/markers/update" ∈ map_scoped_tags) by (repeat constructor).
  assert (Hu : unregistered (number := Z) stray registered_world)
    by (intros mapId Hm; injection Hm as <-; reflexivity).
  assert (Hn : "leaflet/map/rotate" ∉ recognized_tags)
    by (apply (bool_decide_unpack _); vm_compute; exact I).
  split; [repeat split; assumption|]. split.
  - apply (C9_unknown_tag_or_map_is_dropped (page 0%Z)). right. split; assumption.
  - apply (C9_unknown_tag_or_map_is_dropped (page 0%Z)). left. exact Hn.
Defined.

Lemma C5_markers_never_get_an_icon_witness :
  let data : value :=
    VObj [("mapId", VStr "m1");
          ("markers", VArr [marker_entry (VNum 48%Z) (VNum 2%Z) "here" "pin"])] in
  (get_prop data "mapId" = Ret (VStr "m1")
   /\ getMap (VStr "m1") registered_world = Some 0)
  /\ exists s',
       heap (snd (didReceiveMessage (page 0%Z) "leaflet/markers/update" data registered_world)) !! 0
       = Some s'
       /\ Forall (fun m => marker_icon m = VUndef) (_markers s').
Proof.
  intros data. split; [split; reflexivity|].
  apply (proj2 (C5_markers_never_get_an_icon (page 0%Z)) registered_world data (VStr "m1") 0);
    reflexivity.
Defined.

Lemma C7_replacement_fails_on_a_map_with_a_view_witness :
  let options : @value Z :=
    VObj [("center", VObj [("lat", VNum 48%Z); ("lng", VNum 2%Z)]); ("zoom", VNum 10%Z)] in
  let s := constructed (page 0%Z) (VStr "m1") (VStr "tiles") (VObj []) options in
  let m : @value Z := marker_entry (VNum 48%Z) (VNum 2%Z) "here" "pin" in
  let r1 := updateMarkers (page 0%Z) (VArr [m]) (s, empty_env) in
  let r2 := updateMarkers (page 0%Z) (VArr []) (snd r1) in
  (fst (new_LeafletMap (page 0%Z) (VStr "m1") (VStr "tiles") (VNum 400%Z) options (VObj [])
          empty_env) = Ret s
   /\ viewport (_map s) = Some (L_map_view (page 0%Z) options)
   /\ _markers s = []
   /\ Forall (fun u => u < next_uid (@empty_env Z)) (shown_layers (_map s))
   /\ placeable (page 0%Z) m = true)
  /\ fst r1 = Throw TypeError
  /\ _markers (fst (snd r1)) = []
  /\ fst r2 = Ret tt
  /\ _markers (fst (snd r2)) = []
  /\ shown_layers (_map (fst (snd r2))) = [0].
Proof.
  intros options s m r1 r2.
  assert (Hf : Forall (fun u => u < next_uid (@empty_env Z)) (shown_layers (_map s)))
    by constructor.
  split; [repeat split; reflexivity || exact Hf|].
  destruct (C7_replacement_fails_on_a_map_with_a_view (page 0%Z) s empty_env
              (L_map_view (page 0%Z) options) m [] eq_refl eq_refl Hf) as (_ & Hm & Hp).
  destruct (Hp eq_refl) as (H1 & _ & H3 & H4 & H5).
  split; [exact H1|]. split; [exact Hm|]. split; [exact H3|]. split; [exact H4|exact H5].
Defined.

Lemma C3_view_changes_are_debounced_witness :
  let init : value :=
    VObj [("mapId", VStr "m1"); ("layer", VStr "tiles"); ("height", VNum 400%Z);
          ("options", VObj []); ("layerOptions", VObj [])] in
  let w : World := run (page 0%Z) [Receive "leaflet/initialize" init] initial_world in
  let v (z : Z) : ViewState :=
    {| northLat := 49%Z; eastLng := 3%Z; southLat := 48%Z; westLng := 2%Z;
       zoomLevel := z |} in
  let changes := [(50, v 11%Z); (199, v 12%Z)] in
  let evs := ViewChange 0 (v 10%Z) :: burst 0 changes ++ [Elapse 200] in
  (heap w !! 0 = Some (fresh_session "m1") /\ timers (env w) = []
   /\ spaced_below 200 changes = true /\ 200 <= 200)
  /\ outbox (env (run (page 0%Z) evs w))
     = outbox (env w) ++ [view_message (VStr "m1") (v 12%Z)]
  /\ timers (env (run (page 0%Z) evs w)) = []
  /\ Forall (fun w' => length (timers (env w')) <= 1) (trajectory (page 0%Z) evs w).
Proof.
  intros init w v changes evs.
  split; [repeat split; reflexivity || lia|].
  apply (C3_view_changes_are_debounced (page 0%Z) w 0 (fresh_session "m1") (v 10%Z) changes 200);
    reflexivity || lia.
Defined.


(** The two shape examples, evaluated: the flat triangle comes
    out as a [Polygon], the triangle inside a sequence as a
    [MultiPolygon]. *)
Example shape_examples :
  let s := set_queueGeoJSON
             [zone (VNum 1%Z) (triangle 0%Z 1%Z); zone (VNum 2%Z) (VArr [triangle 0%Z 1%Z])]
             (fresh_session "m1") in
  (fun l => map (fun f => (prop_id f, geometry_type f)) (features_of l))
    <$> _lastGeoJSON (fst (snd (drawGeoJSON (fun _ => true) (s, empty_env))))
  = Some [("1", Polygon); ("2", MultiPolygon)].
Proof. vm_compute. reflexivity. Qed.

(** Outside the two shapes the test decides by [points[0][0]] alone:
    under an empty first ring, which no renderer draws, the entry is
    built as a [Polygon], whatever rings follow. *)
Example empty_first_ring_is_built_as_a_polygon :
  let points : @value Z := VArr [VArr []; triangle 0%Z 1%Z] in
  nested_points points = true
  /\ first_sequence_nonempty points = false
  /\ exists fc, collect feature_of [zone (VNum 3%Z) points] = Ret fc
                /\ map geometry_type fc = [Polygon].
Proof. vm_compute. split; [reflexivity|]. split; [reflexivity|]. eexists. split; reflexivity. Qed.

(** A session is made for ["m1"], yet the registry stays empty and the
    legend update that follows is dropped: the legend keeps its first
    content. *)
Example initialize_then_legend_update :
  let init : value :=
    VObj [("mapId", VStr "m1"); ("layer", VStr "tiles"); ("height", VNum 400%Z);
          ("options", VObj []); ("layerOptions", VObj [])] in
  let update : value := VObj [("mapId", VStr "m1"); ("content", VStr "Zones")] in
  let w := run (page 0%Z) [Receive "leaflet/initialize" init] initial_world in
  map (fun s => (_id s, _legendDiv s)) (heap w) = [(VStr "m1", VStr "Légende")]
  /\ _maps (manager w) = []
  /\ step (page 0%Z) (Receive "leaflet/legend/update" update) w = ([], w).
Proof. vm_compute. repeat split. Qed.

(** Hover on the only feature of a rendered layer: the feature gets the
    emphasis style, the listener raises, and the information panel
    stays hidden and empty. *)
Example hover_on_a_rendered_feature :
  let s := set_queueGeoJSON [zone (VNum 1%Z) (triangle 0%Z 1%Z)] (fresh_session "m1") in
  let c := snd (drawGeoJSON (fun _ => true) (s, empty_env)) in
  let r := highlightFeature 0 c in
  fst r = Throw TypeError
  /\ _tooltip (fst (snd r)) = {| display := "none"; innerHTML := VStr "" |}
  /\ (fun l => map style (layer_features l)) <$> _lastGeoJSON (fst (snd r))
     = Some [{| fillColor := VStr "red"; opacity := "1"; color := "#666";
                dashArray := ""; fillOpacity := "0.7"; weight := Some "5" |}].
Proof. vm_compute. repeat split. Qed.

(** The icon table after two [leaflet/icon/create]: the icon stored
    under ["pin"] is not an element of the array, and the one stored
    under [2] leaves indices [0] and [1] unset. *)
Example getIcon_after_icon_create :
  let create (iconId : value) : Event :=
    Receive "leaflet/icon/create"
      (VObj [("iconId", iconId); ("options", VObj [("iconUrl", VStr "pin.png")])]) in
  let w1 := run (page 0%Z) [create (VStr "pin")] initial_world in
  let w2 := run (page 0%Z) [create (VNum 2%Z)] w1 in
  map fst (_icons (manager w2)) = ["pin"; "2"]
  /\ getIcon (VStr "pin") (manager w1) = Ret None
  /\ getIcon (VNum 2%Z) (manager w2) = Throw TypeError.
Proof. vm_compute. repeat split. Qed.


(** * Instances of the further properties *)

Lemma X1_enterStep_resends_the_step_witness :
  let stepId : @value Z := VStr "intro" in
  let evs : list (@Event Z) := [Receive "leaflet/icon/create" VNull] in
  (stepId <> VNull /\ no_step_entry evs = true)
  /\ outbox (env (snd (didReceiveMessage (page 0%Z) "leaflet/enterStep" VNull
                         (run (page 0%Z) (EnterStep stepId :: evs) initial_world))))
     = [step_message stepId; step_message stepId].
Proof.
  intros stepId evs. split; [split; [discriminate|reflexivity]|].
  apply (proj1 (proj2 (X1_enterStep_resends_the_step (page 0%Z) initial_world stepId evs VNull
                         ltac:(discriminate) eq_refl))).
Defined.

Lemma X2_enterStep_without_a_step_witness :
  _currentStepCache (manager (@initial_world Z)) = VNull
  /\ snd (didReceiveMessage (page 0%Z) "leaflet/enterStep" VNull (@initial_world Z)) = initial_world.
Proof.
  split; [reflexivity|].
  apply (proj1 (X2_enterStep_without_a_step (page 0%Z) initial_world VNull eq_refl)).
Defined.


Lemma X4_icons_are_never_removed_witness :
  let evs : list (@Event Z) :=
    [Receive "leaflet/icon/create" (VObj [("iconId", VStr "flag"); ("options", VObj [])]);
     Receive "leaflet/icon/remove" (VObj [("iconId", VStr "pin")])] in
  is_Some (icons_get "pin" (_icons (manager (@registered_world Z))))
  /\ is_Some (icons_get "pin" (_icons (manager (run (page 0%Z) evs registered_world)))).
Proof.
  intros evs.
  assert (Hpin : is_Some (icons_get "pin" (_icons (manager (@registered_world Z)))))
    by (eexists; reflexivity).
  split; [exact Hpin|].
  apply (X4_icons_are_never_removed (page 0%Z) evs registered_world "pin" Hpin).
Defined.

Lemma X5_getIcon_finds_no_icon_witness :
  (VStr "pin" : @value Z) <> VUndef
  /\ (getIcon (VStr "pin") (manager (@registered_world Z)) = Ret None
      \/ getIcon (VStr "pin") (manager (@registered_world Z)) = Throw TypeError).
Proof.
  split; [discriminate|].
  apply (X5_getIcon_finds_no_icon (VStr "pin") (manager registered_world)). discriminate.
Defined.


Lemma X7_initialize_fails_without_a_session_witness :
  let data : @value Z :=
    VObj [("mapId", VStr "m1"); ("options", VObj [("center", VStr "Paris")])] in
  readable data && readable (prop_of data "options")
  && centre_usable (prop_of data "options") = false
  /\ fst (didReceiveMessage (page 0%Z) "leaflet/initialize" data initial_world)
     = Throw (JavascriptError "Could not convert an object to a LatLng object!")
  /\ heap (snd (didReceiveMessage (page 0%Z) "leaflet/initialize" data initial_world)) = [].
Proof.
  intros data. split; [reflexivity|].
  pose proof (X7_initialize_fails_without_a_session (page 0%Z) initial_world data eq_refl)
    as (Hf & Hh & _).
  split; [exact Hf|exact Hh].
Defined.


Lemma X9_other_sessions_are_untouched_witness :
  let data : @value Z := VObj [("mapId", VStr "m1"); ("content", VStr "Zones")] in
  (heap (@two_sessions_world Z) !! 1 = Some (fresh_session "m2")
   /\ forall mapId, get_prop data "mapId" = Ret mapId ->
                    getMap mapId two_sessions_world <> Some 1)
  /\ heap (snd (didReceiveMessage (page 0%Z) "leaflet/legend/update" data two_sessions_world)) !! 1
     = Some (fresh_session "m2").
Proof.
  intros data.
  assert (Hother : forall mapId, get_prop data "mapId" = Ret mapId ->
                                 getMap mapId two_sessions_world <> Some 1)
    by (intros mapId Hm; injection Hm as <-; discriminate).
  split; [split; [reflexivity|exact Hother]|].
  apply (X9_other_sessions_are_untouched (page 0%Z) two_sessions_world "leaflet/legend/update" data 1
           (fresh_session "m2") eq_refl Hother).
Defined.

Lemma X10_envelopes_send_nothing_witness :
  let data : @value Z :=
    VObj [("mapId", VStr "m1");
          ("markers", VArr [marker_entry (VNum 48%Z) (VNum 2%Z) "here" "pin"])] in
  let r := didReceiveMessage (page 0%Z) "leaflet/markers/update" data registered_world in
  ("leaflet/markers/update" <> "leaflet/enterStep"
   /\ "leaflet/markers/update" <> "leaflet/initialize")
  /\ timers (env (snd r)) = timers (env (@registered_world Z))
  /\ outbox (env (snd r)) = outbox (env (@registered_world Z)).
Proof.
  intros data r. split; [split; discriminate|].
  destruct (X10_envelopes_send_nothing (page 0%Z) (@registered_world Z)
              "leaflet/markers/update" data ltac:(discriminate)) as (Ht & Ho & _).
  split; [exact Ht|]. apply Ho. discriminate.
Defined.


Lemma X12_unbuildable_entry_blocks_the_queue_witness :
  let accepts : @FeatureCollection Z -> bool := fun _ => true in
  let z := zone (VNum 1%Z) (VObj [("0", VArr [triangle 0%Z 1%Z])]) in
  let s := set_queueGeoJSON [z] (fresh_session "m1") in
  (z ∈ _queueGeoJSON s
   /\ isMultiple (entry_points z) = true /\ isArray (entry_points z) = false)
  /\ drawGeoJSON accepts (s, empty_env) = (Throw TypeError, (without_last s, empty_env)).
Proof.
  intros accepts z s.
  assert (Hin : z ∈ _queueGeoJSON s) by (apply elem_of_cons; left; reflexivity).
  split; [split; [exact Hin|split; reflexivity]|].
  apply (proj1 (X12_unbuildable_entry_blocks_the_queue accepts s empty_env z
                  Hin eq_refl eq_refl)).
Defined.

Lemma X13_layers_on_the_map_are_owned_witness :
  let accepts : @FeatureCollection Z -> bool := fun _ => true in
  let calls : list (@Call Z) :=
    [Call_addGeoJSON (VNum 1%Z) (triangle 0%Z 1%Z) (VStr "t") (VStr "red");
     Call_drawGeoJSON;
     Call_updateMarkers (VArr [marker_entry (VNum 48%Z) (VNum 2%Z) "here" "pin"; VNull])] in
  let e1 := set_used ["leaflet-m1"] (@empty_env Z) in
  let s' := fst (perform_all accepts (page 0%Z) calls (@fresh_session Z "m1", e1)) in
  (new_LeafletMap (page 0%Z) (VStr "m1") (VStr "tiles") (VNum 400%Z) (VObj []) (VObj [])
     empty_env
   = (Ret (fresh_session "m1"), e1)
   /\ viewport (_map s') = None)
  /\ forall m, m ∈ _markers s' -> marker_uid m ∈ shown_layers (_map s').
Proof.
  intros accepts calls e1 s'. split; [split; reflexivity|].
  intros m Hm.
  apply (proj2 (X13_layers_on_the_map_are_owned accepts (page 0%Z) (VStr "m1") (VStr "tiles")
                  (VNum 400%Z) (VObj []) (VObj []) empty_env e1 e1
                  (fresh_session "m1") calls eq_refl eq_refl) m Hm).
Defined.

Lemma X14_updateMarkers_without_an_array_witness :
  isArray (VUndef : @value Z) = false
  /\ fst (updateMarkers (page 0%Z) VUndef (session_with_two_markers, set_next_uid 2 (@empty_env Z)))
     = Throw TypeError
  /\ shown_layers (_map (fst (snd (updateMarkers (page 0%Z) VUndef
                                     (session_with_two_markers,
                                      set_next_uid 2 (@empty_env Z))))))
     = [].
Proof.
  split; [reflexivity|].
  rewrite (X14_updateMarkers_without_an_array (page 0%Z) VUndef session_with_two_markers
             (set_next_uid 2 empty_env) eq_refl).
  split; reflexivity.
Defined.

Lemma X15_updateMarkers_stops_at_the_first_bad_entry_witness :
  let pre : list (@value Z) := [marker_entry (VNum 48%Z) (VNum 2%Z) "here" "pin"] in
  let post : list (@value Z) := [marker_entry (VNum 49%Z) (VNum 3%Z) "there" "pin"] in
  let r := updateMarkers (page 0%Z) (VArr (pre ++ VNull :: post))
             (@fresh_session Z "m1", empty_env) in
  (tidy (fresh_session "m1", @empty_env Z)
   /\ viewport (_map (@fresh_session Z "m1")) = None
   /\ forallb (placeable (page 0%Z)) pre = true
   /\ placeable (page 0%Z) (VNull : @value Z) = false)
  /\ fst r = Throw TypeError
  /\ length (_markers (fst (snd r))) = 1.
Proof.
  intros pre post r.
  assert (Ht : tidy (fresh_session "m1", @empty_env Z)).
  { split; [reflexivity|]. split; [constructor|discriminate]. }
  split; [split; [exact Ht|repeat split; reflexivity]|].
  pose proof (X15_updateMarkers_stops_at_the_first_bad_entry (page 0%Z) pre post VNull
                (fresh_session "m1") empty_env Ht eq_refl eq_refl eq_refl)
    as (Hf & _ & _ & Hl).
  split; [exact Hf|exact Hl].
Defined.

Lemma X27_replacement_on_a_map_without_a_view_witness :
  let s : @LeafletMap Z := session_with_two_markers in
  let e0 : Env := set_next_uid 2 empty_env in
  let entries : list (@value Z) := [marker_entry (VNum 48%Z) (VNum 2%Z) "here" "pin"] in
  (tidy (s, e0) /\ viewport (_map s) = None
   /\ forallb (placeable (page 0%Z)) entries = true)
  /\ exists s' e',
       updateMarkers (page 0%Z) (VArr entries) (s, e0) = (Ret tt, (s', e'))
       /\ _markers s' = new_markers (next_uid e0) entries
       /\ length (_markers s') = length entries
       /\ marker_layers s' = map marker_uid (_markers s')
       /\ (forall m, m ∈ _markers s -> marker_uid m ∉ shown_layers (_map s'))
       /\ (entries = [] -> _markers s' = [] /\ marker_layers s' = [])
       /\ tidy (s', e').
Proof.
  intros s e0 entries.
  assert (Ht : tidy (s, e0)).
  { split; [reflexivity|]. split; [|discriminate].
    simpl. repeat constructor. }
  split; [split; [exact Ht|split; reflexivity]|].
  apply (X27_replacement_on_a_map_without_a_view (page 0%Z) s e0 entries Ht); reflexivity.
Defined.


Lemma X17_hover_out_restores_the_style_witness :
  let l : @GeoJSONLayer Z :=
    rendered_layer 0 [feature_of_sequence (zone (VNum 1%Z) (triangle 0%Z 1%Z));
                      feature_of_sequence (zone (VNum 2%Z) (triangle 1%Z 2%Z))] in
  let s := set_lastGeoJSON (Some l) (fresh_session "m1") in
  let c2 := snd (resetHighlight 0 (snd (highlightFeature 0 (s, empty_env)))) in
  (_lastGeoJSON s = Some l
   /\ Forall (fun fl => style fl = zone_style (feature fl)) (layer_features l))
  /\ exists l2,
       _lastGeoJSON (fst c2) = Some l2
       /\ layer_features l2 = layer_features l
       /\ paint_order l2 = [1; 0].
Proof.
  intros l s c2.
  assert (Hall : Forall (fun fl => style fl = zone_style (feature fl)) (layer_features l))
    by (repeat constructor).
  split; [split; [reflexivity|exact Hall]|].
  destruct (X17_hover_out_restores_the_style 0 s empty_env l eq_refl Hall)
    as (l2 & Hl2 & Hf & _ & Hp & _).
  exists l2. split; [exact Hl2|]. split; [exact Hf|exact Hp].
Defined.

Lemma X18_sessions_are_never_destroyed_witness :
  let evs : list (@Event Z) :=
    [Receive "leaflet/legend/update" (VObj [("mapId", VStr "m1"); ("content", VStr "Zones")]);
     FeatureMouseover 0 0; Elapse 500] in
  heap (@two_sessions_world Z) !! 0 = Some (fresh_session "m1")
  /\ exists s', heap (run (page 0%Z) evs two_sessions_world) !! 0 = Some s' /\ _id s' = VStr "m1".
Proof.
  intros evs. split; [reflexivity|].
  apply (X18_sessions_are_never_destroyed (page 0%Z) evs two_sessions_world 0 (fresh_session "m1")).
  reflexivity.
Defined.

Lemma X19_one_notification_per_burst_witness :
  let init : @value Z :=
    VObj [("mapId", VStr "m1"); ("layer", VStr "tiles"); ("height", VNum 400%Z);
          ("options", VObj []); ("layerOptions", VObj [])] in
  let w : World := run (page 0%Z) [Receive "leaflet/initialize" init] initial_world in
  let v (z : Z) : ViewState :=
    {| northLat := 49%Z; eastLng := 3%Z; southLat := 48%Z; westLng := 2%Z;
       zoomLevel := z |} in
  let bs : list Burst := [(v 10%Z, [(50, v 11%Z); (199, v 12%Z)], 200);
                          (v 13%Z, [], 1000)] in
  (heap w !! 0 = Some (fresh_session "m1") /\ timers (env w) = []
   /\ forallb burst_ok bs = true)
  /\ outbox (env (run (page 0%Z) (concat (map (burst_events 0) bs)) w))
     = [view_message (VStr "m1") (v 12%Z); view_message (VStr "m1") (v 13%Z)].
Proof.
  intros init w v bs. split; [repeat split; reflexivity|].
  apply (proj1 (X19_one_notification_per_burst (page 0%Z) 0 (fresh_session "m1") bs w
                  eq_refl eq_refl eq_refl)).
Defined.

Lemma X20_getMap_finds_the_first_match_witness :
  getMap (VStr "m1") (@duplicate_ids_world Z) = Some 0
  /\ exists s, heap (@duplicate_ids_world Z) !! 0 = Some s
               /\ _id s = VStr "m1" /\ primitive (VStr "m1" : @value Z) = true.
Proof.
  split; [reflexivity|].
  apply (proj2 (X20_getMap_finds_the_first_match duplicate_ids_world (VStr "m1") 0)).
  reflexivity.
Defined.


Lemma X23_view_envelopes_change_nothing_witness :
  let data : @value Z := VObj [("mapId", VStr "m1"); ("zoom", VNum 12%Z)] in
  (get_prop data "mapId" = Ret (VStr "m1")
   /\ getMap (VStr "m1") registered_world = Some 0)
  /\ didReceiveMessage (page 0%Z) "leaflet/map/zoom" data registered_world
     = (Throw TypeError, registered_world).
Proof.
  intros data. split; [split; reflexivity|].
  pose proof (X23_view_envelopes_change_nothing (page 0%Z) registered_world data) as Hall.
  apply Forall_cons in Hall as [_ Hall].
  apply Forall_cons in Hall as [[_ Hzoom] _].
  apply (Hzoom (VStr "m1") 0); reflexivity.
Defined.

Lemma X25_the_information_panel_is_never_shown_witness :
  let init : @value Z :=
    VObj [("mapId", VStr "m1"); ("layer", VStr "tiles"); ("height", VNum 400%Z);
          ("options", VObj []); ("layerOptions", VObj [])] in
  let evs := [Receive "leaflet/initialize" init; FeatureMouseover 0 0] in
  heap (run (page 0%Z) evs initial_world) !! 0 = Some (fresh_session "m1")
  /\ _tooltip (fresh_session (number := Z) "m1")
     = {| display := "none"; innerHTML := VStr "" |}.
Proof.
  intros init evs. split; [reflexivity|].
  apply (X25_the_information_panel_is_never_shown (page 0%Z) evs 0 (fresh_session "m1")).
  reflexivity.
Defined.

Lemma X26_one_pending_timer_per_session_witness :
  let init (mapId : string) : @value Z :=
    VObj [("mapId", VStr mapId); ("layer", VStr "tiles"); ("height", VNum 400%Z);
          ("options", VObj []); ("layerOptions", VObj [])] in
  let v (z : Z) : ViewState :=
    {| northLat := 49%Z; eastLng := 3%Z; southLat := 48%Z; westLng := 2%Z;
       zoomLevel := z |} in
  let evs := [Receive "leaflet/initialize" (init "m1");
              Receive "leaflet/initialize" (init "m2");
              ViewChange 0 (v 10%Z); ViewChange 1 (v 5%Z); Elapse 100;
              ViewChange 0 (v 11%Z)] in
  length (timers (env (run (page 0%Z) evs initial_world))) = 2
  /\ length (pending_for 0 (run (page 0%Z) evs initial_world)) <= 1.
Proof.
  intros init v evs. split; [reflexivity|].
  apply (proj1 (X26_one_pending_timer_per_session (page 0%Z) evs 0)).
Defined.

